(** * Single-node multi-GPU PageRank

    A shallow embedding of [cpp/src/snmg/link_analysis/pagerank.cu]:
    the kernel [transition_kernel], the solver class [SNMGpagerank]
    (constructor, [transition_vals], [flag_leafs], [setup], [solve]), the
    per-worker driver [gdf_snmg_pagerank_impl] and the validating entry
    point [gdf_snmg_pagerank].

    Device memory is a finite map from addresses to blocks of cells; the
    template parameter [ValueType] is a binary floating-point format and
    its arithmetic is the one of [SpecFloat]; exceptions and device
    faults are the two failure outcomes of a small monad. *)

From Stdlib Require Import ZArith Lia SpecFloat.
From stdpp Require Import gmap list strings.
From Equations Require Import Equations.

Open Scope Z_scope.

(** ** Scalars *)

(** [ValueType]: the two formats the translation unit instantiates
    ([template class SNMGpagerank<int, double>] and [<int, float>]). *)
Inductive value_type := Float32 | Float64.

Definition prec (T : value_type) : Z :=
  match T with Float32 => 24 | Float64 => 53 end.

Definition emax (T : value_type) : Z :=
  match T with Float32 => 128 | Float64 => 1024 end.

(** Conversion of a floating-point value to the format [T]
    (round to nearest even; exact when the value is representable). *)
Definition convert (T : value_type) (x : spec_float) : spec_float :=
  match x with
  | S754_finite s m e => binary_round (prec T) (emax T) s m e
  | _ => x
  end.

(** Conversion of an integer ([int], [size_t]) to the format [T]. *)
Definition of_Z (T : value_type) (z : Z) : spec_float :=
  binary_normalize (prec T) (emax T) z 0 false.

Definition vadd (T : value_type) := SFadd (prec T) (emax T).
Definition vmul (T : value_type) := SFmul (prec T) (emax T).
Definition vdiv (T : value_type) := SFdiv (prec T) (emax T).
Definition vsqrt (T : value_type) := SFsqrt (prec T) (emax T).

(** The literals [0.0] and [1.0] have type [double]. *)
Definition lit_0_0 : spec_float := S754_zero false.
Definition lit_1_0 : spec_float := of_Z Float64 1.

Arguments convert : simpl never.
Arguments of_Z : simpl never.

(** [IndexType]; both instantiations use [int]. *)
Inductive index_type := Int32 | Int64.

Definition idx_bits (IT : index_type) : Z :=
  match IT with Int32 => 32 | Int64 => 64 end.

(** Two's complement wrap-around of a [bits]-wide signed integer. *)
Definition wrap_signed (bits z : Z) : Z :=
  (z + 2 ^ (bits - 1)) mod 2 ^ bits - 2 ^ (bits - 1).

Definition to_index (IT : index_type) (z : Z) : Z := wrap_signed (idx_bits IT) z.
Definition to_int (z : Z) : Z := wrap_signed 32 z.
Definition to_size_t (z : Z) : Z := z mod 2 ^ 64.
Definition to_unsigned (z : Z) : Z := z mod 2 ^ 32.

(** ** Device memory *)

Definition ptr := N.
Definition nullptr : ptr := 0%N.

(** A cell of a device block: not yet written, an index or a value. *)
Inductive cell := Undef | Idx (z : Z) | Val (x : spec_float).

Definition cell_int (c : cell) : option Z :=
  match c with Idx z => Some z | _ => None end.

Definition cell_val (c : cell) : option spec_float :=
  match c with Val x => Some x | _ => None end.

(** The heap of device blocks together with the two host arrays of
    per-device pointers that the driver shares between its workers
    ([idx_t *degree[n_gpus]] and [val_t* pagerank[n_gpus]]). *)
Record machine := Machine {
  mem : gmap ptr (list cell);
  degree : list ptr;
  pagerank : list ptr
}.

Definition set_mem (h : gmap ptr (list cell)) (m : machine) : machine :=
  Machine h (degree m) (pagerank m).

Definition set_degree (d : list ptr) (m : machine) : machine :=
  Machine (mem m) d (pagerank m).

Definition set_pagerank (p : list ptr) (m : machine) : machine :=
  Machine (mem m) (degree m) p.

(** Modelled from the spec: the device allocator macro [ALLOC_TRY] of
    rmm_utils.h, "allocate N bytes on device, zero-initialized or not".
    The block is fresh, non-null and its cells are unwritten; [n] counts
    elements ([sizeof(T) * n] bytes). A request that the device refuses
    is not modelled: the model follows the runs in which the allocation
    succeeds. *)
Definition ALLOC_TRY (n : Z) (m : machine) : ptr * machine :=
  let p := fresh ({[nullptr]} ∪ dom (mem m)) in
  (p, set_mem (<[p := replicate (Z.to_nat n) Undef]> (mem m)) m).

(** Modelled from the spec: the macro [ALLOC_FREE_TRY] of rmm_utils.h,
    "free". *)
Definition ALLOC_FREE_TRY (p : ptr) (m : machine) : machine :=
  set_mem (delete p (mem m)) m.

Definition load (h : gmap ptr (list cell)) (p : ptr) (i : Z) : option cell :=
  if 0 <=? i then buf ← h !! p; buf !! Z.to_nat i else None.

Definition load_int (h : gmap ptr (list cell)) (p : ptr) (i : Z) : option Z :=
  load h p i ≫= cell_int.

(** The first [n] cells of a block, which must all hold values. *)
Definition load_vals (h : gmap ptr (list cell)) (n : Z) (p : ptr)
  : option (list spec_float) :=
  buf ← h !! p;
  guard (Z.to_nat n ≤ length buf)%nat;;
  mapM cell_val (take (Z.to_nat n) buf).

Definition store_cell (p : ptr) (i : Z) (c : cell) (h : gmap ptr (list cell))
  : option (gmap ptr (list cell)) :=
  buf ← h !! p;
  guard (0 ≤ i < Z.of_nat (length buf));;
  Some (<[p := <[Z.to_nat i := c]> buf]> h).

(** Overwrite the first [length cs] cells of a block. *)
Definition store_cells (p : ptr) (cs : list cell) (h : gmap ptr (list cell))
  : option (gmap ptr (list cell)) :=
  buf ← h !! p;
  guard (length cs ≤ length buf)%nat;;
  Some (<[p := cs ++ drop (length cs) buf]> h).

Arguments ALLOC_TRY : simpl never.
Arguments ALLOC_FREE_TRY : simpl never.
Arguments store_cells : simpl never.
Arguments store_cell : simpl never.
Arguments load_vals : simpl never.
Arguments load_int : simpl never.

(** ** Outcomes

    A call returns, throws a [std::string] (leaving the state it reached)
    or faults: a read or write outside a block or of an unwritten cell,
    an invalid kernel launch, a loop that does not end. *)
Inductive outcome (St A : Type) :=
| Ret (a : A)
| Throw (msg : string) (st : St)
| Fault.
Arguments Ret {St A} a.
Arguments Throw {St A} msg st.
Arguments Fault {St A}.

#[global] Instance outcome_bind {St} : MBind (outcome St) :=
  λ A B f o,
    match o with
    | Ret a => f a
    | Throw msg st => Throw msg st
    | Fault => Fault
    end.

#[global] Instance outcome_ret {St} : MRet (outcome St) := λ A a, Ret a.

Definition lift {St A} (o : option A) : outcome St A :=
  match o with Some a => Ret a | None => Fault end.

(** Run a memory operation on the heap of a machine. *)
Definition on_mem {St} (f : gmap ptr (list cell) → option (gmap ptr (list cell)))
  (m : machine) : outcome St machine :=
  h ← lift (f (mem m)); Ret (set_mem h m).

Definition load_ints (h : gmap ptr (list cell)) (n : Z) (p : ptr)
  : option (list Z) :=
  buf ← h !! p;
  guard (Z.to_nat n ≤ length buf)%nat;;
  mapM cell_int (take (Z.to_nat n) buf).

(** ** Vector arithmetic primitives *)

Section Primitives.
Variable T : value_type.

(** Modelled from the spec: [fill(length, buffer, value)] of
    utilities/graph_utils.cuh. *)
Definition fill (n : Z) (p : ptr) (x : spec_float)
  : gmap ptr (list cell) → option (gmap ptr (list cell)) :=
  store_cells p (replicate (Z.to_nat n) (Val x)).

(** Modelled from the spec: [scale(length, factor, buffer)] (in place),
    the [scal] of utilities/graph_utils.cuh. *)
Definition scal (n : Z) (a : spec_float) (p : ptr) (h : gmap ptr (list cell))
  : option (gmap ptr (list cell)) :=
  xs ← load_vals h n p;
  store_cells p (Val <$> (vmul T a <$> xs)) h.

(** Modelled from the spec: [addScalar(length, scalar, buffer)] (in
    place, adds scalar to every element), the [addv] of
    utilities/graph_utils.cuh. *)
Definition addv (n : Z) (a : spec_float) (p : ptr) (h : gmap ptr (list cell))
  : option (gmap ptr (list cell)) :=
  xs ← load_vals h n p;
  store_cells p (Val <$> ((λ x, vadd T x a) <$> xs)) h.

(** The sum of a vector; the order of accumulation is
    implementation-defined in the spec, here left to right. *)
Definition vsum (xs : list spec_float) : spec_float :=
  foldl (vadd T) (convert T lit_0_0) xs.

(** Modelled from the spec: [dot(length, a, b) -> scalar] of
    utilities/graph_utils.cuh. *)
Definition dot (n : Z) (p q : ptr) (h : gmap ptr (list cell))
  : option spec_float :=
  xs ← load_vals h n p;
  ys ← load_vals h n q;
  Some (vsum (zip_with (vmul T) xs ys)).

(** Modelled from the spec: [norm1(length, buffer) -> scalar], the
    [nrm1] of utilities/graph_utils.cuh. *)
Definition nrm1 (n : Z) (p : ptr) (h : gmap ptr (list cell))
  : option spec_float :=
  xs ← load_vals h n p;
  Some (vsum (SFabs <$> xs)).

(** Modelled from the spec: [norm2(length, buffer) -> scalar], the
    [nrm2] of utilities/graph_utils.cuh. *)
Definition nrm2 (n : Z) (p : ptr) (h : gmap ptr (list cell))
  : option spec_float :=
  xs ← load_vals h n p;
  Some (vsqrt T (vsum ((λ x, vmul T x x) <$> xs))).

(** Modelled from the spec: the kernel [flag_leafs_kernel] of
    utilities/graph_utils.cuh, the first half of "set bookmark[v] =
    alpha for every vertex with degree 0 (dangling)": it flags the
    vertices of degree 0 in the bookmark. *)
Definition flag_leafs_kernel (n : Z) (degree bookmark : ptr)
  (h : gmap ptr (list cell)) : option (gmap ptr (list cell)) :=
  ds ← load_ints h n degree;
  bs ← load_vals h n bookmark;
  store_cells bookmark
    (Val <$> zip_with (λ d b, if d =? 0 then convert T lit_1_0 else b) ds bs) h.

(** Modelled from the spec: [update_dangling_nodes] of
    utilities/graph_utils.cuh, the second half of "set bookmark[v] =
    alpha for every vertex with degree 0 (dangling)": every flagged
    entry becomes [alpha], the others stay 0. *)
Definition update_dangling_nodes (n : Z) (bookmark : ptr) (alpha : spec_float)
  (h : gmap ptr (list cell)) : option (gmap ptr (list cell)) :=
  bs ← load_vals h n bookmark;
  store_cells bookmark
    (Val <$> ((λ b, if SFeqb b (convert T lit_0_0) then b else alpha) <$> bs)) h.

(** *** The transition kernel (lines 35-45) *)

(** [1.0 / degree[ind[i]]]: the division is done in [double] and the
    quotient is converted to [ValueType] by the assignment. *)
Definition transition_value (d : Z) : spec_float :=
  convert T (vdiv Float64 lit_1_0 (of_Z Float64 d)).

(** One thread of the grid: the grid-stride loop from its first index
    [i]. The index is an [unsigned int]; [fuel] bounds the number of
    iterations, and a loop that has not ended by then is a fault. *)
Fixpoint transition_thread (fuel : nat) (e : Z) (ind degree val : ptr)
  (stride i : Z) (h : gmap ptr (list cell)) : option (gmap ptr (list cell)) :=
  if i <? e then
    match fuel with
    | O => None
    | S fuel' =>
        c ← load_int h ind i;
        d ← load_int h degree c;
        h' ← store_cell val i (Val (transition_value d)) h;
        transition_thread fuel' e ind degree val stride (to_unsigned (i + stride)) h'
    end
  else Some h.

(** The threads of a launch [<<<gridDim, blockDim>>>] as pairs
    [(blockIdx.x, threadIdx.x)]. *)
Definition grid (gridDim blockDim : Z) : list (Z * Z) :=
  b ← seqZ 0 gridDim; t ← seqZ 0 blockDim; [(b, t)].

(** The kernel run by every thread of the grid. Every index is written
    by the threads of one residue class only, with a value that does
    not depend on the thread, so the threads are run one after the
    other. *)
Definition transition_kernel (gridDim blockDim : Z) (e : Z)
  (ind degree val : ptr) (h : gmap ptr (list cell))
  : option (gmap ptr (list cell)) :=
  foldl (λ acc bt, h' ← acc;
           transition_thread (Z.to_nat e) e ind degree val
             (to_unsigned (gridDim * blockDim))
             (to_unsigned (bt.2 + bt.1 * blockDim)) h')
        (Some h) (grid gridDim blockDim).
End Primitives.

(** A launch whose grid or block is empty is refused by the device, and
    [cudaCheckError] aborts on it. *)
Definition launch_ok (blocks threads : Z) : bool :=
  (0 <? blocks) && (0 <? threads).

(** ** What the solver takes from the rest of the library *)

(** [SNMGinfo] of snmg/utils.cuh: the worker's view of the parallel
    region and of its device. *)
Record SNMGinfo := {
  get_thread_num : Z;
  get_num_threads : Z;
  get_num_sm : Z
}.

(** [gdf_error], [gdf_dtype] and [gdf_column] of cudf, with the fields
    the entry point reads and writes. *)
Inductive gdf_error :=
| GDF_SUCCESS
| GDF_CUDA_ERROR
| GDF_UNSUPPORTED_DTYPE
| GDF_COLUMN_SIZE_MISMATCH
| GDF_VALIDITY_UNSUPPORTED
| GDF_INVALID_API_CALL
| GDF_C_ERROR.

Inductive gdf_dtype := GDF_invalid | GDF_INT32 | GDF_INT64 | GDF_FLOAT32 | GDF_FLOAT64.

Record gdf_column := {
  data : ptr;
  size : Z;
  dtype : gdf_dtype;
  null_count : Z
}.

#[global] Instance gdf_error_eq_dec : EqDecision gdf_error.
Proof. solve_decision. Defined.

#[global] Instance gdf_dtype_eq_dec : EqDecision gdf_dtype.
Proof. solve_decision. Defined.

(** The outcome of the distributed [gdf_snmg_coo2csr] for one worker:
    its return code, the partition offsets it publishes, and the blocks
    of the local CSR it leaves in the two output columns ([None]: the
    column's [data] was not set). *)
Record coo2csr_result := {
  csr_status : gdf_error;
  csr_part_offset : list Z;
  csr_off : option (list Z);
  csr_ind : option (list Z)
}.

(** The constants and collective operations defined outside this
    translation unit, taken as parameters: [CUDA_MAX_BLOCKS]
    (utilities/graph_utils.cuh), [snmg_degree] (snmg/degree/degree.cuh;
    [None] is a non-zero return code, [Some deg] the global degree vector
    it leaves in the caller's block), [SNMGcsrmv::run] (snmg/blas/spmv.cuh;
    the new contents of the caller's vector), [gdf_snmg_coo2csr], cudf's
    [gdf_col_set_defaults], the number of multiprocessors of each device
    and the result of [cudaGetDeviceCount]. *)
Class Collaborators := {
  CUDA_MAX_BLOCKS : Z;
  snmg_degree : Z → list Z → list cell → list cell → option (list Z);
  SNMGcsrmv_run : value_type → Z → list Z → list cell → list cell →
                  list spec_float → list spec_float → list spec_float;
  gdf_snmg_coo2csr : Z → gmap ptr (list cell) → gdf_column → gdf_column →
                     coo2csr_result;
  gdf_col_set_defaults : gdf_column → gdf_column;
  num_sm : Z → Z;
  dev_count : Z
}.

(** ** The solver class [SNMGpagerank] *)

Record SNMGpagerank := {
  env : SNMGinfo;
  part_off : list Z;
  off : ptr;
  ind : ptr;
  id : Z;
  nt : Z;
  v_glob : Z;
  v_loc : Z;
  e_loc : Z;
  stream : ptr;
  is_setup : bool;
  alpha : option spec_float;
  bookmark : ptr;
  val : ptr
}.

Definition set_alpha (a : spec_float) (s : SNMGpagerank) : SNMGpagerank :=
  {| env := env s; part_off := part_off s; off := off s; ind := ind s;
     id := id s; nt := nt s; v_glob := v_glob s; v_loc := v_loc s;
     e_loc := e_loc s; stream := stream s; is_setup := is_setup s;
     alpha := Some a; bookmark := bookmark s; val := val s |}.

Definition set_is_setup (b : bool) (s : SNMGpagerank) : SNMGpagerank :=
  {| env := env s; part_off := part_off s; off := off s; ind := ind s;
     id := id s; nt := nt s; v_glob := v_glob s; v_loc := v_loc s;
     e_loc := e_loc s; stream := stream s; is_setup := b;
     alpha := alpha s; bookmark := bookmark s; val := val s |}.

(** A thrown exception carries the solver and the machine as it left
    them. *)
Abbreviation result := (outcome (SNMGpagerank * machine)).

(** Element [i] of a host array. *)
Definition index {A} (l : list A) (i : Z) : option A :=
  if 0 <=? i then l !! Z.to_nat i else None.

Section Solver.
Context {C : Collaborators}.
Variable T : value_type.
Variable IT : index_type.

(** The constructor (lines 47-66). The sparse-BLAS handle has no state
    in this model. *)
Definition new_SNMGpagerank (env_ : SNMGinfo) (part_off_ : list Z)
  (off_ ind_ : ptr) (m : machine) : result (SNMGpagerank * machine) :=
  let id := get_thread_num env_ in
  let nt := get_num_threads env_ in
  v_glob ← lift (index part_off_ nt);
  hi ← lift (index part_off_ (id + 1));
  lo ← lift (index part_off_ id);
  let v_loc := to_size_t (hi - lo) in
  tmp_e ← lift (load_int (mem m) off_ v_loc);
  let e_loc := to_size_t tmp_e in
  let stream := nullptr in
  let is_setup := false in
  let '(bookmark, m) := ALLOC_TRY v_glob m in
  let '(val, m) := ALLOC_TRY e_loc m in
  Ret ({| env := env_; part_off := part_off_; off := off_; ind := ind_;
          id := id; nt := nt; v_glob := v_glob; v_loc := v_loc;
          e_loc := e_loc; stream := stream; is_setup := is_setup;
          alpha := None; bookmark := bookmark; val := val |}, m).

(** The destructor (lines 68-73). *)
Definition delete_SNMGpagerank (this : SNMGpagerank) (m : machine) : machine :=
  ALLOC_FREE_TRY (val this) (ALLOC_FREE_TRY (bookmark this) m).

(** [transition_vals] (lines 75-81). *)
Definition transition_vals (this : SNMGpagerank) (degree : ptr) (m : machine)
  : result machine :=
  let threads := to_int (Z.min (to_index IT (e_loc this)) 256) in
  let blocks :=
    to_int (Z.min (to_index IT (to_int (32 * get_num_sm (env this)))) CUDA_MAX_BLOCKS) in
  if launch_ok blocks threads then
    on_mem (transition_kernel T blocks threads (e_loc this) (ind this) degree (val this)) m
  else Fault.

(** [flag_leafs] (lines 83-89). *)
Definition flag_leafs (this : SNMGpagerank) (degree : ptr) (m : machine)
  : result machine :=
  let threads := to_int (Z.min (to_index IT (v_glob this)) 256) in
  let blocks :=
    to_int (Z.min (to_index IT (to_int (32 * get_num_sm (env this)))) CUDA_MAX_BLOCKS) in
  if launch_ok blocks threads then
    on_mem (flag_leafs_kernel T (v_glob this) degree (bookmark this)) m
  else Fault.

(** [setup] (lines 92-119). *)
Definition setup (_alpha : spec_float) (this : SNMGpagerank) (m : machine)
  : result (SNMGpagerank * machine) :=
  if negb (is_setup this) then
    let this := set_alpha _alpha this in
    let zero := convert T lit_0_0 in
    let '(degree_loc, m) := ALLOC_TRY (v_glob this) m in
    _ ← lift (index (degree m) (id this));
    let m := set_degree (<[Z.to_nat (id this) := degree_loc]> (degree m)) m in
    offs ← lift (mem m !! off this);
    inds ← lift (mem m !! ind this);
    match snmg_degree (id this) (part_off this) offs inds with
    | None => Throw "SNMG Degree failed in Pagerank" (this, m)
    | Some deg =>
        m ← on_mem (store_cells degree_loc (Idx <$> deg)) m;
        m ← on_mem (fill (v_glob this) (bookmark this) zero) m;
        m ← flag_leafs this degree_loc m;
        a ← lift (alpha this);
        m ← on_mem (update_dangling_nodes T (v_glob this) (bookmark this) a) m;
        m ← transition_vals this degree_loc m;
        let m := ALLOC_FREE_TRY degree_loc m in
        Ret (set_is_setup true this, m)
    end
  else Throw "Setup can be called only once" (this, m).

(** [spmv_solver.run(pagerank)]: the product replaces the worker's
    vector in place. *)
Definition spmv_run (this : SNMGpagerank) (pr : ptr) (m : machine)
  : result machine :=
  offs ← lift (mem m !! off this);
  inds ← lift (mem m !! ind this);
  vals ← lift (load_vals (mem m) (e_loc this) (val this));
  xs ← lift (load_vals (mem m) (v_glob this) pr);
  on_mem (store_cells pr
            (Val <$> SNMGcsrmv_run T (id this) (part_off this) offs inds vals xs)) m.

(** The statements before the loop of [solve] (lines 125-134). *)
Definition solve_init (this : SNMGpagerank) (pr : ptr) (m : machine)
  : result (spec_float * machine) :=
  let one := convert T lit_1_0 in
  m ← on_mem (fill (v_glob this) pr (vdiv T one (of_Z T (v_glob this)))) m;
  dot_res ← lift (dot T (v_glob this) (bookmark this) pr (mem m));
  Ret (dot_res, m).

(** The body of the loop of [solve] (lines 136-140). *)
Definition solve_body (this : SNMGpagerank) (pr : ptr)
  (st : spec_float * machine) : result (spec_float * machine) :=
  let '(dot_res, m) := st in
  let one := convert T lit_1_0 in
  m ← spmv_run this pr m;
  a ← lift (alpha this);
  m ← on_mem (scal T (v_glob this) a pr) m;
  m ← on_mem (addv T (v_glob this)
                (vmul T dot_res (vdiv T one (of_Z T (v_glob this)))) pr) m;
  dot_res ← lift (dot T (v_glob this) (bookmark this) pr (mem m));
  nrm ← lift (nrm2 T (v_glob this) pr (mem m));
  m ← on_mem (scal T (v_glob this) (vdiv T one nrm) pr) m;
  Ret (dot_res, m).

(** The statement after the loop of [solve] (line 142). *)
Definition solve_final (this : SNMGpagerank) (pr : ptr)
  (st : spec_float * machine) : result machine :=
  let one := convert T lit_1_0 in
  nrm ← lift (nrm1 T (v_glob this) pr (mem st.2));
  on_mem (scal T (v_glob this) (vdiv T one nrm) pr) st.2.

(** [for (auto i = 0; i < max_iter; ++i)] (line 135). The counter is an
    [int] below [max_iter], so [++i] does not overflow. *)
Equations? solve_loop (this : SNMGpagerank) (pr : ptr) (max_iter i : Z)
  (st : spec_float * machine) : result (spec_float * machine)
  by wf (Z.to_nat (max_iter - i)) lt :=
solve_loop this pr max_iter i st with Z_lt_dec i max_iter := {
  | left _ with solve_body this pr st := {
      | Ret st' => solve_loop this pr max_iter (i + 1) st';
      | Throw msg s => Throw msg s;
      | Fault => Fault };
  | right _ => Ret st }.
Proof. lia. Qed.

(** [solve] (lines 121-147). *)
Definition solve (max_iter : Z) (this : SNMGpagerank) (m : machine)
  : result (SNMGpagerank * machine) :=
  if is_setup this then
    pr ← lift (index (pagerank m) (id this));
    st ← solve_init this pr m;
    st ← solve_loop this pr max_iter 0 st;
    m ← solve_final this pr st;
    Ret (this, m)
  else Throw "Solve was called before setup" (this, m).
End Solver.

(** ** The driver [gdf_snmg_pagerank_impl] (lines 155-270) *)

(** The variables of the driver that its workers share, next to the two
    pointer arrays of the machine. *)
Record shared := {
  part_offset : list Z;
  status : gdf_error;
  pr_col : gdf_column
}.

Definition set_part_offset (l : list Z) (sh : shared) : shared :=
  {| part_offset := l; status := status sh; pr_col := pr_col sh |}.

Definition set_status (e : gdf_error) (sh : shared) : shared :=
  {| part_offset := part_offset sh; status := e; pr_col := pr_col sh |}.

Definition set_pr_col (c : gdf_column) (sh : shared) : shared :=
  {| part_offset := part_offset sh; status := status sh; pr_col := c |}.

(** A column left by [gdf_snmg_coo2csr]: a new block with the given
    contents, or the null pointer when the column was not filled. *)
Definition csr_column (o : option (list Z)) (m : machine) : gdf_column * machine :=
  match o with
  | Some l =>
      let '(p, m) := ALLOC_TRY (Z.of_nat (length l)) m in
      ({| data := p; size := Z.of_nat (length l); dtype := GDF_INT32; null_count := 0 |},
       set_mem (<[p := Idx <$> l]> (mem m)) m)
  | None =>
      ({| data := nullptr; size := 0; dtype := GDF_invalid; null_count := 0 |}, m)
  end.

(** [cudaMemcpy(dst, src, n * sizeof(T), cudaMemcpyDeviceToDevice)]. *)
Definition cudaMemcpy (dst src : ptr) (n : Z) (h : gmap ptr (list cell))
  : option (gmap ptr (list cell)) :=
  buf ← h !! src;
  guard (Z.to_nat n ≤ length buf)%nat;;
  store_cells dst (take (Z.to_nat n) buf) h.

(** cugraph's [gdf_col_delete]: releases the block of a column. *)
Definition gdf_col_delete (c : gdf_column) (m : machine) : machine :=
  ALLOC_FREE_TRY (data c) m.

Section Driver.
Context {C : Collaborators}.
Variable VT : value_type.
Variable IT : index_type.

(** The block of the parallel region, run by worker [i] (lines 184-267);
    [#pragma omp master] selects worker 0. The timing output is not
    modelled. *)
Definition worker (src_col_ptrs dest_col_ptrs : list gdf_column) (n_gpus : Z)
  (damping_factor : spec_float) (n_iter : Z) (st : shared * machine) (i : Z)
  : result (shared * machine) :=
  let '(sh, m) := st in
  let env := {| get_thread_num := i; get_num_threads := n_gpus;
                get_num_sm := num_sm i |} in
  let p := get_num_threads env in
  dest ← lift (index dest_col_ptrs i);
  src ← lift (index src_col_ptrs i);
  let r := gdf_snmg_coo2csr i (mem m) dest src in
  let sh := set_part_offset (csr_part_offset r) sh in
  let '(col_csr_off, m) := csr_column (csr_off r) m in
  let '(col_csr_ind, m) := csr_column (csr_ind r) m in
  let status_i := csr_status r in
  let sh := if decide (status_i ≠ GDF_SUCCESS) then set_status status_i sh else sh in
  '(pr_solver, m) ← new_SNMGpagerank env (part_offset sh)
                      (data col_csr_off) (data col_csr_ind) m;
  '(pr_solver, m) ← setup VT IT (convert VT damping_factor) pr_solver m;
  n ← lift (index (part_offset sh) p);
  let '(q, m) := ALLOC_TRY n m in
  _ ← lift (index (pagerank m) i);
  let m := set_pagerank (<[Z.to_nat i := q]> (pagerank m)) m in
  '(pr_solver, m) ← solve VT n_iter pr_solver m;
  '(sh, m) ←
    (if i =? 0 then
       let col := gdf_col_set_defaults (pr_col sh) in
       let '(d, m) := ALLOC_TRY n m in
       m ← on_mem (cudaMemcpy d q n) m;
       Ret (set_pr_col {| data := d; size := n; dtype := GDF_FLOAT32;
                          null_count := null_count col |} sh, m)
     else Ret (sh, m));
  let m := gdf_col_delete col_csr_off m in
  let m := gdf_col_delete col_csr_ind m in
  let m := ALLOC_FREE_TRY q m in
  Ret (sh, delete_SNMGpagerank pr_solver m).

(** The workers of [#pragma omp parallel num_threads(n_gpus)], run in the
    order of their thread numbers. An exception that leaves the region
    ends the process; it is kept as the [Throw] outcome. *)
Definition gdf_snmg_pagerank_impl (src_col_ptrs dest_col_ptrs : list gdf_column)
  (pr_col_ : gdf_column) (n_gpus : Z) (damping_factor : spec_float) (n_iter : Z)
  (m : machine) : result (gdf_error * gdf_column * machine) :=
  let sh := {| part_offset := replicate (Z.to_nat (n_gpus + 1)) 0;
               status := GDF_SUCCESS; pr_col := pr_col_ |} in
  let m := set_pagerank (replicate (Z.to_nat n_gpus) nullptr)
             (set_degree (replicate (Z.to_nat n_gpus) nullptr) m) in
  '(sh, m) ← foldl (λ acc i, st ← acc;
                      worker src_col_ptrs dest_col_ptrs n_gpus damping_factor n_iter st i)
                   (Ret (sh, m)) (seqZ 0 n_gpus);
  Ret (status sh, pr_col sh, m).
End Driver.

(** ** The entry point [gdf_snmg_pagerank] (lines 272-313) *)

(** cudf's macro [GDF_REQUIRE(cond, err)]: return [err] at once unless
    [cond] holds. [k] is the rest of the function. *)
Definition GDF_REQUIRE {St} (cond : bool) (err : gdf_error)
  (k : outcome St (option gdf_error)) : outcome St (option gdf_error) :=
  if cond then k else Ret (Some err).

(** A pointer argument that may be null. *)
Definition non_null {A} (p : option A) : bool :=
  match p with Some _ => true | None => false end.

(** The checks of one device (lines 298-306); [k] is the rest of the
    loop. *)
Definition check_device {St} (src dest : gdf_column)
  (k : outcome St (option gdf_error)) : outcome St (option gdf_error) :=
  GDF_REQUIRE (bool_decide (size src = size dest)) GDF_COLUMN_SIZE_MISMATCH (
  GDF_REQUIRE (bool_decide (dtype src = dtype dest)) GDF_UNSUPPORTED_DTYPE (
  GDF_REQUIRE (null_count src =? 0) GDF_VALIDITY_UNSUPPORTED (
  GDF_REQUIRE (null_count dest =? 0) GDF_VALIDITY_UNSUPPORTED (
  GDF_REQUIRE (bool_decide (dtype src = GDF_INT32)) GDF_UNSUPPORTED_DTYPE (
  GDF_REQUIRE (bool_decide (dtype dest = GDF_INT32)) GDF_UNSUPPORTED_DTYPE k))))).

(** The loop over the devices (lines 296-307), with the indices still to
    visit; reading past the end of an array is a fault. [None] is
    returned when every check holds. *)
Fixpoint check_devices {St} (src_col_ptrs dest_col_ptrs : list gdf_column)
  (devices : list Z) : outcome St (option gdf_error) :=
  match devices with
  | [] => Ret None
  | i :: devices' =>
      src ← lift (index src_col_ptrs i);
      dest ← lift (index dest_col_ptrs i);
      check_device src dest (check_devices src_col_ptrs dest_col_ptrs devices')
  end.

Section Entry.
Context {C : Collaborators}.

(** The checks of lines 279-307 in their order; a null pointer argument
    is [None], and [damping_factor] is a [float] compared as a
    [double]. *)
Definition validate (src_col_ptrs dest_col_ptrs : option (list gdf_column))
  (pr_col_ : option gdf_column) (n_gpus : Z) (damping_factor : spec_float)
  (n_iter : Z) : result (option gdf_error) :=
  GDF_REQUIRE (non_null src_col_ptrs) GDF_INVALID_API_CALL (
  GDF_REQUIRE (non_null dest_col_ptrs) GDF_INVALID_API_CALL (
  GDF_REQUIRE (non_null pr_col_) GDF_INVALID_API_CALL (
  GDF_REQUIRE (SFltb lit_0_0 (convert Float64 damping_factor)) GDF_INVALID_API_CALL (
  GDF_REQUIRE (SFltb (convert Float64 damping_factor) lit_1_0) GDF_INVALID_API_CALL (
  GDF_REQUIRE (0 <? n_iter) GDF_INVALID_API_CALL (
  GDF_REQUIRE (0 <? n_gpus) GDF_INVALID_API_CALL (
  GDF_REQUIRE (n_gpus <? to_size_t (to_int (dev_count + 1))) GDF_INVALID_API_CALL (
  check_devices (default [] src_col_ptrs) (default [] dest_col_ptrs)
    (seqZ 0 n_gpus))))))))).

(** [gdf_snmg_pagerank]: the status, the output column and the machine
    it leaves. *)
Definition gdf_snmg_pagerank (src_col_ptrs dest_col_ptrs : option (list gdf_column))
  (pr_col_ : option gdf_column) (n_gpus : Z) (damping_factor : spec_float)
  (n_iter : Z) (m : machine) : result (gdf_error * option gdf_column * machine) :=
  v ← validate src_col_ptrs dest_col_ptrs pr_col_ n_gpus damping_factor n_iter;
  match v with
  | Some e => Ret (e, pr_col_, m)
  | None =>
      match src_col_ptrs, dest_col_ptrs, pr_col_ with
      | Some srcs, Some dests, Some col =>
          '(status, col, m) ← gdf_snmg_pagerank_impl Float32 Int32 srcs dests col
                                n_gpus damping_factor n_iter m;
          Ret (status, Some col, m)
      | _, _, _ => Fault
      end
  end.
End Entry.

(** ** An environment with one device

    The collaborators for a run on a single device, used to execute the
    model on concrete graphs. *)
Module OneDevice.

(** Modelled from the spec: the coo2csr conversion, "consumed as a
    precomputed (offsets, indices, partition_boundaries) triple"; rows
    are the first column given, columns the second. *)
Definition coo2csr (i : Z) (h : gmap ptr (list cell)) (rows cols : gdf_column)
  : coo2csr_result :=
  match load_ints h (size rows) (data rows), load_ints h (size cols) (data cols) with
  | Some rs, Some cs =>
      let n := foldr Z.max (-1) (rs ++ cs) + 1 in
      {| csr_status := GDF_SUCCESS;
         csr_part_offset := [0; n];
         csr_off := Some ((λ r, Z.of_nat (length (filter (λ x, x < r) rs))) <$> seqZ 0 (n + 1));
         csr_ind := Some (mjoin ((λ r, snd <$> filter (λ rc, rc.1 = r) (zip rs cs)) <$> seqZ 0 n)) |}
  | _, _ =>
      {| csr_status := GDF_C_ERROR; csr_part_offset := [0; 0];
         csr_off := None; csr_ind := None |}
  end.

(** Modelled from the spec: "Degree of vertex v = count of edges whose
    destination is v", the destination of an edge being its column index
    in the transposed CSR. *)
Definition degree_of (i : Z) (part_off : list Z) (offs inds : list cell)
  : option (list Z) :=
  cs ← mapM cell_int inds;
  Some ((λ v, Z.of_nat (length (filter (λ c, c = v) cs))) <$> seqZ 0 (default 0 (last part_off))).

(** Modelled from the spec: "for each local row, sum over its nonzero
    columns of transitionValue * sourceVector[globalColumnIndex]". *)
Definition csrmv (T : value_type) (i : Z) (part_off : list Z) (offs inds : list cell)
  (vals xs : list spec_float) : list spec_float :=
  let at_ (l : list cell) (k : Z) := default 0 (l !! Z.to_nat k ≫= cell_int) in
  (λ r, vsum T ((λ k, vmul T (default S754_nan (vals !! Z.to_nat k))
                        (default S754_nan (xs !! Z.to_nat (at_ inds k))))
                <$> seqZ (at_ offs r) (at_ offs (r + 1) - at_ offs r)))
  <$> seqZ 0 (Z.of_nat (length xs)).

#[export] Instance collaborators : Collaborators := {|
  CUDA_MAX_BLOCKS := 65535;
  snmg_degree := degree_of;
  SNMGcsrmv_run := csrmv;
  gdf_snmg_coo2csr := coo2csr;
  gdf_col_set_defaults := λ _, {| data := nullptr; size := 0; dtype := GDF_invalid; null_count := 0 |};
  num_sm := λ _, 80;
  dev_count := 1
|}.

(** The directed cycle 0→1→2→3→0 as an edge list on the device. *)
Definition cycle_src : ptr := 1%N.
Definition cycle_dst : ptr := 2%N.

Definition cycle_machine : machine :=
  {| mem := {[ cycle_src := Idx <$> [0; 1; 2; 3]; cycle_dst := Idx <$> [1; 2; 3; 0] ]};
     degree := []; pagerank := [] |}.

Definition int32_column (p : ptr) (n : Z) : gdf_column :=
  {| data := p; size := n; dtype := GDF_INT32; null_count := 0 |}.

Definition empty_column : gdf_column :=
  {| data := nullptr; size := 0; dtype := GDF_invalid; null_count := 0 |}.

(** [0.85f] *)
Definition damping_0_85 : spec_float := convert Float32 (vdiv Float64 (of_Z Float64 85) (of_Z Float64 100)).

End OneDevice.

(** ** Environments in which a collective step fails *)
Module Failing.
Import OneDevice.

(** The conversion reports [GDF_CUDA_ERROR] on device 0 after it has
    filled its two CSR columns. *)
Definition late_coo2csr (i : Z) (h : gmap ptr (list cell)) (rows cols : gdf_column)
  : coo2csr_result :=
  let r := coo2csr i h rows cols in
  {| csr_status := GDF_CUDA_ERROR; csr_part_offset := csr_part_offset r;
     csr_off := csr_off r; csr_ind := csr_ind r |}.

Definition late_failure : Collaborators := {|
  CUDA_MAX_BLOCKS := 65535;
  snmg_degree := degree_of;
  SNMGcsrmv_run := csrmv;
  gdf_snmg_coo2csr := late_coo2csr;
  gdf_col_set_defaults := gdf_col_set_defaults;
  num_sm := num_sm;
  dev_count := 1
|}.

(** The conversion reports [GDF_C_ERROR] on device 0 before it has set
    its output columns. *)
Definition early_coo2csr (i : Z) (h : gmap ptr (list cell)) (rows cols : gdf_column)
  : coo2csr_result :=
  {| csr_status := GDF_C_ERROR; csr_part_offset := [0; 4];
     csr_off := None; csr_ind := None |}.

Definition early_failure : Collaborators := {|
  CUDA_MAX_BLOCKS := 65535;
  snmg_degree := degree_of;
  SNMGcsrmv_run := csrmv;
  gdf_snmg_coo2csr := early_coo2csr;
  gdf_col_set_defaults := gdf_col_set_defaults;
  num_sm := num_sm;
  dev_count := 1
|}.

(** [snmg_degree] returns a non-zero code. *)
Definition degree_failure : Collaborators := {|
  CUDA_MAX_BLOCKS := 65535;
  snmg_degree := λ _ _ _ _, None;
  SNMGcsrmv_run := csrmv;
  gdf_snmg_coo2csr := coo2csr;
  gdf_col_set_defaults := gdf_col_set_defaults;
  num_sm := num_sm;
  dev_count := 1
|}.

(** The entry point on the cycle, one device, damping 0.85 and one
    iteration. *)
Definition run (C : Collaborators)
  : result (gdf_error * option gdf_column * machine) :=
  gdf_snmg_pagerank (Some [int32_column cycle_src 4])
    (Some [int32_column cycle_dst 4]) (Some empty_column) 1 damping_0_85 1
    cycle_machine.

(** 0.25 in single precision. *)
Definition quarter : spec_float := S754_finite false 8388608 (-25).
End Failing.

(** ** The constructed solver of the running example *)
Module Example.
Import OneDevice.

(** The transposed CSR of the cycle on the device, with one slot in each
    host array. *)
Definition csr_off_ptr : ptr := 1%N.
Definition csr_ind_ptr : ptr := 2%N.
Definition pr_ptr : ptr := 3%N.

Definition csr_machine : machine :=
  {| mem := {[ csr_off_ptr := Idx <$> [0; 1; 2; 3; 4];
               csr_ind_ptr := Idx <$> [3; 0; 1; 2];
               pr_ptr := replicate 4 Undef ]};
     degree := [nullptr]; pagerank := [pr_ptr] |}.

Definition env0 : SNMGinfo :=
  {| get_thread_num := 0; get_num_threads := 1; get_num_sm := 80 |}.

Definition blank : SNMGpagerank :=
  {| env := env0; part_off := []; off := nullptr; ind := nullptr; id := 0;
     nt := 0; v_glob := 0; v_loc := 0; e_loc := 0; stream := nullptr;
     is_setup := false; alpha := None; bookmark := nullptr; val := nullptr |}.

(** The value a call returned, [d] if it did not return. *)
Definition returned {St A} (d : A) (o : outcome St A) : A :=
  match o with Ret a => a | _ => d end.

(** The solver after its constructor, after [setup] with damping 0.85 in
    single precision, and after two rounds of [solve]. *)
Definition constructed : SNMGpagerank * machine :=
  Eval vm_compute in
    returned (blank, csr_machine)
      (new_SNMGpagerank env0 [0; 4] csr_off_ptr csr_ind_ptr csr_machine).

Definition ready : SNMGpagerank * machine :=
  Eval vm_compute in
    returned (blank, csr_machine)
      (setup Float32 Int32 damping_0_85 constructed.1 constructed.2).

Definition solved : SNMGpagerank * machine :=
  Eval vm_compute in
    returned (blank, csr_machine) (solve Float32 2 ready.1 ready.2).

(** The constructed solver with a degree vector on the device. *)
Definition csr_deg_ptr : ptr := 6%N.

Definition transition_input : machine :=
  Eval vm_compute in
    set_mem (<[csr_deg_ptr := Idx <$> [1; 1; 1; 1]]> (mem constructed.2))
      constructed.2.

(** What the entry point returns on the cycle, and what the driver
    returns when it is instantiated for [double]. *)
Definition published : gdf_error * option gdf_column * machine :=
  Eval vm_compute in
    returned (GDF_C_ERROR, None, cycle_machine) (Failing.run collaborators).

Definition published_double : gdf_error * gdf_column * machine :=
  Eval vm_compute in
    returned (GDF_C_ERROR, empty_column, cycle_machine)
      (gdf_snmg_pagerank_impl Float64 Int32 [int32_column cycle_src 4]
         [int32_column cycle_dst 4] empty_column 1 damping_0_85 1 cycle_machine).
End Example.

(** ** Statements compared with the code *)

(** The reading of "calling solve() before setup() ... leaves no
    allocated transition/bookmark buffers": a solver that was only
    constructed fails in [solve] and owns no block. *)
Definition solve_before_setup_leaves_no_buffers `{Collaborators} : Prop :=
  ∀ (T : value_type) env_ part_off_ off_ ind_ m this m' max_iter,
    new_SNMGpagerank env_ part_off_ off_ ind_ m = Ret (this, m') →
    solve T max_iter this m' = Throw "Solve was called before setup" (this, m') ∧
    mem m' !! bookmark this = None ∧
    mem m' !! val this = None.

(** [m'] differs from [m] at most in the block at [p]. *)
Definition only_writes (p : ptr) (m m' : machine) : Prop :=
  (∀ q, q ≠ p → mem m' !! q = mem m !! q) ∧
  degree m' = degree m ∧ pagerank m' = pagerank m.

(** Position [j] of the block [val] holds in [h'] the reciprocal of the
    degree, read in [h], of the column index of edge [j]. *)
Definition written (T : value_type) (ind degree val : ptr)
  (h h' : gmap ptr (list cell)) (j : Z) : Prop :=
  ∃ c d, load_int h ind j = Some c ∧ load_int h degree c = Some d ∧
         load h' val j = Some (Val (transition_value T d)).

(** [h'] comes from [h] by writes of such reciprocals to [val] only. *)
Definition kernel_writes (T : value_type) (ind degree val : ptr)
  (h h' : gmap ptr (list cell)) : Prop :=
  (∀ q, q ≠ val → h' !! q = h !! q) ∧
  (∀ vs, h !! val = Some vs → ∃ vs', h' !! val = Some vs' ∧ length vs' = length vs) ∧
  (∀ j, load h' val j = load h val j ∨ written T ind degree val h h' j).

(** The preconditions of the entry point in the words of the spec. *)
Definition in_open_unit_interval (damping_factor : spec_float) : Prop :=
  SFltb lit_0_0 (convert Float64 damping_factor) = true ∧
  SFltb (convert Float64 damping_factor) lit_1_0 = true.

Definition bad_arguments `{Collaborators} (n_gpus : Z)
  (damping_factor : spec_float) (n_iter : Z) : Prop :=
  ¬ in_open_unit_interval damping_factor ∨ ¬ 0 < n_iter ∨
  ¬ 0 < n_gpus ≤ dev_count.

Definition length_mismatch (src dest : gdf_column) : Prop :=
  size src ≠ size dest.

Definition type_unsupported (src dest : gdf_column) : Prop :=
  dtype src ≠ dtype dest ∨ dtype src ≠ GDF_INT32 ∨ dtype dest ≠ GDF_INT32.

Definition has_nulls (src dest : gdf_column) : Prop :=
  null_count src ≠ 0 ∨ null_count dest ≠ 0.

(** Some device below [n_gpus] has a pair of columns in [P]. *)
Definition on_some_device (srcs dests : list gdf_column) (n_gpus : Z)
  (P : gdf_column → gdf_column → Prop) : Prop :=
  ∃ i src dest, 0 ≤ i < n_gpus ∧ index srcs i = Some src ∧
                index dests i = Some dest ∧ P src dest.

(** The precondition that a validation status reports. *)
Definition reported (e : gdf_error) (src dest : gdf_column) : Prop :=
  match e with
  | GDF_COLUMN_SIZE_MISMATCH => length_mismatch src dest
  | GDF_UNSUPPORTED_DTYPE => type_unsupported src dest
  | GDF_VALIDITY_UNSUPPORTED => has_nulls src dest
  | _ => False
  end.

(** The scalar checks of lines 285-293 as one boolean. *)
Definition scalar_checks `{Collaborators} (n_gpus : Z)
  (damping_factor : spec_float) (n_iter : Z) : bool :=
  SFltb lit_0_0 (convert Float64 damping_factor) &&
  SFltb (convert Float64 damping_factor) lit_1_0 &&
  (0 <? n_iter) && (0 <? n_gpus) &&
  (n_gpus <? to_size_t (to_int (dev_count + 1))).

(** [h'] has every block of [h], and the blocks outside [ps] unchanged. *)
Definition modifies (ps : list ptr) (h h' : gmap ptr (list cell)) : Prop :=
  (∀ q, q ∉ ps → h' !! q = h !! q) ∧
  (∀ q, is_Some (h !! q) → is_Some (h' !! q)).

(** The blocks the transition kernel needs: every edge position below
    [e] has a column index with an entry in the degree block, and the
    block of transition values has room for [e] values. *)
Definition kernel_ready (e : Z) (ind degree val : ptr)
  (h : gmap ptr (list cell)) : Prop :=
  (∀ j, 0 ≤ j < e →
        ∃ c d, load_int h ind j = Some c ∧ load_int h degree c = Some d) ∧
  ∃ vs, h !! val = Some vs ∧ e ≤ Z.of_nat (length vs).

(** [h'] has the blocks of [h], all unchanged but the first [e] cells
    of the block at [val]. *)
Definition writes_below (e : Z) (val : ptr) (h h' : gmap ptr (list cell)) : Prop :=
  (∀ q, q ≠ val → h' !! q = h !! q) ∧
  dom h' = dom h ∧
  ∀ vs, h !! val = Some vs →
        ∃ vs', h' !! val = Some vs' ∧ length vs' = length vs ∧
               drop (Z.to_nat e) vs' = drop (Z.to_nat e) vs.

(** The conversion of worker [i] on a heap that holds the blocks of
    [m] unchanged returned the code [e]. *)
Definition conversion_returned `{Collaborators} (srcs dests : list gdf_column)
  (m : machine) (i : Z) (e : gdf_error) : Prop :=
  ∃ h dest src,
    index dests i = Some dest ∧ index srcs i = Some src ∧
    (∀ x, is_Some (mem m !! x) → h !! x = mem m !! x) ∧
    csr_status (gdf_snmg_coo2csr i h dest src) = e.

(** ** Further runs of the example *)
Module Cases.
Import OneDevice.

(** The heap after the transition kernel on the cycle, launched with two
    blocks of two threads. *)
Definition kernel_output : gmap ptr (list cell) :=
  Eval vm_compute in
    default ∅
      (transition_kernel Float32 2 2 4 Example.csr_ind_ptr Example.csr_deg_ptr
         (val Example.constructed.1) (mem Example.transition_input)).

(** The solver after a call of [solve] with no round. *)
Definition unsolved : SNMGpagerank * machine :=
  Eval vm_compute in
    Example.returned (Example.blank, Example.csr_machine)
      (solve Float32 0 Example.ready.1 Example.ready.2).

(** The pagerank vector overwritten with zeros. *)
Definition zeros : list cell := Val <$> replicate 4 lit_0_0.

(** A machine with two devices, and two pairs of columns of which the
    second has different sizes, different types and null markers. *)
Definition two_devices : Collaborators := {|
  CUDA_MAX_BLOCKS := 65535;
  snmg_degree := degree_of;
  SNMGcsrmv_run := csrmv;
  gdf_snmg_coo2csr := coo2csr;
  gdf_col_set_defaults := gdf_col_set_defaults;
  num_sm := num_sm;
  dev_count := 2
|}.

Definition bad_src : gdf_column :=
  {| data := cycle_src; size := 4; dtype := GDF_FLOAT32; null_count := 1 |}.

Definition bad_dest : gdf_column :=
  {| data := cycle_dst; size := 3; dtype := GDF_INT32; null_count := 0 |}.
End Cases.

(** [m'] has the blocks of [m], each of the length it had. *)
Definition same_lengths (m m' : machine) : Prop :=
  ∀ q, length <$> (mem m' !! q) = length <$> (mem m !! q).

(** The pagerank vector of worker 0 (the master): [scores] is the
    contents in which [solve], run for [n_iter] rounds, leaves the block
    [pagerank[0]], a new block of [total] cells, for the solver that was
    constructed on the CSR columns of the conversion of worker 0 and set
    up with the damping factor; [total] is the last partition offset
    and the solver's [v_glob]. *)
Definition master_vector `{Collaborators} (VT : value_type) (IT : index_type)
  (srcs dests : list gdf_column) (n_gpus : Z) (damping_factor : spec_float)
  (n_iter : Z) (m : machine) (total : Z) (scores : list spec_float) : Prop :=
  ∃ dest src offs inds off_ ind_ m2 s1 m3 this m4 q m5 m6,
    index dests 0 = Some dest ∧ index srcs 0 = Some src ∧
    csr_off (gdf_snmg_coo2csr 0 (mem m) dest src) = Some offs ∧
    csr_ind (gdf_snmg_coo2csr 0 (mem m) dest src) = Some inds ∧
    index (csr_part_offset (gdf_snmg_coo2csr 0 (mem m) dest src)) n_gpus
    = Some total ∧
    (∀ x, is_Some (mem m !! x) → mem m2 !! x = mem m !! x) ∧
    mem m2 !! off_ = Some (Idx <$> offs) ∧
    mem m2 !! ind_ = Some (Idx <$> inds) ∧
    new_SNMGpagerank
      {| get_thread_num := 0; get_num_threads := n_gpus; get_num_sm := num_sm 0 |}
      (csr_part_offset (gdf_snmg_coo2csr 0 (mem m) dest src)) off_ ind_ m2
    = Ret (s1, m3) ∧
    setup VT IT (convert VT damping_factor) s1 m3 = Ret (this, m4) ∧
    v_glob this = total ∧
    mem m4 !! q = None ∧
    mem m5 = <[q := replicate (Z.to_nat total) Undef]> (mem m4) ∧
    index (pagerank m5) (id this) = Some q ∧
    solve VT n_iter this m5 = Ret (this, m6) ∧
    mem m6 !! q = Some (Val <$> scores) ∧
    length scores = Z.to_nat total.

(** The reading of "mismatched source/destination column lengths on
    any device yield ColumnSizeMismatch; mismatched or
    non-32-bit-integer element types yield UnsupportedDataType; columns
    carrying null markers yield NullValuesUnsupported": whenever the
    scalar arguments are good, a violation of a kind on some device
    gives the status of that kind. *)
Definition every_violation_yields_its_status `{Collaborators} : Prop :=
  ∀ (srcs dests : list gdf_column) (col : gdf_column) (n_gpus : Z)
    (damping_factor : spec_float) (n_iter : Z) (m : machine),
    ¬ bad_arguments n_gpus damping_factor n_iter →
    let run := gdf_snmg_pagerank (Some srcs) (Some dests) (Some col) n_gpus
                 damping_factor n_iter m in
    (on_some_device srcs dests n_gpus length_mismatch →
     run = Ret (GDF_COLUMN_SIZE_MISMATCH, Some col, m)) ∧
    (on_some_device srcs dests n_gpus type_unsupported →
     run = Ret (GDF_UNSUPPORTED_DTYPE, Some col, m)) ∧
    (on_some_device srcs dests n_gpus has_nulls →
     run = Ret (GDF_VALIDITY_UNSUPPORTED, Some col, m)).

(** The columns of device [j] pass every check. *)
Definition clean_device (srcs dests : list gdf_column) (j : Z) : Prop :=
  ∃ s d, index srcs j = Some s ∧ index dests j = Some d ∧
         ¬ length_mismatch s d ∧ ¬ type_unsupported s d ∧ ¬ has_nulls s d.

(** Two devices: null markers on device 0, different lengths on device 1. *)
Module Precedence.
Import OneDevice.

Definition nulls_src : gdf_column :=
  {| data := cycle_src; size := 4; dtype := GDF_INT32; null_count := 1 |}.

Definition short_dest : gdf_column :=
  {| data := cycle_dst; size := 3; dtype := GDF_INT32; null_count := 0 |}.

Definition srcs : list gdf_column := [nulls_src; int32_column cycle_src 4].
Definition dests : list gdf_column := [int32_column cycle_dst 4; short_dest].
End Precedence.

(** The state in which the driver, run on the cycle with a degree
    collective that fails, raises its exception. *)
Module DegreeFailure.
Import OneDevice.

Definition thrown : SNMGpagerank * machine :=
  Eval vm_compute in
    match gdf_snmg_pagerank_impl (C := Failing.degree_failure) Float32 Int32
            [int32_column cycle_src 4] [int32_column cycle_dst 4] empty_column
            1 damping_0_85 1 cycle_machine with
    | Throw _ st => st
    | _ => (Example.blank, cycle_machine)
    end.
End DegreeFailure.

(** * Properties *)

(** ** The outcome monad *)

Lemma bind_Ret {St A B} (o : outcome St A) (k : A → outcome St B) (b : B) :
  o ≫= k = Ret b ↔ ∃ a, o = Ret a ∧ k a = Ret b.
Proof.
  destruct o; simpl; split; try (intros (? & ? & ?)); try discriminate; eauto.
  congruence.
Qed.

Lemma lift_Ret {St A} (o : option A) (a : A) :
  @lift St A o = Ret a ↔ o = Some a.
Proof. destruct o; simpl; split; congruence. Qed.

Lemma on_mem_Ret {St} f (m m' : machine) :
  @on_mem St f m = Ret m' ↔ ∃ h, f (mem m) = Some h ∧ m' = set_mem h m.
Proof.
  unfold on_mem. rewrite bind_Ret. split.
  - intros (h & Hh%lift_Ret & [= <-]). eauto.
  - intros (h & Hh & ->). exists h. by rewrite lift_Ret.
Qed.

(** Decompose a hypothesis that says a sequence of steps returned. *)
Ltac inv_ret :=
  repeat match goal with
  | H : _ ≫= _ = Ret _ |- _ => apply bind_Ret in H; destruct H as (? & ? & H)
  | H : mbind _ _ = Ret _ |- _ => apply bind_Ret in H; destruct H as (? & ? & H)
  | H : lift _ = Ret _ |- _ => apply lift_Ret in H
  | H : on_mem _ _ = Ret _ |- _ => apply on_mem_Ret in H; destruct H as (? & H & ->)
  | H : Ret _ = Ret _ |- _ => injection H as H; subst
  | H : (let '(_, _) := ?x in _) = Ret _ |- _ => destruct x eqn:?
  end.

(** ** The loop of [solve] *)

Section SolveLoop.
Context {C : Collaborators}.
Variable T : value_type.

(** Running the body once more after [n] rounds is running it first and
    then [n] rounds. *)
Lemma iter_body_shift (this : SNMGpagerank) (pr : ptr) (n : nat)
  (o : result (spec_float * machine)) :
  Nat.iter n (λ acc, acc ≫= solve_body T this pr) (o ≫= solve_body T this pr)
  = Nat.iter n (λ acc, acc ≫= solve_body T this pr) o ≫= solve_body T this pr.
Proof. induction n as [|n IH]; simpl; [done | by rewrite IH]. Qed.

Lemma iter_body_Throw (this : SNMGpagerank) (pr : ptr) (n : nat) msg s :
  Nat.iter n (λ acc, acc ≫= solve_body T this pr) (Throw msg s) = Throw msg s.
Proof. induction n as [|n IH]; simpl; [done | by rewrite IH]. Qed.

Lemma iter_body_Fault (this : SNMGpagerank) (pr : ptr) (n : nat) :
  Nat.iter n (λ acc, acc ≫= solve_body T this pr) Fault = Fault.
Proof. induction n as [|n IH]; simpl; [done | by rewrite IH]. Qed.

(** From counter [i] the loop runs its body [max_iter - i] times, and
    not at all when [max_iter <= i]. *)
Lemma solve_loop_iter (this : SNMGpagerank) (pr : ptr) (max_iter : Z) (n : nat) :
  ∀ (i : Z) (st : spec_float * machine),
    n = Z.to_nat (max_iter - i) →
    solve_loop T this pr max_iter i st
    = Nat.iter n (λ acc, acc ≫= solve_body T this pr) (Ret st).
Proof.
  induction n as [|n IH]; intros i st Hn; simp solve_loop.
  - destruct (Z_lt_dec i max_iter); [lia | done].
  - destruct (Z_lt_dec i max_iter) as [Hlt|]; [|lia]. simpl.
    rewrite <- Nat.iter_succ, Nat.iter_succ_r. simpl.
    destruct (solve_body T this pr st) as [st'| |] eqn:Hbody; simpl.
    + rewrite (IH (i + 1) st') by lia. done.
    + by rewrite iter_body_Throw.
    + by rewrite iter_body_Fault.
Qed.
End SolveLoop.

(** ** Allocation *)

Lemma ALLOC_TRY_spec (n : Z) (m m' : machine) (p : ptr) :
  ALLOC_TRY n m = (p, m') →
  p ≠ nullptr ∧ mem m !! p = None ∧
  mem m' = <[p := replicate (Z.to_nat n) Undef]> (mem m) ∧
  degree m' = degree m ∧ pagerank m' = pagerank m.
Proof.
  unfold ALLOC_TRY. intros [= <- <-].
  pose proof (is_fresh ({[nullptr]} ∪ dom (mem m))) as Hfresh.
  split_and!; try done.
  - intros Heq. apply Hfresh. rewrite Heq. set_solver.
  - apply not_elem_of_dom. set_solver.
Qed.

(** ** Claims on the state machine of the solver *)

Section StateMachine.
Context {C : Collaborators}.

(** C1. On a set-up solver, [solve] first fills the vector with
    [1/v_glob] and takes [dot_res = dot(bookmark, pr)]; then it runs the
    loop body (SpMV in place, scale by [alpha], add
    [dot_res * (1/v_glob)] to every entry, recompute [dot_res], rescale
    by the reciprocal of the L2 norm) exactly [max_iter] times, whatever
    the values computed, not at all for [max_iter <= 0]; after the loop
    it rescales the vector once by the reciprocal of its L1 norm. *)
Theorem solve_runs_max_iter_rounds (T : value_type) (max_iter : Z)
  (this : SNMGpagerank) (m : machine) (pr : ptr) :
  is_setup this = true →
  index (pagerank m) (id this) = Some pr →
  let one := convert T lit_1_0 in
  let n := v_glob this in
  solve T max_iter this m
  = (st0 ← solve_init T this pr m;
     st ← Nat.iter (Z.to_nat max_iter) (λ acc, acc ≫= solve_body T this pr) (Ret st0);
     m' ← solve_final T this pr st;
     Ret (this, m')) ∧
  solve_init T this pr m
  = (m1 ← on_mem (fill n pr (vdiv T one (of_Z T n))) m;
     dot_res ← lift (dot T n (bookmark this) pr (mem m1));
     Ret (dot_res, m1)) ∧
  (∀ dot_res m0,
     solve_body T this pr (dot_res, m0)
     = (m1 ← spmv_run T this pr m0;
        a ← lift (alpha this);
        m2 ← on_mem (scal T n a pr) m1;
        m3 ← on_mem (addv T n (vmul T dot_res (vdiv T one (of_Z T n))) pr) m2;
        dot_res' ← lift (dot T n (bookmark this) pr (mem m3));
        nrm ← lift (nrm2 T n pr (mem m3));
        m4 ← on_mem (scal T n (vdiv T one nrm) pr) m3;
        Ret (dot_res', m4))) ∧
  (∀ dot_res m0,
     solve_final T this pr (dot_res, m0)
     = (nrm ← lift (nrm1 T n pr (mem m0));
        on_mem (scal T n (vdiv T one nrm) pr) m0)).
Proof.
  intros Hsetup Hpr one n. split_and!; try done.
  unfold solve. rewrite Hsetup, Hpr. simpl.
  destruct (solve_init T this pr m) as [st0| |]; simpl; try done.
  rewrite (solve_loop_iter T this pr max_iter (Z.to_nat max_iter) 0 st0)
    by (f_equal; lia).
  done.
Qed.

(** C5. Once [setup] has succeeded, every later call of [setup] throws
    "Setup can be called only once" and leaves the solver (its [alpha]
    and [is_setup], the addresses of its blocks) and the machine (the
    transition values, the bookmark) as they are. *)
Theorem setup_only_once (T T' : value_type) (IT IT' : index_type)
  (a a' : spec_float) (this this1 : SNMGpagerank) (m m1 : machine) :
  setup T IT a this m = Ret (this1, m1) →
  is_setup this1 = true ∧
  ∀ m', setup T' IT' a' this1 m' = Throw "Setup can be called only once" (this1, m').
Proof.
  unfold setup at 1. destruct (is_setup this) eqn:Hs; cbn [negb]; [done|].
  cbv zeta. destruct (ALLOC_TRY _ _) as [degree_loc m0]. intros H.
  inv_ret.
  destruct (snmg_degree _ _ _ _); [|done].
  inv_ret. split; [done|]. intros m'. unfold setup. done.
Qed.

(** C4, as amended. A solver on which [setup] has not succeeded makes
    [solve] throw "Solve was called before setup" and leaves the solver
    and the machine, hence the pagerank slot, as they are; the solver that
    the constructor returns is in that state, and it owns a bookmark
    block of [v_glob] cells and a transition-value block of [e_loc]
    cells, allocated by the constructor and not yet written. *)
Theorem solve_before_setup (env_ : SNMGinfo) (part_off_ : list Z)
  (off_ ind_ : ptr) (m m' : machine) (this : SNMGpagerank) :
  new_SNMGpagerank env_ part_off_ off_ ind_ m = Ret (this, m') →
  (∀ (T : value_type) (max_iter : Z) (s : SNMGpagerank) (m0 : machine),
     is_setup s = false →
     solve T max_iter s m0 = Throw "Solve was called before setup" (s, m0)) ∧
  is_setup this = false ∧
  mem m' !! bookmark this = Some (replicate (Z.to_nat (v_glob this)) Undef) ∧
  mem m' !! val this = Some (replicate (Z.to_nat (e_loc this)) Undef).
Proof.
  intros H. split.
  { intros T max_iter s m0 Hs. unfold solve. by rewrite Hs. }
  unfold new_SNMGpagerank in H. inv_ret. simpl.
  repeat match goal with
  | Ha : ALLOC_TRY _ _ = _ |- _ => apply ALLOC_TRY_spec in Ha as (_ & ? & ? & _)
  end.
  match goal with
  | Hb : mem ?m1 = <[?b := _]> (mem m), Hv : mem ?m2 = <[?v := _]> (mem ?m1),
    Hfresh : mem ?m1 !! ?v = None |- _ =>
      rewrite Hv; split_and!; [done| |by rewrite lookup_insert_eq];
      rewrite lookup_insert_ne;
      [ rewrite Hb; by rewrite lookup_insert_eq
      | intros <-; rewrite Hb, lookup_insert_eq in Hfresh; done ]
  end.
Qed.
End StateMachine.

(** ** What [solve] writes *)

Lemma store_cells_other p cs (h h' : gmap ptr (list cell)) q :
  store_cells p cs h = Some h' → q ≠ p → h' !! q = h !! q.
Proof.
  unfold store_cells. intros H Hq.
  destruct (h !! p) as [buf|]; simplify_option_eq.
  by rewrite lookup_insert_ne.
Qed.

Lemma store_cells_lookup p cs (h h' : gmap ptr (list cell)) :
  store_cells p cs h = Some h' →
  ∃ buf, h !! p = Some buf ∧ (length cs ≤ length buf)%nat ∧
         h' = <[p := cs ++ drop (length cs) buf]> h.
Proof.
  unfold store_cells. intros H.
  destruct (h !! p) as [buf|]; simplify_option_eq. eauto.
Qed.

Lemma only_writes_refl p m : only_writes p m m.
Proof. by split. Qed.

Lemma only_writes_trans p m1 m2 m3 :
  only_writes p m1 m2 → only_writes p m2 m3 → only_writes p m1 m3.
Proof.
  intros (H1 & ? & ?) (H2 & ? & ?). split_and!; [|congruence..].
  intros q Hq. by rewrite H2, H1.
Qed.

Lemma only_writes_set_mem p m h :
  (∀ q, q ≠ p → h !! q = mem m !! q) → only_writes p m (set_mem h m).
Proof. by split. Qed.

Section Frame.
Context {C : Collaborators}.
Variable T : value_type.

Lemma fill_only_writes n p x m m' :
  on_mem (St := SNMGpagerank * machine) (fill n p x) m = Ret m' →
  only_writes p m m'.
Proof.
  intros H. inv_ret. apply only_writes_set_mem. intros q Hq.
  by eapply store_cells_other.
Qed.

Lemma scal_only_writes n a p m m' :
  on_mem (St := SNMGpagerank * machine) (scal T n a p) m = Ret m' →
  only_writes p m m'.
Proof.
  intros H. inv_ret. apply only_writes_set_mem. intros q Hq.
  unfold scal in *. simplify_option_eq. by eapply store_cells_other.
Qed.

Lemma addv_only_writes n a p m m' :
  on_mem (St := SNMGpagerank * machine) (addv T n a p) m = Ret m' →
  only_writes p m m'.
Proof.
  intros H. inv_ret. apply only_writes_set_mem. intros q Hq.
  unfold addv in *. simplify_option_eq. by eapply store_cells_other.
Qed.

Lemma spmv_run_only_writes this pr m m' :
  spmv_run T this pr m = Ret m' → only_writes pr m m'.
Proof.
  unfold spmv_run. intros H. inv_ret. apply only_writes_set_mem.
  intros q Hq. by eapply store_cells_other.
Qed.

Lemma solve_init_only_writes this pr m st :
  solve_init T this pr m = Ret st → only_writes pr m st.2.
Proof.
  unfold solve_init. intros H.
  apply bind_Ret in H as (m1 & H1%fill_only_writes & H). inv_ret. done.
Qed.

Lemma solve_body_only_writes this pr st st' :
  solve_body T this pr st = Ret st' → only_writes pr st.2 st'.2.
Proof.
  unfold solve_body. destruct st as [dot_res m]. intros H.
  apply bind_Ret in H as (m1 & H1%spmv_run_only_writes & H).
  apply bind_Ret in H as (a & _ & H).
  apply bind_Ret in H as (m2 & H2%scal_only_writes & H).
  apply bind_Ret in H as (m3 & H3%addv_only_writes & H).
  apply bind_Ret in H as (d & _ & H).
  apply bind_Ret in H as (nrm & _ & H).
  apply bind_Ret in H as (m4 & H4%scal_only_writes & H).
  injection H as <-. simpl.
  eauto using only_writes_trans.
Qed.

Lemma solve_final_only_writes this pr st m' :
  solve_final T this pr st = Ret m' → only_writes pr st.2 m'.
Proof.
  unfold solve_final. intros H.
  apply bind_Ret in H as (nrm & _ & H%scal_only_writes). done.
Qed.

Lemma iter_body_only_writes this pr n st st' :
  Nat.iter n (λ acc, acc ≫= solve_body T this pr) (Ret st) = Ret st' →
  only_writes pr st.2 st'.2.
Proof.
  revert st'. induction n as [|n IH]; simpl; intros st' H.
  - injection H as <-. apply only_writes_refl.
  - apply bind_Ret in H as (st1 & H1 & H2%solve_body_only_writes).
    eauto using only_writes_trans.
Qed.

(** C8. A call of [solve] that returns on a set-up solver, with a
    pagerank vector that is neither of the solver's blocks, leaves the
    solver as it is ([alpha] and [is_setup] included, so [solve] can be
    called again), and leaves every block but the pagerank vector as it
    is, the transition values and the bookmark among them. *)
Theorem solve_only_writes_pagerank (max_iter : Z) (this this' : SNMGpagerank)
  (m m' : machine) (pr : ptr) :
  is_setup this = true →
  index (pagerank m) (id this) = Some pr →
  pr ≠ bookmark this →
  pr ≠ val this →
  solve T max_iter this m = Ret (this', m') →
  this' = this ∧ is_setup this' = true ∧ alpha this' = alpha this ∧
  mem m' !! val this = mem m !! val this ∧
  mem m' !! bookmark this = mem m !! bookmark this ∧
  only_writes pr m m'.
Proof.
  intros Hsetup Hpr Hb Hv H.
  unfold solve in H. rewrite Hsetup, Hpr in H. simpl in H.
  apply bind_Ret in H as (st0 & H0%solve_init_only_writes & H).
  apply bind_Ret in H as (st1 & H1 & H).
  apply bind_Ret in H as (m1 & H2%solve_final_only_writes & H).
  injection H as <- <-.
  rewrite (solve_loop_iter T this pr max_iter _ 0 st0 eq_refl) in H1.
  apply iter_body_only_writes in H1.
  assert (only_writes pr m m1) as Hw by eauto using only_writes_trans.
  split_and!; try done.
  - by apply Hw.
  - by apply Hw.
Qed.
End Frame.

(** ** The transition kernel *)

Lemma load_other (h h' : gmap ptr (list cell)) p i :
  h' !! p = h !! p → load h' p i = load h p i.
Proof. unfold load. by intros ->. Qed.

Lemma load_int_other (h h' : gmap ptr (list cell)) p i :
  h' !! p = h !! p → load_int h' p i = load_int h p i.
Proof. unfold load_int. by intros ->%(load_other _ _ _ i). Qed.

Lemma store_cell_spec p i c (h h' : gmap ptr (list cell)) :
  store_cell p i c h = Some h' →
  ∃ buf, h !! p = Some buf ∧ 0 ≤ i < Z.of_nat (length buf) ∧
         h' = <[p := <[Z.to_nat i := c]> buf]> h.
Proof.
  unfold store_cell. intros H.
  destruct (h !! p) as [buf|]; simplify_option_eq. eauto.
Qed.

Lemma load_store_cell p i c (h h' : gmap ptr (list cell)) j :
  store_cell p i c h = Some h' →
  load h' p j = if decide (j = i) then Some c else load h p j.
Proof.
  intros (buf & Hbuf & Hi & ->)%store_cell_spec. unfold load.
  rewrite lookup_insert_eq, Hbuf. simpl.
  destruct (decide (j = i)) as [->|Hne].
  - destruct (Z.leb_spec 0 i); [|lia].
    apply list_lookup_insert_eq. lia.
  - destruct (Z.leb_spec 0 j); [|done].
    apply list_lookup_insert_ne. lia.
Qed.

Section Kernel.
Variable T : value_type.
Variables (e s : Z) (ind degree val : ptr).
Hypothesis Hind : val ≠ ind.
Hypothesis Hdegree : val ≠ degree.
Hypothesis Hs : 0 < s.
Hypothesis Hwrap : e + s ≤ 2 ^ 32.

Abbreviation wr := (written T ind degree val).
Abbreviation kw := (kernel_writes T ind degree val).

Lemma kernel_writes_refl h : kw h h.
Proof. split_and!; eauto. Qed.

(** A write recorded against [h1] is one against any [h] with the same
    index and degree blocks. *)
Lemma written_rebase h h1 h2 j :
  (∀ q, q ≠ val → h1 !! q = h !! q) → wr h1 h2 j → wr h h2 j.
Proof.
  intros Hf (c & d & Hc & Hd & Hv). exists c, d.
  rewrite <- (load_int_other h h1 ind), <- (load_int_other h h1 degree);
    auto.
Qed.

(** Later writes of the kernel keep what was written. *)
Lemma written_stable h h1 h2 j :
  (∀ q, q ≠ val → h1 !! q = h !! q) → wr h h1 j → kw h1 h2 → wr h h2 j.
Proof.
  intros Hf Hw (_ & _ & Hj). destruct (Hj j) as [Heq|Hw2].
  - destruct Hw as (c & d & Hc & Hd & Hv). exists c, d. by rewrite Heq.
  - by eapply written_rebase.
Qed.

Lemma kernel_writes_trans h h1 h2 : kw h h1 → kw h1 h2 → kw h h2.
Proof.
  intros (Hf1 & Hl1 & Hj1) (Hf2 & Hl2 & Hj2). split_and!.
  - intros q Hq. by rewrite Hf2, Hf1.
  - intros vs Hvs. destruct (Hl1 vs Hvs) as (vs1 & Hvs1 & Hlen1).
    destruct (Hl2 vs1 Hvs1) as (vs2 & Hvs2 & Hlen2).
    exists vs2. split; [done | congruence].
  - intros j. destruct (Hj2 j) as [Heq|Hw2].
    + destruct (Hj1 j) as [Heq1|Hw1].
      * left. congruence.
      * right. destruct Hw1 as (c & d & Hc & Hd & Hv). exists c, d.
        by rewrite Heq.
    + right. by eapply written_rebase.
Qed.

(** One iteration of a thread. *)
Lemma store_cell_kernel_writes h h1 i c d :
  load_int h ind i = Some c →
  load_int h degree c = Some d →
  store_cell val i (Val (transition_value T d)) h = Some h1 →
  kw h h1 ∧ wr h h1 i.
Proof.
  intros Hc Hd Hst.
  assert (wr h h1 i) as Hw.
  { exists c, d. split_and!; [done..|].
    rewrite (load_store_cell _ _ _ _ _ i Hst). by rewrite decide_True. }
  split; [|done].
  pose proof Hst as (buf & Hbuf & Hi & ->)%store_cell_spec.
  split_and!.
  - intros q Hq. by rewrite lookup_insert_ne.
  - intros vs Hvs. rewrite lookup_insert_eq. eexists. split; [done|].
    rewrite length_insert. congruence.
  - intros j. rewrite (load_store_cell _ _ _ _ _ j Hst).
    destruct (decide (j = i)) as [->|]; [right|left]; [|done].
    destruct Hw as (c' & d' & ? & ? & Hv). exists c', d'. split_and!; [done..|].
    rewrite <- Hv. symmetry. rewrite (load_store_cell _ _ _ _ _ i Hst).
    by rewrite decide_True.
Qed.

(** A thread that ends has written the positions of its residue class
    from its first index on. *)
Lemma transition_thread_spec (fuel : nat) :
  ∀ (i : Z) (h h' : gmap ptr (list cell)),
    0 ≤ i →
    transition_thread T fuel e ind degree val s i h = Some h' →
    kw h h' ∧ ∀ j, i ≤ j < e → (j - i) mod s = 0 → wr h h' j.
Proof.
  induction fuel as [|fuel IH]; intros i h h' Hi H; simpl in H;
    destruct (Z.ltb_spec i e) as [Hlt|Hge]; try discriminate.
  - injection H as <-. split; [apply kernel_writes_refl | intros; lia].
  - destruct (load_int h ind i) as [c|] eqn:Hc; [|done]. simpl in H.
    destruct (load_int h degree c) as [d|] eqn:Hd; [|done]. simpl in H.
    destruct (store_cell val i _ h) as [h1|] eqn:Hst; [|done]. simpl in H.
    destruct (store_cell_kernel_writes h h1 i c d Hc Hd Hst) as [Hk1 Hw1].
    assert (to_unsigned (i + s) = i + s) as Hnowrap
      by (unfold to_unsigned; apply Z.mod_small; lia).
    rewrite Hnowrap in H.
    destruct (IH (i + s) h1 h' ltac:(lia) H) as [Hk2 Hw2].
    split; [by eapply kernel_writes_trans|].
    intros j Hj Hmod. destruct (decide (j = i)) as [->|Hne].
    + eapply written_stable; [apply Hk1|done..].
    + eapply written_rebase; [apply Hk1|]. apply Hw2.
      * assert (s ≤ j - i); [|lia].
        apply Z.mod_divide in Hmod as [q Hq]; [|lia].
        assert (0 < q) by (destruct (Z_lt_le_dec 0 q); [done | nia]).
        nia.
      * replace (j - (i + s)) with (j - i + -1 * s) by lia.
        by rewrite Z.mod_add by lia.
  - injection H as <-. split; [apply kernel_writes_refl | intros; lia].
Qed.
End Kernel.

(** ** The launch of the transition kernel *)

Lemma foldl_option_None {A B} (f : B → A → option A) (l : list B) :
  foldl (λ acc b, a ← acc; f b a) None l = None.
Proof. by induction l. Qed.

Lemma elem_of_grid (gridDim blockDim b t : Z) :
  (b, t) ∈ grid gridDim blockDim ↔ 0 ≤ b < gridDim ∧ 0 ≤ t < blockDim.
Proof.
  unfold grid. rewrite list_elem_of_bind. split.
  - intros (b' & (t' & Ht & Ht')%list_elem_of_bind & Hb).
    apply list_elem_of_singleton in Ht as [= -> ->].
    apply elem_of_seqZ in Hb, Ht'. lia.
  - intros [Hb Ht]. exists b. split; [|apply elem_of_seqZ; lia].
    apply list_elem_of_bind. exists t.
    split; [by apply list_elem_of_singleton|apply elem_of_seqZ; lia].
Qed.

Lemma stride_no_wrap (gridDim blockDim e : Z) :
  0 < gridDim → 0 < blockDim → 0 ≤ e → e + gridDim * blockDim < 2 ^ 32 →
  to_unsigned (gridDim * blockDim) = gridDim * blockDim.
Proof.
  intros. unfold to_unsigned. apply Z.mod_small.
  assert (0 < gridDim * blockDim) by nia. lia.
Qed.

Lemma first_index_no_wrap (gridDim blockDim e b t : Z) :
  0 ≤ e → e + gridDim * blockDim < 2 ^ 32 →
  0 ≤ b < gridDim → 0 ≤ t < blockDim →
  to_unsigned (t + b * blockDim) = t + b * blockDim.
Proof.
  intros. unfold to_unsigned. apply Z.mod_small.
  assert (0 ≤ b * blockDim) by nia.
  assert ((b + 1) * blockDim ≤ gridDim * blockDim) by nia. lia.
Qed.

Section Launch.
Variable T : value_type.
Variables (gridDim blockDim e : Z) (ind degree val : ptr).
Hypothesis Hind : val ≠ ind.
Hypothesis Hdegree : val ≠ degree.
Hypothesis HgridDim : 0 < gridDim.
Hypothesis HblockDim : 0 < blockDim.
Hypothesis He : 0 ≤ e.
Hypothesis Hwrap : e + gridDim * blockDim < 2 ^ 32.

Lemma threads_spec (l : list (Z * Z)) :
  ∀ (h h' : gmap ptr (list cell)),
    (∀ bt, bt ∈ l → 0 ≤ bt.1 < gridDim ∧ 0 ≤ bt.2 < blockDim) →
    foldl (λ acc bt, h' ← acc;
             transition_thread T (Z.to_nat e) e ind degree val
               (to_unsigned (gridDim * blockDim))
               (to_unsigned (bt.2 + bt.1 * blockDim)) h')
          (Some h) l = Some h' →
    kernel_writes T ind degree val h h' ∧
    ∀ bt j, bt ∈ l →
      bt.2 + bt.1 * blockDim ≤ j < e →
      (j - (bt.2 + bt.1 * blockDim)) mod (gridDim * blockDim) = 0 →
      written T ind degree val h h' j.
Proof.
  induction l as [|bt l IH]; intros h h' Hl H; simpl in H.
  - injection H as <-. split; [by apply kernel_writes_refl|].
    intros bt j Hbt. by apply elem_of_nil in Hbt.
  - destruct (transition_thread _ _ _ _ _ _ _ _ h) as [h1|] eqn:Hthread;
      [|by rewrite foldl_option_None in H].
    destruct (Hl bt ltac:(left)) as [Hb Ht].
    rewrite (stride_no_wrap gridDim blockDim e) in Hthread by done.
    rewrite (first_index_no_wrap gridDim blockDim e) in Hthread by done.
    apply transition_thread_spec in Hthread as [Hk1 Hw1]; [|done|done|nia|lia|nia].
    apply IH in H as [Hk2 Hw2]; [|intros; apply Hl; by right].
    split; [by eapply kernel_writes_trans|].
    intros bt' j [->|Hin]%elem_of_cons Hj Hmod.
    + eapply written_stable; [done..|apply Hk1|by apply Hw1|done].
    + eapply written_rebase; [done..|apply Hk1|by eapply Hw2].
Qed.

(** Every edge position below [e] belongs to a thread of the grid. *)
Lemma grid_covers (j : Z) :
  0 ≤ j < e →
  ∃ bt, bt ∈ grid gridDim blockDim ∧ bt.2 + bt.1 * blockDim ≤ j ∧
        (j - (bt.2 + bt.1 * blockDim)) mod (gridDim * blockDim) = 0.
Proof.
  intros Hj. set (s := gridDim * blockDim). assert (0 < s) by (unfold s; nia).
  pose proof (Z.mod_pos_bound j s ltac:(done)) as Hr.
  pose proof (Z.mod_pos_bound (j mod s) blockDim ltac:(done)) as Ht.
  pose proof (Z.div_mod (j mod s) blockDim ltac:(lia)) as Hdm.
  exists ((j mod s) / blockDim, (j mod s) mod blockDim). simpl.
  assert ((j mod s) mod blockDim + (j mod s) / blockDim * blockDim = j mod s)
    as -> by (rewrite Z.add_comm, Z.mul_comm; done).
  split_and!.
  - apply elem_of_grid. split; [|done]. split.
    + apply Z.div_pos; lia.
    + apply Z.div_lt_upper_bound; [done|]. unfold s in *. lia.
  - pose proof (Z.mod_le j s). lia.
  - rewrite Zminus_mod_idemp_r, Z.sub_diag. by apply Z.mod_0_l, Z.neq_sym, Z.lt_neq.
Qed.

(** A launch that ends has written every edge position, and the block of
    transition values only. *)
Lemma transition_kernel_spec (h h' : gmap ptr (list cell)) :
  transition_kernel T gridDim blockDim e ind degree val h = Some h' →
  kernel_writes T ind degree val h h' ∧
  ∀ j, 0 ≤ j < e → written T ind degree val h h' j.
Proof.
  unfold transition_kernel. intros H.
  apply threads_spec in H as [Hk Hw];
    [|intros [b t] Hbt; by apply elem_of_grid in Hbt].
  split; [done|]. intros j Hj.
  destruct (grid_covers j Hj) as (bt & Hbt & Hle & Hmod).
  apply (Hw bt j); [done|lia|done].
Qed.
End Launch.

(** ** Integer conversions within range *)

Lemma to_int_small (z : Z) : -2 ^ 31 ≤ z < 2 ^ 31 → to_int z = z.
Proof.
  intros Hz. unfold to_int, wrap_signed.
  change (2 ^ (32 - 1)) with (2 ^ 31). rewrite Z.mod_small; lia.
Qed.

Lemma to_int_range (z : Z) : -2 ^ 31 ≤ to_int z < 2 ^ 31.
Proof.
  unfold to_int, wrap_signed. change (2 ^ (32 - 1)) with (2 ^ 31).
  pose proof (Z.mod_pos_bound (z + 2 ^ 31) (2 ^ 32) ltac:(lia)). lia.
Qed.

Lemma to_index_small (IT : index_type) (z : Z) :
  -2 ^ 31 ≤ z < 2 ^ 31 → to_index IT z = z.
Proof.
  intros Hz. unfold to_index, wrap_signed. destruct IT; simpl idx_bits.
  - change (2 ^ (32 - 1)) with (2 ^ 31). rewrite Z.mod_small; lia.
  - change (2 ^ (64 - 1)) with (2 ^ 63). rewrite Z.mod_small; lia.
Qed.

Section TransitionVals.
Context {C : Collaborators}.
Variable T : value_type.
Variable IT : index_type.
Hypothesis HCUDA_MAX_BLOCKS : 0 < CUDA_MAX_BLOCKS ≤ 65535.

(** The grid of [transition_vals] and [flag_leafs] has at most
    [CUDA_MAX_BLOCKS] blocks. *)
Lemma blocks_bound (sm : Z) :
  to_int (Z.min (to_index IT (to_int (32 * sm))) CUDA_MAX_BLOCKS) ≤ 65535.
Proof.
  pose proof (to_int_range (32 * sm)).
  rewrite to_index_small by done. rewrite to_int_small; lia.
Qed.

(** [transition_vals] returns only after a launch that wrote every edge
    position of the transition values, and nothing else. *)
Lemma transition_vals_spec (this : SNMGpagerank) (degree : ptr) (m m' : machine) :
  0 ≤ e_loc this < 2 ^ 31 →
  val this ≠ ind this →
  val this ≠ degree →
  transition_vals T IT this degree m = Ret m' →
  ∃ h', m' = set_mem h' m ∧
        kernel_writes T (ind this) degree (val this) (mem m) h' ∧
        ∀ j, 0 ≤ j < e_loc this →
             written T (ind this) degree (val this) (mem m) h' j.
Proof.
  intros He Hind Hdeg. unfold transition_vals.
  rewrite (to_index_small IT (e_loc this)) by lia.
  rewrite (to_int_small (Z.min _ 256)) by lia.
  pose proof (blocks_bound (get_num_sm (env this))) as Hblocks.
  destruct (launch_ok _ _) eqn:Hlaunch; [|done].
  apply andb_prop in Hlaunch as [Hb%Z.ltb_lt Ht%Z.ltb_lt].
  intros H. inv_ret. eexists. split; [done|].
  match goal with
  | Hk : transition_kernel _ ?g ?b _ _ _ _ _ = Some _ |- _ =>
      assert (g * b ≤ 65535 * 256) by nia;
      apply (transition_kernel_spec T g b) in Hk; [done|done|done|lia..]
  end.
Qed.
End TransitionVals.

(** ** Reading and writing whole vectors *)

Lemma load_vals_Some (h : gmap ptr (list cell)) n p xs :
  load_vals h n p = Some xs →
  ∃ buf, h !! p = Some buf ∧ (Z.to_nat n ≤ length buf)%nat ∧
         take (Z.to_nat n) buf = Val <$> xs.
Proof.
  unfold load_vals. intros H.
  destruct (h !! p) as [buf|]; simplify_option_eq.
  exists buf. split_and!; [done..|].
  symmetry. eapply mapM_fmap_Some_inv; [done|]. by intros [] y [= ->].
Qed.

Lemma load_ints_Some (h : gmap ptr (list cell)) n p ds :
  load_ints h n p = Some ds →
  ∃ buf, h !! p = Some buf ∧ (Z.to_nat n ≤ length buf)%nat ∧
         take (Z.to_nat n) buf = Idx <$> ds.
Proof.
  unfold load_ints. intros H.
  destruct (h !! p) as [buf|]; simplify_option_eq.
  exists buf. split_and!; [done..|].
  symmetry. eapply mapM_fmap_Some_inv; [done|]. by intros [] y [= ->].
Qed.

Lemma load_lookup (h : gmap ptr (list cell)) p buf (i : Z) :
  h !! p = Some buf → 0 ≤ i → load h p i = buf !! Z.to_nat i.
Proof.
  intros Hp Hi. unfold load. rewrite Hp. simpl.
  by destruct (Z.leb_spec 0 i); [|lia].
Qed.

Lemma load_int_Some (h : gmap ptr (list cell)) p i z :
  load_int h p i = Some z ↔ load h p i = Some (Idx z).
Proof.
  unfold load_int. destruct (load h p i) as [[]|]; simpl; split; congruence.
Qed.

Lemma load_ints_other (h h' : gmap ptr (list cell)) n p :
  h' !! p = h !! p → load_ints h' n p = load_ints h n p.
Proof. unfold load_ints. by intros ->. Qed.

Lemma load_vals_other (h h' : gmap ptr (list cell)) n p :
  h' !! p = h !! p → load_vals h' n p = load_vals h n p.
Proof. unfold load_vals. by intros ->. Qed.

Lemma take_fmap_length {A B} (f : A → B) (n : nat) (buf : list B) (xs : list A) :
  (n ≤ length buf)%nat → take n buf = f <$> xs → length xs = n.
Proof.
  intros Hn Heq. apply (f_equal length) in Heq.
  rewrite length_take, length_fmap in Heq. lia.
Qed.

#[global] Instance Val_inj : Inj (=) (=) Val.
Proof. by intros x y [= ->]. Qed.

#[global] Instance Idx_inj : Inj (=) (=) Idx.
Proof. by intros x y [= ->]. Qed.

Lemma convert_zero (T : value_type) : convert T lit_0_0 = lit_0_0.
Proof. done. Qed.

Lemma one_is_not_zero (T : value_type) :
  SFeqb (convert T lit_1_0) lit_0_0 = false.
Proof. destruct T; vm_compute; reflexivity. Qed.

(** The three steps of [setup] on the bookmark leave [alpha] at the
    vertices of degree 0 and 0 elsewhere. *)
Lemma dangling_bookmark (T : value_type) (n : Z) (deg_ptr bookmark : ptr)
  (a : spec_float) (h0 h1 h2 h3 : gmap ptr (list cell)) :
  bookmark ≠ deg_ptr →
  fill n bookmark (convert T lit_0_0) h0 = Some h1 →
  flag_leafs_kernel T n deg_ptr bookmark h1 = Some h2 →
  update_dangling_nodes T n bookmark a h2 = Some h3 →
  ∃ ds bs0,
    load_ints h0 n deg_ptr = Some ds ∧ h0 !! bookmark = Some bs0 ∧
    length ds = Z.to_nat n ∧ (Z.to_nat n ≤ length bs0)%nat ∧
    h3 = <[bookmark := (Val <$> ((λ d, if d =? 0 then a else lit_0_0) <$> ds))
                       ++ drop (Z.to_nat n) bs0]> h0.
Proof.
  intros Hne Hfill Hflag Hupd. rewrite convert_zero in *.
  apply store_cells_lookup in Hfill as (bs0 & Hbs0 & Hlen0 & ->).
  rewrite length_replicate in *.
  unfold flag_leafs_kernel in Hflag.
  destruct (load_ints _ n deg_ptr) as [ds|] eqn:Hds; [|done].
  rewrite (load_ints_other h0) in Hds by (by rewrite lookup_insert_ne).
  simpl in Hflag.
  destruct (load_vals _ n bookmark) as [bs|] eqn:Hbs; [|done]. simpl in Hflag.
  apply load_vals_Some in Hbs as (buf & Hbuf & _ & Hbs).
  rewrite lookup_insert_eq in Hbuf. injection Hbuf as <-.
  rewrite take_app_length' in Hbs by (by rewrite length_replicate).
  rewrite <- fmap_replicate in Hbs. apply (inj (fmap Val)) in Hbs as <-.
  pose proof Hds as (dbuf & _ & Hdlen & Hdtake)%load_ints_Some.
  pose proof (take_fmap_length _ _ _ _ Hdlen Hdtake) as Hdslen.
  rewrite zip_with_replicate_r_eq in Hflag by done.
  apply store_cells_lookup in Hflag as (buf & Hbuf & _ & ->).
  rewrite lookup_insert_eq in Hbuf. injection Hbuf as <-.
  rewrite insert_insert_eq, !length_fmap in Hupd.
  rewrite drop_app_length' in Hupd by (rewrite length_replicate; lia).
  unfold update_dangling_nodes in Hupd.
  destruct (load_vals _ n bookmark) as [bs|] eqn:Hbs; [|done]. simpl in Hupd.
  apply load_vals_Some in Hbs as (buf & Hbuf & _ & Hbs).
  rewrite lookup_insert_eq in Hbuf. injection Hbuf as <-.
  rewrite take_app_length' in Hbs by (by rewrite !length_fmap).
  apply (inj (fmap Val)) in Hbs as <-.
  apply store_cells_lookup in Hupd as (buf & Hbuf & _ & ->).
  rewrite lookup_insert_eq in Hbuf. injection Hbuf as <-.
  rewrite insert_insert_eq, !length_fmap.
  rewrite drop_app_length' by (rewrite !length_fmap; lia).
  exists ds, bs0. split_and!; [done..|].
  do 3 f_equal. rewrite <- list_fmap_compose.
  apply list_fmap_ext. intros _ d _. unfold compose, flip.
  destruct (d =? 0); [by rewrite one_is_not_zero | done].
Qed.

Lemma set_mem_mem h m : mem (set_mem h m) = h.
Proof. done. Qed.

Section SetupSpec.
Context {C : Collaborators}.
Variable T : value_type.
Variable IT : index_type.
Hypothesis HCUDA_MAX_BLOCKS : 0 < CUDA_MAX_BLOCKS ≤ 65535.

Lemma flag_leafs_Ret (this : SNMGpagerank) (degree : ptr) (m m' : machine) :
  flag_leafs T IT this degree m = Ret m' →
  ∃ h, flag_leafs_kernel T (v_glob this) degree (bookmark this) (mem m) = Some h ∧
       m' = set_mem h m.
Proof.
  unfold flag_leafs. destruct (launch_ok _ _); [|done].
  intros H. by apply on_mem_Ret in H.
Qed.

Lemma setup_spec (a : spec_float) (this this' : SNMGpagerank) (m m' : machine)
  (bs0 vs0 offs inds : list cell) :
  0 ≤ e_loc this < 2 ^ 31 →
  bookmark this ≠ val this →
  bookmark this ≠ ind this →
  val this ≠ ind this →
  mem m !! bookmark this = Some bs0 →
  mem m !! val this = Some vs0 →
  mem m !! off this = Some offs →
  mem m !! ind this = Some inds →
  setup T IT a this m = Ret (this', m') →
  ∃ deg degree_loc,
    snmg_degree (id this) (part_off this) offs inds = Some deg ∧
    this' = set_is_setup true (set_alpha a this) ∧
    pagerank m' = pagerank m ∧
    degree m' = <[Z.to_nat (id this) := degree_loc]> (degree m) ∧
    (∀ q, q ≠ bookmark this → q ≠ val this → mem m' !! q = mem m !! q) ∧
    length deg = Z.to_nat (v_glob this) ∧
    (Z.to_nat (v_glob this) ≤ length bs0)%nat ∧
    mem m' !! bookmark this
    = Some ((Val <$> ((λ d, if d =? 0 then a else lit_0_0) <$> deg))
            ++ drop (Z.to_nat (v_glob this)) bs0) ∧
    ∃ vs, mem m' !! val this = Some vs ∧ length vs = length vs0 ∧
          ∀ j, 0 ≤ j < e_loc this →
               ∃ c d, inds !! Z.to_nat j = Some (Idx c) ∧ index deg c = Some d ∧
                      vs !! Z.to_nat j = Some (Val (transition_value T d)).
Proof.
  intros He Hbv Hbi Hvi Hb Hv Ho Hi. unfold setup.
  destruct (is_setup this); [done|]. cbn [negb]. cbv zeta.
  destruct (ALLOC_TRY _ m) as [degree_loc m1] eqn:Halloc.
  apply ALLOC_TRY_spec in Halloc as (_ & Hfresh & Hm1 & Hd1 & Hp1).
  intros H.
  apply bind_Ret in H as (? & _ & H).
  apply bind_Ret in H as (offs' & Hoffs%lift_Ret & H).
  apply bind_Ret in H as (inds' & Hinds%lift_Ret & H).
  simpl in Hoffs, Hinds. rewrite Hm1 in Hoffs, Hinds.
  rewrite lookup_insert_ne in Hoffs by congruence.
  rewrite lookup_insert_ne in Hinds by congruence.
  assert (offs' = offs) as -> by congruence.
  assert (inds' = inds) as -> by congruence.
  destruct (snmg_degree _ _ _ _) as [deg|] eqn:Hdeg; [|done].
  apply bind_Ret in H as (m2 & (h2 & Hst & ->)%on_mem_Ret & H).
  apply bind_Ret in H as (m3 & (h3 & Hfill & ->)%on_mem_Ret & H).
  apply bind_Ret in H as (m4 & (h4 & Hflag & ->)%flag_leafs_Ret & H).
  apply bind_Ret in H as (a' & [= <-]%lift_Ret & H).
  apply bind_Ret in H as (m5 & (h5 & Hupd & ->)%on_mem_Ret & H).
  apply bind_Ret in H as (m6 & Htv & H).
  injection H as <- <-.
  simpl in *.
  (* the degree vector in its block *)
  apply store_cells_lookup in Hst as (dbuf & Hdbuf & Hdlen & ->).
  rewrite Hm1, lookup_insert_eq in Hdbuf. injection Hdbuf as <-.
  rewrite length_fmap, length_replicate in Hdlen.
  rewrite Hm1, insert_insert_eq, length_fmap, drop_replicate in Hfill.
  set (n := Z.to_nat (v_glob this)) in *.
  set (h2 := <[degree_loc := _]> (mem m)) in *.
  assert (bookmark this ≠ degree_loc) as Hbd by congruence.
  assert (val this ≠ degree_loc) as Hvd by congruence.
  (* the bookmark *)
  destruct (dangling_bookmark _ _ _ _ _ _ _ _ _ Hbd Hfill Hflag Hupd)
    as (ds & bs0' & Hds & Hbs0' & Hdslen & Hbslen & ->).
  unfold h2 in Hbs0'. rewrite lookup_insert_ne, Hb in Hbs0' by done.
  injection Hbs0' as <-.
  apply load_ints_Some in Hds as (dbuf & Hdbuf & _ & Htake).
  unfold h2 in Hdbuf. rewrite lookup_insert_eq in Hdbuf. injection Hdbuf as <-.
  assert (length deg = n) as Hdeglen.
  { destruct (decide (length deg = n)) as [|Hne]; [done|exfalso].
    assert (Undef ∈ Idx <$> ds) as (? & [=] & _)%list_elem_of_fmap.
    rewrite <- Htake, take_ge by (rewrite length_app, length_fmap, length_replicate; lia).
    apply elem_of_app. right. apply elem_of_replicate. split; [done|lia]. }
  rewrite Hdeglen, Nat.sub_diag, app_nil_r in Htake. simpl in Htake.
  rewrite take_ge in Htake by (rewrite length_fmap; lia).
  apply (inj (fmap Idx)) in Htake as <-.
  (* the transition values *)
  apply transition_vals_spec in Htv as (h' & -> & (Hf & Hl & _) & Hw);
    [|done..].
  simpl in *.
  exists deg, degree_loc. split_and!; try done.
  - by rewrite Hd1.
  - intros q Hqb Hqv. destruct (decide (q = degree_loc)) as [->|Hqd].
    + by rewrite lookup_delete_eq.
    + rewrite lookup_delete_ne, Hf, lookup_insert_ne by done.
      unfold h2. by rewrite lookup_insert_ne.
  - by rewrite lookup_delete_ne, Hf, lookup_insert_eq.
  - destruct (Hl vs0) as (vs & Hvs & Hvslen).
    { rewrite lookup_insert_ne by done. unfold h2. by rewrite lookup_insert_ne. }
    exists vs. rewrite lookup_delete_ne by done. split_and!; [done..|].
    intros j Hj. destruct (Hw j Hj) as (c & d & Hc & Hd & Hval).
    exists c, d.
    apply load_int_Some in Hc, Hd.
    assert (0 ≤ c) as Hc0.
    { unfold load in Hd. by destruct (Z.leb_spec 0 c). }
    erewrite load_lookup in Hc; [| |lia]; last first.
    { rewrite lookup_insert_ne by done. unfold h2.
      rewrite lookup_insert_ne by congruence. done. }
    erewrite load_lookup in Hd; [| |lia]; last first.
    { rewrite lookup_insert_ne by done. unfold h2. by rewrite lookup_insert_eq. }
    erewrite load_lookup in Hval; [|done|lia].
    split_and!; [done| |done].
    rewrite Hdeglen, Nat.sub_diag, app_nil_r in Hd.
    rewrite list_lookup_fmap in Hd. unfold index.
    destruct (Z.leb_spec 0 c); [|lia].
    destruct (deg !! Z.to_nat c); simplify_eq/=; done.
Qed.
End SetupSpec.

(** ** The constructor *)

Lemma new_SNMGpagerank_spec (env_ : SNMGinfo) (part_off_ : list Z)
  (off_ ind_ : ptr) (m m' : machine) (this : SNMGpagerank) :
  new_SNMGpagerank env_ part_off_ off_ ind_ m = Ret (this, m') →
  env this = env_ ∧ part_off this = part_off_ ∧ off this = off_ ∧
  ind this = ind_ ∧ id this = get_thread_num env_ ∧
  is_setup this = false ∧
  index part_off_ (get_num_threads env_) = Some (v_glob this) ∧
  0 ≤ e_loc this ∧
  is_Some (mem m !! off_) ∧
  mem m !! bookmark this = None ∧ mem m !! val this = None ∧
  bookmark this ≠ val this ∧
  mem m' = <[val this := replicate (Z.to_nat (e_loc this)) Undef]>
             (<[bookmark this := replicate (Z.to_nat (v_glob this)) Undef]> (mem m)) ∧
  degree m' = degree m ∧ pagerank m' = pagerank m ∧
  bookmark this ≠ nullptr ∧ val this ≠ nullptr.
Proof.
  unfold new_SNMGpagerank. intros H.
  apply bind_Ret in H as (vg & Hvg%lift_Ret & H).
  apply bind_Ret in H as (hi & _ & H).
  apply bind_Ret in H as (lo & _ & H).
  apply bind_Ret in H as (tmp_e & Htmp%lift_Ret & H).
  destruct (ALLOC_TRY vg m) as [b m1] eqn:Hb.
  destruct (ALLOC_TRY _ m1) as [v m2] eqn:Hv.
  injection H as <- <-. simpl.
  apply ALLOC_TRY_spec in Hb as (? & Hbfresh & Hm1 & Hd1 & Hp1).
  apply ALLOC_TRY_spec in Hv as (? & Hvfresh & Hm2 & Hd2 & Hp2).
  rewrite Hm1 in Hvfresh.
  split_and!; try done; try congruence.
  - unfold to_size_t. apply Z.mod_pos_bound. lia.
  - unfold load_int, load in Htmp.
    destruct (0 <=? _); [|done]. by destruct (mem m !! off_).
  - apply lookup_insert_None in Hvfresh as [? _]. done.
  - apply lookup_insert_None in Hvfresh as [_ ?]. done.
Qed.

Section GoogleMatrix.
Context {C : Collaborators}.
Variable T : value_type.
Variable IT : index_type.
Hypothesis HCUDA_MAX_BLOCKS : 0 < CUDA_MAX_BLOCKS ≤ 65535.

(** C2. After the constructor and a [setup] that returned, on a shard
    whose index block is allocated and whose edge count fits an [int]:
    with [deg] the degree vector that [snmg_degree] produced for the
    shard, the transition value at every local edge position [i] is
    [1.0 / deg[ind[i]]], and the bookmark entry of every global vertex
    [v] is [alpha] when [deg[v] = 0] and 0 otherwise. *)
Theorem setup_transition_and_bookmark (a : spec_float) (env_ : SNMGinfo)
  (part_off_ : list Z) (off_ ind_ : ptr) (m m0 m' : machine)
  (this this' : SNMGpagerank) (inds : list cell) :
  mem m !! ind_ = Some inds →
  new_SNMGpagerank env_ part_off_ off_ ind_ m = Ret (this, m0) →
  e_loc this < 2 ^ 31 →
  setup T IT a this m0 = Ret (this', m') →
  ∃ offs deg,
    mem m !! off_ = Some offs ∧
    snmg_degree (get_thread_num env_) part_off_ offs inds = Some deg ∧
    (∀ i, 0 ≤ i < e_loc this' →
          ∃ c d, load_int (mem m) ind_ i = Some c ∧ index deg c = Some d ∧
                 load (mem m') (val this') i
                 = Some (Val (convert T (vdiv Float64 lit_1_0 (of_Z Float64 d))))) ∧
    (∀ v, 0 ≤ v < v_glob this' →
          ∃ d, index deg v = Some d ∧
               load (mem m') (bookmark this') v
               = Some (Val (if d =? 0 then a else lit_0_0))).
Proof.
  intros Hinds Hnew He Hsetup.
  apply new_SNMGpagerank_spec in Hnew
    as (_ & Hpo & Hoff & Hind & Hid & _ & _ & He0 & [offs Hoffs] & Hbf & Hvf
        & Hbv & Hm0 & _ & _).
  assert (bookmark this ≠ ind this) as Hbi by congruence.
  assert (val this ≠ ind this) as Hvi by congruence.
  assert (bookmark this ≠ off this) as Hbo by congruence.
  assert (val this ≠ off this) as Hvo by congruence.
  eapply (setup_spec T IT HCUDA_MAX_BLOCKS) in Hsetup
    as (deg & degree_loc & Hdeg & -> & _ & _ & _ & Hlen & _ & Hbook
        & vs & Hvs & _ & Hval); try done; try lia.
  - exists offs, deg. simpl. rewrite Hid, Hpo in Hdeg.
    split_and!; [done..| |].
    + intros i Hi. destruct (Hval i Hi) as (c & d & Hc & Hd & Hv).
      exists c, d. split_and!; [|done|].
      * apply load_int_Some. rewrite Hind in *.
        by erewrite load_lookup; [|done|lia].
      * by erewrite load_lookup; [|done|lia].
    + intros v Hv. erewrite load_lookup; [|done|lia].
      assert (is_Some (deg !! Z.to_nat v)) as [d Hd]
        by (apply lookup_lt_is_Some; lia).
      exists d. split.
      * unfold index. by destruct (Z.leb_spec 0 v); [|lia].
      * rewrite lookup_app_l by (rewrite !length_fmap; lia).
        by rewrite !list_lookup_fmap, Hd.
  - rewrite Hm0, lookup_insert_ne, lookup_insert_eq; done.
  - rewrite Hm0, lookup_insert_eq; done.
  - rewrite Hm0, !lookup_insert_ne; [|done..]. by rewrite Hoff.
  - rewrite Hm0, !lookup_insert_ne; [|done..]. by rewrite Hind.
Qed.
End GoogleMatrix.

(** ** The driver *)

Section DriverSpec.
Context {C : Collaborators}.
Variable VT : value_type.
Variable IT : index_type.

Lemma worker_spec (srcs dests : list gdf_column) (n_gpus : Z)
  (damping_factor : spec_float) (n_iter : Z) (sh sh' : shared) (m m' : machine)
  (i : Z) :
  worker VT IT srcs dests n_gpus damping_factor n_iter (sh, m) i = Ret (sh', m') →
  ∃ dest src n,
    index dests i = Some dest ∧ index srcs i = Some src ∧
    let r := gdf_snmg_coo2csr i (mem m) dest src in
    part_offset sh' = csr_part_offset r ∧
    status sh' = (if decide (csr_status r ≠ GDF_SUCCESS) then csr_status r
                  else status sh) ∧
    index (csr_part_offset r) n_gpus = Some n ∧
    if i =? 0 then dtype (pr_col sh') = GDF_FLOAT32 ∧ size (pr_col sh') = n
    else pr_col sh' = pr_col sh.
Proof.
  unfold worker. intros H.
  apply bind_Ret in H as (dest & Hdest%lift_Ret & H).
  apply bind_Ret in H as (src & Hsrc%lift_Ret & H).
  exists dest, src.
  set (r := gdf_snmg_coo2csr i (mem m) dest src) in *.
  destruct (csr_column (csr_off r) m) as [col_csr_off m1].
  destruct (csr_column (csr_ind r) m1) as [col_csr_ind m2].
  apply bind_Ret in H as ([pr_solver m3] & _ & H).
  apply bind_Ret in H as ([pr_solver' m4] & _ & H).
  apply bind_Ret in H as (n & Hn%lift_Ret & H).
  destruct (ALLOC_TRY n m4) as [q m5].
  apply bind_Ret in H as (? & _ & H).
  apply bind_Ret in H as ([pr_solver'' m6] & _ & H).
  apply bind_Ret in H as ([sh1 m7] & Hmaster & H).
  injection H as <- <-. exists n.
  destruct (i =? 0).
  - destruct (ALLOC_TRY n _) as [d m8].
    apply bind_Ret in Hmaster as (m9 & _ & Hmaster).
    injection Hmaster as <- <-. simpl in *.
    destruct (decide _); by split_and!.
  - injection Hmaster as <- <-. simpl in *.
    destruct (decide _); by split_and!.
Qed.

Lemma workers_not_Ret {A B} (f : A → B → result A) (l : list B) (o : result A) a :
  foldl (λ acc i, st ← acc; f st i) o l = Ret a → ∃ a0, o = Ret a0.
Proof.
  revert o. induction l as [|i l IH]; simpl; intros o H; [eauto|].
  apply IH in H as [a0 H]. destruct o; try done. eauto.
Qed.

(** Only worker 0 writes the output column, and a failure code written
    to [status] is never replaced by [GDF_SUCCESS]. *)
Lemma workers_spec (srcs dests : list gdf_column) (n_gpus : Z)
  (damping_factor : spec_float) (n_iter : Z) (l : list Z) :
  ∀ (sh sh' : shared) (m m' : machine),
    foldl (λ acc i, st ← acc;
             worker VT IT srcs dests n_gpus damping_factor n_iter st i)
          (Ret (sh, m)) l = Ret (sh', m') →
    (0 ∉ l → pr_col sh' = pr_col sh) ∧
    (status sh ≠ GDF_SUCCESS → status sh' ≠ GDF_SUCCESS).
Proof.
  induction l as [|i l IH]; intros sh sh' m m' H; cbn [foldl] in H.
  - by injection H as <- <-.
  - pose proof H as [[sh1 m1] H1]%workers_not_Ret.
    rewrite H1 in H. apply IH in H as [Hcol Hstatus].
    apply worker_spec in H1
      as (dest & src & n & _ & _ & _ & Hst & _ & Hi).
    split.
    + intros [Hne Hl]%not_elem_of_cons.
      rewrite Hcol by done.
      destruct (Z.eqb_spec i 0); [congruence | done].
    + intros Hsh. apply Hstatus. rewrite Hst. by destruct (decide _).
Qed.

(** A run of the driver that returns has published a column of
    [GDF_FLOAT32] of the size worker 0 read in the last partition
    offset; it returns a failure code when the conversion of worker 0
    failed. *)
Lemma gdf_snmg_pagerank_impl_spec (srcs dests : list gdf_column)
  (col col' : gdf_column) (n_gpus : Z) (damping_factor : spec_float)
  (n_iter : Z) (m m' : machine) (e : gdf_error) :
  0 < n_gpus →
  gdf_snmg_pagerank_impl VT IT srcs dests col n_gpus damping_factor n_iter m
  = Ret (e, col', m') →
  ∃ dest src n,
    index dests 0 = Some dest ∧ index srcs 0 = Some src ∧
    let r := gdf_snmg_coo2csr 0 (mem m) dest src in
    index (csr_part_offset r) n_gpus = Some n ∧
    dtype col' = GDF_FLOAT32 ∧ size col' = n ∧
    (csr_status r ≠ GDF_SUCCESS → e ≠ GDF_SUCCESS).
Proof.
  intros Hn. unfold gdf_snmg_pagerank_impl.
  intros ([sh' m1] & H & [= <- <- <-])%bind_Ret.
  rewrite (seqZ_cons 0 n_gpus) in H by lia. cbn [foldl] in H.
  pose proof H as [[sh0 m0] H0]%workers_not_Ret.
  rewrite H0 in H. apply workers_spec in H as [Hcol Hstatus].
  apply worker_spec in H0 as (dest & src & n & Hdest & Hsrc & _ & Hst & Hidx & Hpub).
  simpl in *. exists dest, src, n.
  rewrite Hcol by (rewrite elem_of_seqZ; lia).
  destruct Hpub as [-> ->]. split_and!; try done.
  intros Hfail. apply Hstatus. rewrite Hst. by destruct (decide _).
Qed.
End DriverSpec.

(** ** Validation *)

Lemma check_device_spec {St} (src dest : gdf_column)
  (k : outcome St (option gdf_error)) :
  (check_device src dest k = k ∧
   ¬ length_mismatch src dest ∧ ¬ type_unsupported src dest ∧
   ¬ has_nulls src dest) ∨
  (∃ e, check_device src dest k = Ret (Some e) ∧ reported e src dest).
Proof.
  unfold check_device, GDF_REQUIRE, length_mismatch, type_unsupported, has_nulls.
  repeat case_bool_decide;
    destruct (Z.eqb_spec (null_count src) 0);
    destruct (Z.eqb_spec (null_count dest) 0);
    try (left; split; [done|]; intuition congruence);
    right; eexists; (split; [done|]); simpl;
    unfold length_mismatch, type_unsupported, has_nulls; intuition congruence.
Qed.

Lemma check_devices_spec {St} (srcs dests : list gdf_column) (l : list Z) :
  (∀ i, i ∈ l → is_Some (index srcs i) ∧ is_Some (index dests i)) →
  (@check_devices St srcs dests l = Ret None ∧
   ∀ i src dest, i ∈ l → index srcs i = Some src → index dests i = Some dest →
     ¬ length_mismatch src dest ∧ ¬ type_unsupported src dest ∧
     ¬ has_nulls src dest) ∨
  (∃ e i src dest,
     @check_devices St srcs dests l = Ret (Some e) ∧ i ∈ l ∧
     index srcs i = Some src ∧ index dests i = Some dest ∧
     reported e src dest).
Proof.
  induction l as [|i l IH]; intros Hl; simpl.
  - left. split; [done|]. intros i src dest Hi. by apply elem_of_nil in Hi.
  - destruct (Hl i ltac:(left)) as [[src Hsrc] [dest Hdest]].
    rewrite Hsrc, Hdest. simpl.
    destruct (check_device_spec (St := St) src dest (check_devices srcs dests l))
      as [(-> & Hok)|(e & -> & He)].
    + destruct IH as [[-> Hrest]|(e & j & s & d & -> & Hj & ? & ? & ?)].
      { intros j Hj. apply Hl. by right. }
      * left. split; [done|].
        intros j s d [->|Hj]%elem_of_cons Hs Hd; [|by eapply Hrest].
        by replace s with src by congruence; replace d with dest by congruence.
      * right. exists e, j, s, d. split_and!; try done. by right.
    + right. exists e, i, src, dest. split_and!; try done. by left.
Qed.

Section EntrySpec.
Context {C : Collaborators}.
Hypothesis Hdev_count : 0 ≤ dev_count < 2 ^ 31 - 1.

Lemma scalar_checks_spec (n_gpus : Z) (damping_factor : spec_float) (n_iter : Z) :
  scalar_checks n_gpus damping_factor n_iter = true
  ↔ ¬ bad_arguments n_gpus damping_factor n_iter.
Proof.
  unfold scalar_checks, bad_arguments, in_open_unit_interval.
  assert (to_size_t (to_int (dev_count + 1)) = dev_count + 1) as ->.
  { rewrite to_int_small by lia. unfold to_size_t. apply Z.mod_small. lia. }
  rewrite !andb_true_iff, !Z.ltb_lt.
  destruct (SFltb lit_0_0 _), (SFltb _ lit_1_0); split; intros H;
    intuition (try lia; congruence).
Qed.

Lemma validate_eq (srcs dests : list gdf_column) (col : gdf_column)
  (n_gpus : Z) (damping_factor : spec_float) (n_iter : Z) :
  validate (Some srcs) (Some dests) (Some col) n_gpus damping_factor n_iter
  = if scalar_checks n_gpus damping_factor n_iter
    then check_devices srcs dests (seqZ 0 n_gpus)
    else Ret (Some GDF_INVALID_API_CALL).
Proof.
  unfold validate, scalar_checks, GDF_REQUIRE. simpl.
  destruct (SFltb lit_0_0 _), (SFltb _ lit_1_0), (0 <? n_iter), (0 <? n_gpus),
    (n_gpus <? _); done.
Qed.

(** The statuses of validation by kind of violation: every status
    leaves the machine and the output column untouched; a null pointer
    or a bad scalar argument gives [GDF_INVALID_API_CALL]; otherwise the
    status reports a violated precondition of some device, and when
    the violations on all devices are of one kind the status is the one
    of that kind; when every check holds the call is the one of the
    engine. *)
Lemma validation_by_kind (srcs dests : list gdf_column)
  (col : gdf_column) (n_gpus : Z) (damping_factor : spec_float) (n_iter : Z)
  (m : machine) :
  (0 < n_gpus ≤ dev_count →
   n_gpus ≤ Z.of_nat (length srcs) ∧ n_gpus ≤ Z.of_nat (length dests)) →
  let run := gdf_snmg_pagerank (Some srcs) (Some dests) (Some col) n_gpus
               damping_factor n_iter m in
  let bad := bad_arguments n_gpus damping_factor n_iter in
  let mismatch := on_some_device srcs dests n_gpus length_mismatch in
  let unsupported := on_some_device srcs dests n_gpus type_unsupported in
  let nulls := on_some_device srcs dests n_gpus has_nulls in
  (∀ s d c, s = None ∨ d = None ∨ c = None →
     gdf_snmg_pagerank s d c n_gpus damping_factor n_iter m
     = Ret (GDF_INVALID_API_CALL, c, m)) ∧
  (bad → run = Ret (GDF_INVALID_API_CALL, Some col, m)) ∧
  (¬ bad → mismatch ∨ unsupported ∨ nulls →
     ∃ e, run = Ret (e, Some col, m) ∧
          on_some_device srcs dests n_gpus (reported e)) ∧
  (¬ bad → mismatch → ¬ unsupported → ¬ nulls →
     run = Ret (GDF_COLUMN_SIZE_MISMATCH, Some col, m)) ∧
  (¬ bad → unsupported → ¬ mismatch → ¬ nulls →
     run = Ret (GDF_UNSUPPORTED_DTYPE, Some col, m)) ∧
  (¬ bad → nulls → ¬ mismatch → ¬ unsupported →
     run = Ret (GDF_VALIDITY_UNSUPPORTED, Some col, m)) ∧
  (¬ bad → ¬ mismatch → ¬ unsupported → ¬ nulls →
     run = ('(status, c, m') ← gdf_snmg_pagerank_impl Float32 Int32 srcs dests
                                col n_gpus damping_factor n_iter m;
            Ret (status, Some c, m'))).
Proof.
  intros Harrays run bad mismatch unsupported nulls.
  assert (∀ s d c, s = None ∨ d = None ∨ c = None →
            gdf_snmg_pagerank s d c n_gpus damping_factor n_iter m
            = Ret (GDF_INVALID_API_CALL, c, m)) as Hnull.
  { intros [s|] [d|] [c|] [|[|]]; done. }
  assert (bad → run = Ret (GDF_INVALID_API_CALL, Some col, m)) as Hbad.
  { intros Hb. unfold run, gdf_snmg_pagerank. rewrite validate_eq.
    destruct (scalar_checks _ _ _) eqn:Hs; [|done].
    by apply scalar_checks_spec in Hs. }
  assert (¬ bad →
          (run = ('(status, c, m') ← gdf_snmg_pagerank_impl Float32 Int32 srcs
                                       dests col n_gpus damping_factor n_iter m;
                  Ret (status, Some c, m')) ∧
           ¬ mismatch ∧ ¬ unsupported ∧ ¬ nulls) ∨
          (∃ e, run = Ret (e, Some col, m) ∧
                on_some_device srcs dests n_gpus (reported e))) as Hcases.
  { intros Hok. pose proof Hok as Hs%scalar_checks_spec.
    assert (0 < n_gpus ≤ dev_count) as Hn.
    { destruct (decide (0 < n_gpus ≤ dev_count)); [done|exfalso].
      apply Hok. by right; right. }
    destruct (Harrays Hn) as [Hsrcs Hdests].
    unfold run, gdf_snmg_pagerank. rewrite validate_eq, Hs.
    destruct (check_devices_spec (St := SNMGpagerank * machine) srcs dests
                (seqZ 0 n_gpus))
      as [[-> Hall]|(e & i & src & dest & -> & Hi & Hsrc & Hdest & He)].
    - intros i Hi%elem_of_seqZ. unfold index.
      destruct (Z.leb_spec 0 i); [|lia].
      split; apply lookup_lt_is_Some; lia.
    - left. split; [done|].
      split_and!; intros (i & src & dest & Hi & Hsrc & Hdest & HP);
        destruct (Hall i src dest) as (? & ? & ?); try done;
        apply elem_of_seqZ; lia.
    - right. exists e. split; [done|]. exists i, src, dest.
      apply elem_of_seqZ in Hi. split_and!; [lia..|done|done|done]. }
  split_and!; try done.
  - intros Hok Hany. destruct (Hcases Hok) as [(_ & ? & ? & ?)|?]; [|done].
    by destruct Hany as [|[|]].
  - intros Hok Hm Hu Hn. destruct (Hcases Hok) as [(_ & ? & _)|(e & -> & He)];
      [done|].
    destruct He as (i & src & dest & ? & ? & ? & He).
    destruct e; try done; exfalso; [apply Hu | apply Hn]; by exists i, src, dest.
  - intros Hok Hu Hm Hn. destruct (Hcases Hok) as [(_ & _ & ? & _)|(e & -> & He)];
      [done|].
    destruct He as (i & src & dest & ? & ? & ? & He).
    destruct e; try done; exfalso; [apply Hm | apply Hn]; by exists i, src, dest.
  - intros Hok Hn Hm Hu. destruct (Hcases Hok) as [(_ & _ & _ & ?)|(e & -> & He)];
      [done|].
    destruct He as (i & src & dest & ? & ? & ? & He).
    destruct e; try done; exfalso; [apply Hu | apply Hm]; by exists i, src, dest.
  - intros Hok Hm Hu Hn. destruct (Hcases Hok) as [(? & _)|(e & _ & He)];
      [done|exfalso].
    destruct He as (i & src & dest & ? & ? & ? & He).
    destruct e; try done; [apply Hu | apply Hm | apply Hn]; by exists i, src, dest.
Qed.
End EntrySpec.

Section Precision.
Context {C : Collaborators}.

Lemma check_devices_status {St} (srcs dests : list gdf_column) (l : list Z)
  (e : gdf_error) :
  @check_devices St srcs dests l = Ret (Some e) → e ≠ GDF_SUCCESS.
Proof.
  induction l as [|i l IH]; simpl; [done|].
  destruct (index srcs i) as [src|]; [|done].
  destruct (index dests i) as [dest|]; [|done]. simpl.
  destruct (check_device_spec (St := St) src dest (check_devices srcs dests l))
    as [(-> & _)|(e' & -> & He')]; [done|].
  intros [= <-]. by destruct e'.
Qed.

Lemma validate_status s d c (n_gpus : Z) (damping_factor : spec_float)
  (n_iter : Z) (v : option gdf_error) :
  validate s d c n_gpus damping_factor n_iter = Ret v →
  match v with
  | Some e => e ≠ GDF_SUCCESS
  | None => 0 < n_gpus ∧ non_null s = true ∧ non_null d = true ∧
            non_null c = true
  end.
Proof.
  unfold validate, GDF_REQUIRE.
  destruct (non_null s); [|intros [= <-]; done].
  destruct (non_null d); [|intros [= <-]; done].
  destruct (non_null c); [|intros [= <-]; done].
  destruct (SFltb lit_0_0 _); [|intros [= <-]; done].
  destruct (SFltb _ lit_1_0); [|intros [= <-]; done].
  destruct (0 <? n_iter); [|intros [= <-]; done].
  destruct (Z.ltb_spec 0 n_gpus); [|intros [= <-]; done].
  destruct (n_gpus <? _); [|intros [= <-]; done].
  destruct v as [e|]; [apply check_devices_status | done].
Qed.

(** C10. The entry point runs the driver for [int] indices and [float]
    values and no other, once validation has passed; a call that
    returns has either failed validation, leaving the column as it was,
    or published a column whose [dtype] is [GDF_FLOAT32]. The driver
    writes that [dtype] whatever value type it is instantiated with. *)
Theorem entry_computes_in_single_precision :
  (∀ s d c n_gpus damping_factor n_iter m,
     gdf_snmg_pagerank s d c n_gpus damping_factor n_iter m
     = (v ← validate s d c n_gpus damping_factor n_iter;
        match v, s, d, c with
        | Some e, _, _, _ => Ret (e, c, m)
        | None, Some srcs, Some dests, Some col =>
            '(status, col', m') ← gdf_snmg_pagerank_impl Float32 Int32 srcs
                                    dests col n_gpus damping_factor n_iter m;
            Ret (status, Some col', m')
        | None, _, _, _ => Fault
        end)) ∧
  (∀ s d c n_gpus damping_factor n_iter m e c' m',
     gdf_snmg_pagerank s d c n_gpus damping_factor n_iter m = Ret (e, c', m') →
     (e ≠ GDF_SUCCESS ∧ c' = c ∧ m' = m) ∨
     (∃ col', c' = Some col' ∧ dtype col' = GDF_FLOAT32)) ∧
  (∀ VT IT srcs dests col n_gpus damping_factor n_iter m e col' m',
     0 < n_gpus →
     gdf_snmg_pagerank_impl VT IT srcs dests col n_gpus damping_factor n_iter m
     = Ret (e, col', m') →
     dtype col' = GDF_FLOAT32).
Proof.
  split_and!.
  - intros s d c n_gpus damping_factor n_iter m. unfold gdf_snmg_pagerank.
    by destruct (validate _ _ _ _ _ _) as [[e|]| |], s, d, c.
  - intros s d c n_gpus damping_factor n_iter m e c' m'.
    unfold gdf_snmg_pagerank.
    intros (v & Hv%validate_status & H)%bind_Ret.
    destruct v as [e'|].
    + injection H as <- <- <-. by left.
    + destruct Hv as (Hn & _). destruct s as [srcs|], d as [dests|], c as [col|];
        try done.
      apply bind_Ret in H as ([[e' col'] m1] & Himpl & [= <- <- <-]).
      right. exists col'. split; [done|].
      by apply gdf_snmg_pagerank_impl_spec in Himpl as (? & ? & ? & ? & ? & ? & ? & _).
  - intros VT IT srcs dests col n_gpus damping_factor n_iter m e col' m' Hn H.
    by apply gdf_snmg_pagerank_impl_spec in H as (? & ? & ? & ? & ? & ? & ? & _).
Qed.
End Precision.

(** ** Footprints *)

Lemma modifies_refl ps h : modifies ps h h.
Proof. by split. Qed.

Lemma modifies_trans ps h1 h2 h3 :
  modifies ps h1 h2 → modifies ps h2 h3 → modifies ps h1 h3.
Proof.
  intros [Hf1 Hd1] [Hf2 Hd2]. split.
  - intros q Hq. by rewrite Hf2, Hf1.
  - auto.
Qed.

Lemma modifies_weaken ps ps' h h' :
  ps ⊆ ps' → modifies ps h h' → modifies ps' h h'.
Proof.
  intros Hsub [Hf Hd]. split; [|done]. intros q Hq. apply Hf.
  intros Hin. by apply Hq, Hsub.
Qed.

(** The members of a short list are members of a longer one. *)
Ltac solve_sublist :=
  let x := fresh in
  intros x; rewrite ?elem_of_cons, ?elem_of_nil; tauto.

Lemma store_cells_modifies p cs (h h' : gmap ptr (list cell)) :
  store_cells p cs h = Some h' → modifies [p] h h'.
Proof.
  intros (buf & Hbuf & _ & ->)%store_cells_lookup. split.
  - intros q Hq. rewrite lookup_insert_ne; [done|].
    intros <-. apply Hq. by left.
  - intros q Hq. destruct (decide (p = q)) as [->|];
      [by rewrite lookup_insert_eq | by rewrite lookup_insert_ne].
Qed.

Lemma store_cell_modifies p i c (h h' : gmap ptr (list cell)) :
  store_cell p i c h = Some h' → modifies [p] h h'.
Proof.
  intros (buf & Hbuf & _ & ->)%store_cell_spec. split.
  - intros q Hq. rewrite lookup_insert_ne; [done|].
    intros <-. apply Hq. by left.
  - intros q Hq. destruct (decide (p = q)) as [->|];
      [by rewrite lookup_insert_eq | by rewrite lookup_insert_ne].
Qed.

Lemma scal_modifies T n a p (h h' : gmap ptr (list cell)) :
  scal T n a p h = Some h' → modifies [p] h h'.
Proof.
  unfold scal. intros H. destruct (load_vals h n p); [|done].
  by eapply store_cells_modifies.
Qed.

Lemma addv_modifies T n a p (h h' : gmap ptr (list cell)) :
  addv T n a p h = Some h' → modifies [p] h h'.
Proof.
  unfold addv. intros H. destruct (load_vals h n p); [|done].
  by eapply store_cells_modifies.
Qed.

Lemma flag_leafs_kernel_modifies T n d p (h h' : gmap ptr (list cell)) :
  flag_leafs_kernel T n d p h = Some h' → modifies [p] h h'.
Proof.
  unfold flag_leafs_kernel. intros H.
  destruct (load_ints h n d); [|done]. destruct (load_vals h n p); [|done].
  by eapply store_cells_modifies.
Qed.

Lemma update_dangling_nodes_modifies T n p a (h h' : gmap ptr (list cell)) :
  update_dangling_nodes T n p a h = Some h' → modifies [p] h h'.
Proof.
  unfold update_dangling_nodes. intros H. destruct (load_vals h n p); [|done].
  by eapply store_cells_modifies.
Qed.

Lemma transition_thread_modifies T (fuel : nat) e ind degree val s :
  ∀ i (h h' : gmap ptr (list cell)),
    transition_thread T fuel e ind degree val s i h = Some h' →
    modifies [val] h h'.
Proof.
  induction fuel as [|fuel IH]; intros i h h' H; simpl in H;
    destruct (i <? e); try discriminate;
    try (injection H as <-; apply modifies_refl).
  destruct (load_int h ind i) as [c|]; [|done]. simpl in H.
  destruct (load_int h degree c) as [d|]; [|done]. simpl in H.
  destruct (store_cell val i _ h) as [h1|] eqn:Hst; [|done]. simpl in H.
  eapply modifies_trans; [by eapply store_cell_modifies | by eapply IH].
Qed.

Lemma transition_kernel_modifies T gridDim blockDim e ind degree val
  (h h' : gmap ptr (list cell)) :
  transition_kernel T gridDim blockDim e ind degree val h = Some h' →
  modifies [val] h h'.
Proof.
  unfold transition_kernel. generalize (grid gridDim blockDim). intros l.
  revert h. induction l as [|bt l IH]; intros h H; cbn [foldl] in H.
  - injection H as <-. apply modifies_refl.
  - change (Some h ≫= ?f) with (f h) in H. cbv beta in H.
    destruct (transition_thread _ _ _ _ _ _ _ _ h) as [h1|] eqn:Hthread.
    + eapply modifies_trans; [by eapply transition_thread_modifies|].
      by apply IH.
    + by rewrite foldl_option_None in H.
Qed.

Section SetupFootprint.
Context {C : Collaborators}.
Variable T : value_type.
Variable IT : index_type.

Lemma transition_vals_modifies (this : SNMGpagerank) (degree : ptr)
  (m m' : machine) :
  transition_vals T IT this degree m = Ret m' →
  ∃ h', m' = set_mem h' m ∧ modifies [val this] (mem m) h'.
Proof.
  unfold transition_vals. destruct (launch_ok _ _); [|done].
  intros (h' & H & ->)%on_mem_Ret. exists h'. split; [done|].
  by eapply transition_kernel_modifies.
Qed.

(** [setup] changes the bookmark and the transition values only; the
    degree vector it allocates is released before it returns. *)
Lemma setup_modifies (a : spec_float) (this this' : SNMGpagerank)
  (m m' : machine) :
  setup T IT a this m = Ret (this', m') →
  this' = set_is_setup true (set_alpha a this) ∧
  pagerank m' = pagerank m ∧
  modifies [bookmark this; val this] (mem m) (mem m').
Proof.
  unfold setup. destruct (is_setup this); [done|]. cbn [negb]. cbv zeta.
  destruct (ALLOC_TRY _ m) as [degree_loc m1] eqn:Halloc.
  apply ALLOC_TRY_spec in Halloc as (_ & Hfresh & Hm1 & Hd1 & Hp1).
  intros H.
  apply bind_Ret in H as (? & _ & H).
  apply bind_Ret in H as (offs & _ & H).
  apply bind_Ret in H as (inds & _ & H).
  destruct (snmg_degree _ _ _ _) as [deg|]; [|done].
  apply bind_Ret in H as (m2 & (h2 & Hst%store_cells_modifies & ->)%on_mem_Ret & H).
  apply bind_Ret in H as (m3 & (h3 & Hfill%store_cells_modifies & ->)%on_mem_Ret & H).
  apply bind_Ret in H
    as (m4 & (h4 & Hflag%flag_leafs_kernel_modifies & ->)%flag_leafs_Ret & H).
  apply bind_Ret in H as (a' & _ & H).
  apply bind_Ret in H
    as (m5 & (h5 & Hupd%update_dangling_nodes_modifies & ->)%on_mem_Ret & H).
  apply bind_Ret in H as (m6 & (h6 & -> & Htv)%transition_vals_modifies & H).
  injection H as <- <-. simpl in *.
  split_and!; [done..|].
  assert (modifies [degree_loc; bookmark this; val this] (mem m1) h6) as [Hf Hd].
  { pose (ps := [degree_loc; bookmark this; val this]).
    apply (modifies_weaken _ ps) in Hst; [|unfold ps; solve_sublist].
    apply (modifies_weaken _ ps) in Hfill; [|unfold ps; solve_sublist].
    apply (modifies_weaken _ ps) in Hflag; [|unfold ps; solve_sublist].
    apply (modifies_weaken _ ps) in Hupd; [|unfold ps; solve_sublist].
    apply (modifies_weaken _ ps) in Htv; [|unfold ps; solve_sublist].
    eauto using modifies_trans. }
  unfold ALLOC_FREE_TRY. simpl. split.
  - intros q Hq. destruct (decide (q = degree_loc)) as [->|Hne].
    + by rewrite lookup_delete_eq.
    + apply not_elem_of_cons in Hq as [? [? _]%not_elem_of_cons].
      rewrite lookup_delete_ne, Hf, Hm1, lookup_insert_ne; try done.
      rewrite !not_elem_of_cons. split_and!; [done..|apply not_elem_of_nil].
  - intros q Hq. assert (q ≠ degree_loc) by (intros ->; rewrite Hfresh in Hq; by destruct Hq).
    rewrite lookup_delete_ne by done. apply Hd.
    by rewrite Hm1, lookup_insert_ne.
Qed.
End SetupFootprint.

Section SolveFootprint.
Context {C : Collaborators}.
Variable T : value_type.

Lemma only_writes_modifies p m m' :
  only_writes p m m' → is_Some (mem m' !! p) → modifies [p] (mem m) (mem m').
Proof.
  intros (Hf & _ & _) Hp. split.
  - intros q Hq. apply Hf. intros ->. apply Hq. by left.
  - intros q Hq. destruct (decide (q = p)) as [->|]; [done|]. by rewrite Hf.
Qed.

Lemma scal_result n a p (h h' : gmap ptr (list cell)) :
  scal T n a p h = Some h' →
  ∃ ys rest, h' !! p = Some ((Val <$> ys) ++ rest) ∧ length ys = Z.to_nat n.
Proof.
  unfold scal. intros H.
  destruct (load_vals h n p) as [xs|] eqn:Hxs; [|done]. simpl in H.
  apply load_vals_Some in Hxs as (buf & _ & Hlen & Htake).
  apply store_cells_lookup in H as (buf' & _ & _ & ->).
  eexists _, _. rewrite lookup_insert_eq. split; [done|].
  rewrite length_fmap. by eapply take_fmap_length.
Qed.

(** A call of [solve] that returns has run on a set-up solver, has
    written the pagerank vector only, and leaves [v_glob] values at the
    start of that vector. *)
Lemma solve_result (max_iter : Z) (this this' : SNMGpagerank) (m m' : machine)
  (pr : ptr) :
  index (pagerank m) (id this) = Some pr →
  solve T max_iter this m = Ret (this', m') →
  this' = this ∧ pagerank m' = pagerank m ∧
  modifies [pr] (mem m) (mem m') ∧
  ∃ ys rest, mem m' !! pr = Some ((Val <$> ys) ++ rest) ∧
             length ys = Z.to_nat (v_glob this).
Proof.
  intros Hpr H. unfold solve in H.
  destruct (is_setup this); [|done]. rewrite Hpr in H. simpl in H.
  apply bind_Ret in H as (st0 & H0%solve_init_only_writes & H).
  apply bind_Ret in H as (st1 & H1 & H).
  apply bind_Ret in H as (m1 & H2 & H).
  injection H as <- <-.
  rewrite (solve_loop_iter T this pr max_iter _ 0 st0 eq_refl) in H1.
  apply iter_body_only_writes in H1.
  pose proof H2 as Hw%solve_final_only_writes.
  assert (only_writes pr m m1) as Hall by eauto using only_writes_trans.
  unfold solve_final in H2.
  apply bind_Ret in H2 as (nrm & _ & (h & Hscal & ->)%on_mem_Ret).
  apply scal_result in Hscal as (ys & rest & Hys & Hlen). simpl in *.
  split_and!; try done.
  - by destruct Hall as (_ & _ & ?).
  - apply (only_writes_modifies pr m (set_mem h st1.2)); [done|].
    simpl. by rewrite Hys.
  - eauto.
Qed.
End SolveFootprint.

(** ** The memory of a worker *)

Lemma modifies_insert_fresh p l (h : gmap ptr (list cell)) :
  h !! p = None → modifies [p] h (<[p := l]> h).
Proof.
  intros Hp. split.
  - intros q Hq. rewrite lookup_insert_ne; [done|]. intros <-. apply Hq. by left.
  - intros q Hq. rewrite lookup_insert_ne; [done|]. intros <-.
    rewrite Hp in Hq. by destruct Hq.
Qed.

Lemma csr_column_spec (o : option (list Z)) (m m1 : machine) (col : gdf_column) :
  csr_column o m = (col, m1) →
  modifies [data col] (mem m) (mem m1) ∧
  mem m1 !! nullptr = mem m !! nullptr ∧
  (data col = nullptr ∨
   mem m !! data col = None ∧ is_Some (mem m1 !! data col)).
Proof.
  unfold csr_column. destruct o as [l|].
  - destruct (ALLOC_TRY _ m) as [p m0] eqn:Halloc.
    apply ALLOC_TRY_spec in Halloc as (? & Hfresh & Hm0 & ? & ?).
    intros [= <- <-]. simpl. rewrite Hm0, insert_insert_eq.
    split_and!.
    + by apply modifies_insert_fresh.
    + by rewrite lookup_insert_ne.
    + right. by rewrite lookup_insert_eq.
  - intros [= <- <-]. split_and!; [apply modifies_refl|done|by left].
Qed.

Lemma modifies_lookup ps (h h' : gmap ptr (list cell)) x :
  modifies ps h h' → x ∉ ps → h' !! x = h !! x.
Proof. intros [Hf _]. apply Hf. Qed.

Lemma modifies_is_Some ps (h h' : gmap ptr (list cell)) x :
  modifies ps h h' → is_Some (h !! x) → is_Some (h' !! x).
Proof. intros [_ Hd]. apply Hd. Qed.

Lemma fresh_ne (h : gmap ptr (list cell)) p x :
  h !! p = None → is_Some (h !! x) → x ≠ p.
Proof. intros Hp Hx ->. rewrite Hp in Hx. by destruct Hx. Qed.

Lemma not_elem_of_1 (x p : ptr) : x ≠ p → x ∉ [p].
Proof. intros Hne [->|[]%elem_of_nil]%elem_of_cons. done. Qed.

Lemma not_elem_of_2 (x p q : ptr) : x ≠ p → x ≠ q → x ∉ [p; q].
Proof. intros ? ? [->|[->|[]%elem_of_nil]%elem_of_cons]%elem_of_cons; done. Qed.

Lemma ALLOC_TRY_modifies (n : Z) (m m' : machine) (p : ptr) :
  ALLOC_TRY n m = (p, m') →
  p ≠ nullptr ∧ mem m !! p = None ∧
  mem m' !! p = Some (replicate (Z.to_nat n) Undef) ∧
  modifies [p] (mem m) (mem m') ∧
  degree m' = degree m ∧ pagerank m' = pagerank m.
Proof.
  intros (? & Hfresh & Hm & ? & ?)%ALLOC_TRY_spec. rewrite Hm.
  split_and!; try done; [by rewrite lookup_insert_eq|].
  by apply modifies_insert_fresh.
Qed.

Lemma cudaMemcpy_result dst src n (h h' : gmap ptr (list cell)) ys rest :
  dst ≠ src →
  h !! src = Some ((Val <$> ys) ++ rest) →
  length ys = Z.to_nat n →
  h !! dst = Some (replicate (Z.to_nat n) Undef) →
  cudaMemcpy dst src n h = Some h' →
  h' = <[dst := Val <$> ys]> h.
Proof.
  intros Hne Hsrc Hlen Hdst. unfold cudaMemcpy. rewrite Hsrc. simpl.
  destruct (guard _) as [?|]; [|done]. simpl.
  rewrite take_app_length' by (by rewrite length_fmap).
  intros (buf & Hbuf & _ & ->)%store_cells_lookup.
  rewrite Hdst in Hbuf. injection Hbuf as <-.
  rewrite length_fmap, Hlen, drop_replicate, Nat.sub_diag, app_nil_r. done.
Qed.

Section WorkerMemory.
Context {C : Collaborators}.
Variable VT : value_type.
Variable IT : index_type.

Lemma worker_memory (srcs dests : list gdf_column) (n_gpus : Z)
  (damping_factor : spec_float) (n_iter : Z) (sh sh' : shared) (m m' : machine)
  (i : Z) :
  mem m !! nullptr = None →
  worker VT IT srcs dests n_gpus damping_factor n_iter (sh, m) i = Ret (sh', m') →
  mem m' !! nullptr = None ∧
  (∀ x, is_Some (mem m !! x) → mem m' !! x = mem m !! x) ∧
  (i = 0 →
   ∃ ys, mem m' !! data (pr_col sh') = Some (Val <$> ys) ∧
         length ys = Z.to_nat (size (pr_col sh'))).
Proof.
  intros Hnull. unfold worker. intros H.
  apply bind_Ret in H as (dest & _ & H).
  apply bind_Ret in H as (src & _ & H).
  set (r := gdf_snmg_coo2csr i (mem m) dest src) in *.
  destruct (csr_column (csr_off r) m) as [col_off m1] eqn:Hoff.
  destruct (csr_column (csr_ind r) m1) as [col_ind m2] eqn:Hind.
  apply csr_column_spec in Hoff. apply csr_column_spec in Hind.
  set (po := part_offset _) in *.
  apply bind_Ret in H as ([s m3] & Hnew & H).
  apply new_SNMGpagerank_spec in Hnew
    as (_ & _ & _ & _ & Hid & _ & Hvg & _ & _ & Fb & Fv & Hbv & Hm3 & _ & _
        & Hbn & Hvn).
  apply bind_Ret in H as ([s' m4] & (-> & _ & S34)%setup_modifies & H).
  apply bind_Ret in H as (n & Hn%lift_Ret & H).
  destruct (ALLOC_TRY n m4) as [q m5] eqn:Hq.
  apply ALLOC_TRY_modifies in Hq as (Hqn & Fq & _ & S45 & _ & _).
  apply bind_Ret in H as (? & Hslot%lift_Ret & H).
  apply bind_Ret in H as ([s'' m6] & Hsolve & H).
  apply solve_result with (pr := q) in Hsolve
    as (-> & _ & S56 & ys & rest & Hys & Hlen).
  2:{ simpl. rewrite Hid. simpl. unfold index in *.
      destruct (Z.leb_spec 0 i); [|done].
      apply list_lookup_insert_eq. by eapply lookup_lt_Some. }
  simpl in Hys, Hlen, S56, S45, Hslot.
  assert (v_glob s = n) as Hvn' by congruence.
  assert (modifies [bookmark s; val s] (mem m2) (mem m3)) as S23.
  { rewrite Hm3. split.
    - intros y [Hy1 [Hy2 _]%not_elem_of_cons]%not_elem_of_cons.
      by rewrite !lookup_insert_ne.
    - intros y Hy. rewrite !lookup_insert_ne; [done|..];
        intros <-; [rewrite Fb in Hy|rewrite Fv in Hy]; by destruct Hy. }
  assert (is_Some (mem m3 !! bookmark s)) as Ab
    by (rewrite Hm3, lookup_insert_ne, lookup_insert_eq; done).
  assert (is_Some (mem m3 !! val s)) as Av
    by (rewrite Hm3, lookup_insert_eq; done).
  destruct Hoff as (S01 & N1 & F1). destruct Hind as (S12 & N2 & F2).
  (* the blocks of the worker at the time the master block starts *)
  assert (∀ y, is_Some (mem m !! y) →
               is_Some (mem m6 !! y) ∧ mem m6 !! y = mem m !! y ∧
               y ≠ nullptr ∧ y ≠ data col_off ∧ y ≠ data col_ind ∧
               y ≠ bookmark s ∧ y ≠ val s ∧ y ≠ q) as Hold.
  { intros y Hy.
    assert (y ≠ nullptr) by (by eapply fresh_ne).
    assert (y ≠ data col_off)
      by (destruct F1 as [->|[? _]]; [done|by eapply fresh_ne]).
    pose proof (modifies_is_Some _ _ _ y S01 Hy) as Hy1.
    assert (y ≠ data col_ind)
      by (destruct F2 as [->|[? _]]; [done|by eapply fresh_ne]).
    pose proof (modifies_is_Some _ _ _ y S12 Hy1) as Hy2.
    assert (y ≠ bookmark s) by (by eapply fresh_ne).
    assert (y ≠ val s) by (by eapply fresh_ne).
    pose proof (modifies_is_Some _ _ _ y S23 Hy2) as Hy3.
    pose proof (modifies_is_Some _ _ _ y S34 Hy3) as Hy4.
    assert (y ≠ q) by (by eapply fresh_ne).
    pose proof (modifies_is_Some _ _ _ y S45 Hy4) as Hy5.
    pose proof (modifies_is_Some _ _ _ y S56 Hy5) as Hy6.
    split_and!; try done.
    rewrite (modifies_lookup _ _ _ y S56), (modifies_lookup _ _ _ y S45),
      (modifies_lookup _ _ _ y S34), (modifies_lookup _ _ _ y S23),
      (modifies_lookup _ _ _ y S12), (modifies_lookup _ _ _ y S01);
      auto using not_elem_of_1, not_elem_of_2. }
  assert (mem m6 !! nullptr = None) as Hnull6.
  { rewrite (modifies_lookup _ _ _ _ S56), (modifies_lookup _ _ _ _ S45),
      (modifies_lookup _ _ _ _ S34), (modifies_lookup _ _ _ _ S23), N2, N1;
      auto using not_elem_of_1, not_elem_of_2. }
  assert (is_Some (mem m6 !! bookmark s) ∧ is_Some (mem m6 !! val s) ∧
          is_Some (mem m6 !! q) ∧
          (data col_off = nullptr ∨ is_Some (mem m6 !! data col_off)) ∧
          (data col_ind = nullptr ∨ is_Some (mem m6 !! data col_ind)))
    as (Ab6 & Av6 & Aq6 & Ao6 & Ai6).
  { split_and!.
    - eauto using modifies_is_Some.
    - eauto using modifies_is_Some.
    - by rewrite Hys.
    - destruct F1 as [?|[_ ?]]; [by left|right]. eauto 10 using modifies_is_Some.
    - destruct F2 as [?|[_ ?]]; [by left|right]. eauto 10 using modifies_is_Some. }
  apply bind_Ret in H as ([sh1 m7] & Hmaster & H).
  injection H as <- <-.
  unfold delete_SNMGpagerank, gdf_col_delete, ALLOC_FREE_TRY. simpl.
  destruct (Z.eqb_spec i 0) as [->|Hi].
  - (* the master publishes the vector *)
    destruct (ALLOC_TRY n m6) as [d m7'] eqn:Hd.
    apply ALLOC_TRY_modifies in Hd as (Hdn & Fd & Hdblock & S67 & _ & _).
    apply bind_Ret in Hmaster as (m8 & (h8 & Hcopy & ->)%on_mem_Ret & Hmaster).
    injection Hmaster as <- <-. simpl.
    assert (d ≠ q) as Hdq by (apply not_eq_sym; by eapply fresh_ne).
    assert (mem m7' !! q = Some ((Val <$> ys) ++ rest)) as Hq7.
    { rewrite (modifies_lookup _ _ _ q S67); [done|].
      apply not_elem_of_1. by apply not_eq_sym. }
    rewrite Hvn' in Hlen.
    apply (cudaMemcpy_result _ _ _ _ _ ys rest Hdq Hq7 Hlen Hdblock) in Hcopy
      as ->.
    assert (∀ p, (p = nullptr ∨ is_Some (mem m6 !! p)) → d ≠ p) as Hdne.
    { intros p [->|Hp]; [done|]. apply not_eq_sym. by eapply fresh_ne. }
    split_and!.
    + rewrite !lookup_delete_None. do 5 right.
      rewrite lookup_insert_ne by done.
      rewrite (modifies_lookup _ _ _ _ S67); [done|by apply not_elem_of_1].
    + intros y Hy. destruct (Hold y Hy) as (Hy6 & <- & ? & ? & ? & ? & ? & ?).
      rewrite !lookup_delete_ne by done.
      rewrite lookup_insert_ne by (apply not_eq_sym; by eapply fresh_ne).
      apply (modifies_lookup _ _ _ y S67), not_elem_of_1.
      by eapply fresh_ne.
    + intros _. exists ys. split; [|done].
      rewrite !lookup_delete_ne by (apply not_eq_sym, Hdne; auto).
      by rewrite lookup_insert_eq.
  - injection Hmaster as <- <-. split_and!; [| |done].
    + rewrite !lookup_delete_None. by do 5 right.
    + intros y Hy. destruct (Hold y Hy) as (Hy6 & <- & ? & ? & ? & ? & ? & ?).
      by rewrite !lookup_delete_ne.
Qed.
End WorkerMemory.

Section DriverMemory.
Context {C : Collaborators}.
Variable VT : value_type.
Variable IT : index_type.

(** The workers leave the blocks they found as they were. *)
Lemma workers_memory (srcs dests : list gdf_column) (n_gpus : Z)
  (damping_factor : spec_float) (n_iter : Z) (l : list Z) :
  ∀ (sh sh' : shared) (m m' : machine),
    mem m !! nullptr = None →
    foldl (λ acc i, st ← acc;
             worker VT IT srcs dests n_gpus damping_factor n_iter st i)
          (Ret (sh, m)) l = Ret (sh', m') →
    mem m' !! nullptr = None ∧
    ∀ x, is_Some (mem m !! x) → mem m' !! x = mem m !! x.
Proof.
  induction l as [|i l IH]; intros sh sh' m m' Hnull H; cbn [foldl] in H.
  - by injection H as <- <-.
  - pose proof H as [[sh1 m1] H1]%workers_not_Ret.
    rewrite H1 in H.
    apply worker_memory in H1 as (Hnull1 & Hkeep1 & _); [|done].
    apply IH in H as [Hnull' Hkeep]; [|done].
    split; [done|]. intros x Hx.
    rewrite Hkeep, Hkeep1; [done..|]. rewrite Hkeep1; done.
Qed.

(** The column that a returning run of the driver publishes holds [size]
    values: the pagerank vector of worker 0. *)
Lemma gdf_snmg_pagerank_impl_memory (srcs dests : list gdf_column)
  (col col' : gdf_column) (n_gpus : Z) (damping_factor : spec_float)
  (n_iter : Z) (m m' : machine) (e : gdf_error) :
  0 < n_gpus →
  mem m !! nullptr = None →
  gdf_snmg_pagerank_impl VT IT srcs dests col n_gpus damping_factor n_iter m
  = Ret (e, col', m') →
  ∃ ys, mem m' !! data col' = Some (Val <$> ys) ∧
        length ys = Z.to_nat (size col').
Proof.
  intros Hn Hnull. unfold gdf_snmg_pagerank_impl.
  intros ([sh' m1] & H & [= <- <- <-])%bind_Ret.
  rewrite (seqZ_cons 0 n_gpus) in H by lia. cbn [foldl] in H.
  pose proof H as [[sh0 m0] H0]%workers_not_Ret.
  rewrite H0 in H.
  pose proof H as [Hcol _]%workers_spec.
  apply worker_memory in H0 as (Hnull0 & _ & Hpub); [|done].
  destruct (Hpub eq_refl) as (ys & Hys & Hlen).
  apply workers_memory in H as [_ Hkeep]; [|done].
  rewrite Hcol by (rewrite elem_of_seqZ; lia).
  exists ys. split; [|done]. rewrite Hkeep; [done|]. by rewrite Hys.
Qed.
End DriverMemory.

(** ** The transition kernel returns *)

Section KernelReturns.
Variable T : value_type.
Variables (e s : Z) (ind degree val : ptr).
Hypothesis Hind : val ≠ ind.
Hypothesis Hdegree : val ≠ degree.
Hypothesis Hs : 0 < s.
Hypothesis Hwrap : e + s ≤ 2 ^ 32.

Lemma kernel_ready_writes (h h' : gmap ptr (list cell)) :
  kernel_writes T ind degree val h h' →
  kernel_ready e ind degree val h → kernel_ready e ind degree val h'.
Proof.
  intros (Hf & Hl & _) (Hloads & vs & Hvs & Hlen). split.
  - intros j Hj. destruct (Hloads j Hj) as (c & d & Hc & Hd). exists c, d.
    rewrite (load_int_other h h' ind), (load_int_other h h' degree); auto.
  - destruct (Hl vs Hvs) as (vs' & Hvs' & Hlen'). exists vs'.
    split; [done|lia].
Qed.

(** With a unit of fuel for every index from [i] to [e] a thread ends. *)
Lemma transition_thread_returns (fuel : nat) :
  ∀ (i : Z) (h : gmap ptr (list cell)),
    0 ≤ i → e - i ≤ Z.of_nat fuel →
    kernel_ready e ind degree val h →
    is_Some (transition_thread T fuel e ind degree val s i h).
Proof.
  induction fuel as [|fuel IH]; intros i h Hi Hfuel Hready; simpl;
    destruct (Z.ltb_spec i e) as [Hlt|Hge]; try done; [lia|].
  pose proof Hready as (Hloads & vs & Hvs & Hlen).
  destruct (Hloads i ltac:(lia)) as (c & d & Hc & Hd).
  rewrite Hc. simpl. rewrite Hd. simpl.
  destruct (store_cell val i (Val (transition_value T d)) h) as [h1|] eqn:Hst.
  - simpl.
    assert (to_unsigned (i + s) = i + s) as ->
      by (unfold to_unsigned; apply Z.mod_small; lia).
    apply IH; [lia..|].
    eapply kernel_ready_writes; [|done].
    by eapply store_cell_kernel_writes.
  - unfold store_cell in Hst. rewrite Hvs in Hst. simpl in Hst.
    case_guard; [done|lia].
Qed.
End KernelReturns.

Section LaunchReturns.
Variable T : value_type.
Variables (gridDim blockDim e : Z) (ind degree val : ptr).
Hypothesis Hind : val ≠ ind.
Hypothesis Hdegree : val ≠ degree.
Hypothesis HgridDim : 0 < gridDim.
Hypothesis HblockDim : 0 < blockDim.
Hypothesis He : 0 ≤ e.
Hypothesis Hwrap : e + gridDim * blockDim < 2 ^ 32.

Lemma threads_return (l : list (Z * Z)) :
  ∀ (h : gmap ptr (list cell)),
    (∀ bt, bt ∈ l → 0 ≤ bt.1 < gridDim ∧ 0 ≤ bt.2 < blockDim) →
    kernel_ready e ind degree val h →
    is_Some
      (foldl (λ acc bt, h' ← acc;
                transition_thread T (Z.to_nat e) e ind degree val
                  (to_unsigned (gridDim * blockDim))
                  (to_unsigned (bt.2 + bt.1 * blockDim)) h')
             (Some h) l).
Proof.
  induction l as [|bt l IH]; intros h Hl Hready; cbn [foldl]; [done|].
  change (Some h ≫= ?f) with (f h). cbv beta.
  destruct (Hl bt ltac:(left)) as [Hb Ht].
  rewrite (stride_no_wrap gridDim blockDim e) by done.
  rewrite (first_index_no_wrap gridDim blockDim e) by done.
  assert (0 < gridDim * blockDim) by nia.
  assert (0 ≤ bt.2 + bt.1 * blockDim) by nia.
  assert (is_Some (transition_thread T (Z.to_nat e) e ind degree val
                     (gridDim * blockDim) (bt.2 + bt.1 * blockDim) h))
    as [h1 Hh1] by (apply transition_thread_returns; (done || lia)).
  rewrite Hh1.
  rewrite <- (stride_no_wrap gridDim blockDim e) by done.
  apply IH; [intros; apply Hl; by right|].
  apply (transition_thread_spec T e (gridDim * blockDim) ind degree val) in Hh1
    as [Hk _]; [|done|done|done|lia|done].
  by eapply kernel_ready_writes.
Qed.

Lemma transition_kernel_returns (h : gmap ptr (list cell)) :
  kernel_ready e ind degree val h →
  is_Some (transition_kernel T gridDim blockDim e ind degree val h).
Proof.
  intros Hready. apply threads_return; [|done].
  intros [b t] Hbt. by apply elem_of_grid in Hbt.
Qed.
End LaunchReturns.

Section Division.
Context {C : Collaborators}.
Variable T : value_type.
Variable IT : index_type.
Hypothesis HCUDA_MAX_BLOCKS : 0 < CUDA_MAX_BLOCKS ≤ 65535.

(** C9. [transition_vals] stores at an edge position the quotient
    [1.0 / degree[ind[i]]] without testing the degree: a zero degree
    gives an infinity. On a shard with at least one edge, when every
    column index of the shard has a positive entry in the degree vector,
    [transition_vals] returns, and at every edge position the divisor it
    used is that entry, which is not zero. *)
Theorem transition_divisors_nonzero (this : SNMGpagerank) (degree : ptr)
  (m : machine) :
  0 < e_loc this < 2 ^ 31 →
  0 < get_num_sm (env this) < 2 ^ 26 →
  val this ≠ ind this →
  val this ≠ degree →
  (∃ vs, mem m !! val this = Some vs ∧ e_loc this ≤ Z.of_nat (length vs)) →
  (∀ i, 0 ≤ i < e_loc this →
        ∃ c d, load_int (mem m) (ind this) i = Some c ∧
               load_int (mem m) degree c = Some d ∧ 0 < d) →
  transition_value T 0 = S754_infinity false ∧
  ∃ m', transition_vals T IT this degree m = Ret m' ∧
        ∀ i, 0 ≤ i < e_loc this →
             ∃ c d, load_int (mem m) (ind this) i = Some c ∧
                    load_int (mem m) degree c = Some d ∧
                    d ≠ 0 ∧
                    load (mem m') (val this) i
                    = Some (Val (convert T (vdiv Float64 lit_1_0 (of_Z Float64 d)))).
Proof.
  intros He Hsm Hvi Hvd Hval Hpos. split; [by destruct T|].
  assert (kernel_ready (e_loc this) (ind this) degree (val this) (mem m))
    as Hready.
  { split; [|done]. intros i Hi.
    destruct (Hpos i Hi) as (c & d & ? & ? & _). eauto. }
  assert (∃ m', transition_vals T IT this degree m = Ret m') as [m' Hm'].
  { unfold transition_vals.
    pose proof (blocks_bound IT HCUDA_MAX_BLOCKS (get_num_sm (env this)))
      as Hblocks.
    rewrite (to_index_small IT (e_loc this)) by lia.
    rewrite (to_int_small (Z.min _ 256)) by lia.
    rewrite (to_int_small (32 * _)) in * by lia.
    rewrite (to_index_small IT (32 * _)) in * by lia.
    rewrite (to_int_small (Z.min _ CUDA_MAX_BLOCKS)) in * by lia.
    unfold launch_ok.
    destruct (Z.ltb_spec 0 (Z.min (32 * get_num_sm (env this)) CUDA_MAX_BLOCKS));
      [|lia].
    destruct (Z.ltb_spec 0 (Z.min (e_loc this) 256)); [|lia]. simpl.
    set (blocks := Z.min _ CUDA_MAX_BLOCKS) in *.
    set (threads := Z.min _ 256) in *.
    assert (blocks * threads ≤ 65535 * 256) by nia.
    destruct (transition_kernel_returns T blocks threads (e_loc this) (ind this)
                degree (val this)) with (h := mem m) as [h' Hh'];
      try done; try lia.
    exists (set_mem h' m). unfold on_mem. by rewrite Hh'. }
  exists m'. split; [done|].
  apply (transition_vals_spec T IT HCUDA_MAX_BLOCKS) in Hm'
    as (h' & -> & _ & Hw); [|lia|done..].
  intros i Hi. destruct (Hw i Hi) as (c & d & Hc & Hd & Hv).
  exists c, d. split_and!; [done..| |done].
  destruct (Hpos i Hi) as (c' & d' & Hc' & Hd' & Hd0).
  assert (d = d') by congruence. lia.
Qed.
End Division.

(** * Further properties of the code *)

(** ** The lifetime of a solver *)

Lemma machine_eq (m m' : machine) :
  mem m' = mem m → degree m' = degree m → pagerank m' = pagerank m → m' = m.
Proof. destruct m, m'; simpl; congruence. Qed.

(** X1. The destructor undoes the constructor: it releases the two
    blocks the constructor allocated and nothing else, so the machine is
    again the one the constructor started from. *)
Theorem destructor_undoes_constructor (env_ : SNMGinfo) (part_off_ : list Z)
  (off_ ind_ : ptr) (m m' : machine) (this : SNMGpagerank) :
  new_SNMGpagerank env_ part_off_ off_ ind_ m = Ret (this, m') →
  delete_SNMGpagerank this m' = m.
Proof.
  intros H. apply new_SNMGpagerank_spec in H
    as (_ & _ & _ & _ & _ & _ & _ & _ & _ & Hb & Hv & Hbv & Hm & Hd & Hp & _).
  apply machine_eq; unfold delete_SNMGpagerank, ALLOC_FREE_TRY; simpl; [|done..].
  rewrite Hm.
  rewrite (delete_insert_ne _ (bookmark this) (val this)) by done.
  rewrite (delete_insert_id _ (bookmark this)) by done.
  by rewrite delete_insert_id.
Qed.

(** X2. When the constructor returns, the solver is not set up, its
    sizes are the ones read from the partition offsets and from the row
    offsets ([v_glob = part_off[nt]],
    [e_loc = off[part_off[id+1] - part_off[id]]]), and its bookmark and
    transition values are two distinct new non-null blocks of [v_glob]
    and [e_loc] unwritten cells; every block that was there is
    unchanged. *)
Theorem constructor_allocates_two_fresh_blocks (env_ : SNMGinfo)
  (part_off_ : list Z) (off_ ind_ : ptr) (m m' : machine) (this : SNMGpagerank) :
  new_SNMGpagerank env_ part_off_ off_ ind_ m = Ret (this, m') →
  is_setup this = false ∧ alpha this = None ∧ stream this = nullptr ∧
  index part_off_ (get_num_threads env_) = Some (v_glob this) ∧
  (∃ hi lo, index part_off_ (get_thread_num env_ + 1) = Some hi ∧
            index part_off_ (get_thread_num env_) = Some lo ∧
            v_loc this = to_size_t (hi - lo)) ∧
  (∃ tmp_e, load_int (mem m) off_ (v_loc this) = Some tmp_e ∧
            e_loc this = to_size_t tmp_e) ∧
  bookmark this ≠ val this ∧
  bookmark this ≠ nullptr ∧ val this ≠ nullptr ∧
  mem m !! bookmark this = None ∧ mem m !! val this = None ∧
  mem m' !! bookmark this = Some (replicate (Z.to_nat (v_glob this)) Undef) ∧
  mem m' !! val this = Some (replicate (Z.to_nat (e_loc this)) Undef) ∧
  ∀ q, is_Some (mem m !! q) → mem m' !! q = mem m !! q.
Proof.
  intros H.
  pose proof H as (_ & _ & _ & _ & _ & Hs & Hvg & _ & _ & Hb & Hv & Hbv & Hm &
                   _ & _ & Hbn & Hvn)%new_SNMGpagerank_spec.
  unfold new_SNMGpagerank in H.
  apply bind_Ret in H as (vg & _ & H).
  apply bind_Ret in H as (hi & Hhi%lift_Ret & H).
  apply bind_Ret in H as (lo & Hlo%lift_Ret & H).
  apply bind_Ret in H as (tmp_e & Htmp%lift_Ret & H).
  destruct (ALLOC_TRY vg m) as [b m1].
  destruct (ALLOC_TRY _ m1) as [v m2].
  injection H as <- <-. simpl in *.
  split_and!; try done; eauto.
  - rewrite Hm. rewrite lookup_insert_ne by done. by rewrite lookup_insert_eq.
  - rewrite Hm. by rewrite lookup_insert_eq.
  - intros q [x Hq]. rewrite Hm.
    rewrite !lookup_insert_ne; [done|congruence..].
Qed.

(** ** The bounds of the transition kernel *)

Lemma writes_below_refl e val h : writes_below e val h h.
Proof. split_and!; eauto. Qed.

Lemma writes_below_trans e val h1 h2 h3 :
  writes_below e val h1 h2 → writes_below e val h2 h3 → writes_below e val h1 h3.
Proof.
  intros (Hf1 & Hd1 & Hv1) (Hf2 & Hd2 & Hv2). split_and!.
  - intros q Hq. by rewrite Hf2, Hf1.
  - congruence.
  - intros vs Hvs. destruct (Hv1 vs Hvs) as (vs1 & Hvs1 & Hl1 & Hdrop1).
    destruct (Hv2 vs1 Hvs1) as (vs2 & Hvs2 & Hl2 & Hdrop2).
    exists vs2. split_and!; congruence.
Qed.

Lemma store_cell_writes_below e val i c (h h' : gmap ptr (list cell)) :
  i < e → store_cell val i c h = Some h' → writes_below e val h h'.
Proof.
  intros Hi (buf & Hbuf & Hlen & ->)%store_cell_spec. split_and!.
  - intros q Hq. by rewrite lookup_insert_ne.
  - by apply dom_insert_lookup_L.
  - intros vs Hvs. assert (vs = buf) as -> by congruence.
    eexists. rewrite lookup_insert_eq. split_and!; [done| |].
    + by rewrite length_insert.
    + apply drop_insert_lt. lia.
Qed.

Lemma transition_thread_writes_below T (fuel : nat) e ind degree val s :
  ∀ i (h h' : gmap ptr (list cell)),
    transition_thread T fuel e ind degree val s i h = Some h' →
    writes_below e val h h'.
Proof.
  induction fuel as [|fuel IH]; intros i h h' H; simpl in H;
    destruct (Z.ltb_spec i e); try discriminate;
    try (injection H as <-; apply writes_below_refl).
  destruct (load_int h ind i) as [c|]; [|done]. simpl in H.
  destruct (load_int h degree c) as [d|]; [|done]. simpl in H.
  destruct (store_cell val i _ h) as [h1|] eqn:Hst; [|done]. simpl in H.
  eapply writes_below_trans; [by eapply store_cell_writes_below | by eapply IH].
Qed.

Lemma transition_kernel_writes_below T gridDim blockDim e ind degree val
  (h h' : gmap ptr (list cell)) :
  transition_kernel T gridDim blockDim e ind degree val h = Some h' →
  writes_below e val h h'.
Proof.
  unfold transition_kernel. generalize (grid gridDim blockDim). intros l.
  revert h. induction l as [|bt l IH]; intros h H; cbn [foldl] in H.
  - injection H as <-. apply writes_below_refl.
  - change (Some h ≫= ?f) with (f h) in H. cbv beta in H.
    destruct (transition_thread _ _ _ _ _ _ _ _ h) as [h1|] eqn:Hthread.
    + eapply writes_below_trans; [by eapply transition_thread_writes_below|].
      by apply IH.
    + by rewrite foldl_option_None in H.
Qed.

Lemma writes_below_load e val (h h' : gmap ptr (list cell)) j :
  writes_below e val h h' → e ≤ j → load h' val j = load h val j.
Proof.
  intros (_ & Hdom & Hv) Hj. unfold load.
  destruct (Z.leb_spec 0 j); [|done].
  destruct (h !! val) as [vs|] eqn:Hvs.
  - destruct (Hv vs eq_refl) as (vs' & -> & _ & Hdrop). simpl.
    replace (Z.to_nat j) with (Z.to_nat e + (Z.to_nat j - Z.to_nat e))%nat by lia.
    by rewrite <- !lookup_drop, Hdrop.
  - apply not_elem_of_dom in Hvs. rewrite <- Hdom in Hvs.
    apply not_elem_of_dom in Hvs. by rewrite Hvs.
Qed.

(** X3. Whatever the launch configuration, a run of the transition
    kernel that returns has allocated and released nothing, has left
    every block other than [val] as it was (the column indices and the
    degrees among them), and within [val] has kept the length and every
    cell at a position [e] or beyond: the grid-stride loop writes only
    below [e]. *)
Theorem transition_kernel_writes_only_below_e (T : value_type)
  (gridDim blockDim e : Z) (ind degree val : ptr) (h h' : gmap ptr (list cell)) :
  transition_kernel T gridDim blockDim e ind degree val h = Some h' →
  dom h' = dom h ∧
  (∀ q, q ≠ val → h' !! q = h !! q) ∧
  (∀ vs, h !! val = Some vs → ∃ vs', h' !! val = Some vs' ∧ length vs' = length vs) ∧
  ∀ j, e ≤ j → load h' val j = load h val j.
Proof.
  intros Hk%transition_kernel_writes_below.
  pose proof Hk as (Hf & Hdom & Hv). split_and!; try done.
  - intros vs Hvs. destruct (Hv vs Hvs) as (vs' & ? & ? & _). eauto.
  - intros j Hj. by eapply writes_below_load.
Qed.

(** The contents of the heap after the kernel are fixed by the heap
    before it: the reciprocals below [e], the old cells from [e] on. *)
Lemma kernel_result_unique T e ind degree val (h h1 h2 : gmap ptr (list cell)) :
  writes_below e val h h1 → (∀ j, 0 ≤ j < e → written T ind degree val h h1 j) →
  writes_below e val h h2 → (∀ j, 0 ≤ j < e → written T ind degree val h h2 j) →
  h1 = h2.
Proof.
  intros (Hf1 & Hd1 & Hv1) Hw1 (Hf2 & Hd2 & Hv2) Hw2.
  apply map_eq. intros q. destruct (decide (q = val)) as [->|Hq];
    [|by rewrite Hf1, Hf2].
  destruct (h !! val) as [vs|] eqn:Hvs.
  - destruct (Hv1 vs eq_refl) as (vs1 & Hvs1 & Hl1 & Hdrop1).
    destruct (Hv2 vs eq_refl) as (vs2 & Hvs2 & Hl2 & Hdrop2).
    rewrite Hvs1, Hvs2. f_equal. apply list_eq. intros k.
    destruct (decide (Z.of_nat k < e)) as [Hk|Hk].
    + destruct (Hw1 (Z.of_nat k) ltac:(lia)) as (c1 & d1 & Hc1 & Hdd1 & Hload1).
      destruct (Hw2 (Z.of_nat k) ltac:(lia)) as (c2 & d2 & Hc2 & Hdd2 & Hload2).
      assert (c2 = c1) as -> by congruence.
      assert (d2 = d1) as -> by congruence.
      unfold load in Hload1, Hload2.
      destruct (Z.leb_spec 0 (Z.of_nat k)); [|lia].
      rewrite Hvs1 in Hload1. rewrite Hvs2 in Hload2. simpl in Hload1, Hload2.
      rewrite Nat2Z.id in Hload1, Hload2. congruence.
    + replace k with (Z.to_nat e + (k - Z.to_nat e))%nat by lia.
      by rewrite <- !lookup_drop, Hdrop1, Hdrop2.
  - apply not_elem_of_dom in Hvs.
    pose proof Hvs as Hvs'. rewrite <- Hd1 in Hvs. rewrite <- Hd2 in Hvs'.
    apply not_elem_of_dom in Hvs. apply not_elem_of_dom in Hvs'. congruence.
Qed.

(** X4. The result of the transition kernel does not depend on the
    launch configuration: on blocks that hold what the kernel reads,
    any two grids that fit the 32-bit index give the same heap. *)
Theorem transition_kernel_launch_independent (T : value_type)
  (gridDim1 blockDim1 gridDim2 blockDim2 e : Z) (ind degree val : ptr)
  (h : gmap ptr (list cell)) :
  val ≠ ind → val ≠ degree → 0 ≤ e →
  0 < gridDim1 → 0 < blockDim1 → e + gridDim1 * blockDim1 < 2 ^ 32 →
  0 < gridDim2 → 0 < blockDim2 → e + gridDim2 * blockDim2 < 2 ^ 32 →
  kernel_ready e ind degree val h →
  ∃ h', transition_kernel T gridDim1 blockDim1 e ind degree val h = Some h' ∧
        transition_kernel T gridDim2 blockDim2 e ind degree val h = Some h'.
Proof.
  intros Hind Hdegree He Hg1 Hb1 Hw1 Hg2 Hb2 Hw2 Hready.
  destruct (transition_kernel_returns T gridDim1 blockDim1 e ind degree val
              Hind Hdegree Hg1 Hb1 He Hw1 h Hready) as [h1 H1].
  destruct (transition_kernel_returns T gridDim2 blockDim2 e ind degree val
              Hind Hdegree Hg2 Hb2 He Hw2 h Hready) as [h2 H2].
  exists h1. split; [done|]. rewrite H2. f_equal.
  pose proof (transition_kernel_writes_below _ _ _ _ _ _ _ _ _ H1) as Hwb1.
  pose proof (transition_kernel_writes_below _ _ _ _ _ _ _ _ _ H2) as Hwb2.
  apply (transition_kernel_spec T gridDim1 blockDim1 e ind degree val
           Hind Hdegree Hg1 Hb1 He Hw1) in H1 as [_ Hwr1].
  apply (transition_kernel_spec T gridDim2 blockDim2 e ind degree val
           Hind Hdegree Hg2 Hb2 He Hw2) in H2 as [_ Hwr2].
  symmetry. by eapply kernel_result_unique.
Qed.

(** X5. The loop index of a thread is a 32-bit unsigned integer and
    [e] is a [size_t]: when [e] is [2^32] or more the index never
    reaches it, so no thread ends its loop however long it runs, and a
    launch with at least one thread does not return. *)
Theorem transition_kernel_index_never_reaches_large_e (T : value_type)
  (e : Z) (ind degree val : ptr) :
  2 ^ 32 ≤ e →
  (∀ (fuel : nat) (stride i : Z) (h : gmap ptr (list cell)),
     0 ≤ i < 2 ^ 32 →
     transition_thread T fuel e ind degree val stride i h = None) ∧
  ∀ (gridDim blockDim : Z) (h : gmap ptr (list cell)),
    0 < gridDim → 0 < blockDim →
    transition_kernel T gridDim blockDim e ind degree val h = None.
Proof.
  intros He.
  assert (∀ (fuel : nat) (stride i : Z) (h : gmap ptr (list cell)),
            0 ≤ i < 2 ^ 32 →
            transition_thread T fuel e ind degree val stride i h = None) as Hthread.
  { induction fuel as [|fuel IH]; intros stride i h Hi; simpl;
      destruct (Z.ltb_spec i e); try done; try lia.
    destruct (load_int h ind i) as [c|]; [|done]. simpl.
    destruct (load_int h degree c) as [d|]; [|done]. simpl.
    destruct (store_cell val i _ h) as [h1|]; [|done]. simpl.
    apply IH. unfold to_unsigned. apply Z.mod_pos_bound. lia. }
  split; [done|].
  intros gridDim blockDim h Hg Hb. unfold transition_kernel.
  assert (∃ bt l, grid gridDim blockDim = bt :: l) as (bt & l & ->).
  { destruct (grid gridDim blockDim) as [|bt l] eqn:Hgrid; [|eauto].
    assert ((0, 0) ∈ grid gridDim blockDim) as Hin
      by (apply elem_of_grid; lia).
    rewrite Hgrid in Hin. by apply elem_of_nil in Hin. }
  cbn [foldl]. change (Some h ≫= ?f) with (f h). cbv beta.
  rewrite Hthread; [apply foldl_option_None|].
  unfold to_unsigned. apply Z.mod_pos_bound. lia.
Qed.

(** ** The blocks that stay allocated *)

Lemma store_cells_dom p cs (h h' : gmap ptr (list cell)) :
  store_cells p cs h = Some h' → dom h' = dom h.
Proof.
  intros (buf & Hbuf & _ & ->)%store_cells_lookup.
  by apply dom_insert_lookup_L.
Qed.

Lemma scal_dom T n a p (h h' : gmap ptr (list cell)) :
  scal T n a p h = Some h' → dom h' = dom h.
Proof.
  unfold scal. intros H. destruct (load_vals h n p); [|done].
  by eapply store_cells_dom.
Qed.

Lemma addv_dom T n a p (h h' : gmap ptr (list cell)) :
  addv T n a p h = Some h' → dom h' = dom h.
Proof.
  unfold addv. intros H. destruct (load_vals h n p); [|done].
  by eapply store_cells_dom.
Qed.

Lemma flag_leafs_kernel_dom T n d p (h h' : gmap ptr (list cell)) :
  flag_leafs_kernel T n d p h = Some h' → dom h' = dom h.
Proof.
  unfold flag_leafs_kernel. intros H.
  destruct (load_ints h n d); [|done]. destruct (load_vals h n p); [|done].
  by eapply store_cells_dom.
Qed.

Lemma update_dangling_nodes_dom T n p a (h h' : gmap ptr (list cell)) :
  update_dangling_nodes T n p a h = Some h' → dom h' = dom h.
Proof.
  unfold update_dangling_nodes. intros H. destruct (load_vals h n p); [|done].
  by eapply store_cells_dom.
Qed.

Lemma union_difference_fresh (p : ptr) (X : gset ptr) :
  p ∉ X → ({[p]} ∪ X) ∖ {[p]} = X.
Proof.
  intros Hp. apply set_eq. intros x.
  rewrite elem_of_difference, elem_of_union, !elem_of_singleton. split.
  - by intros [[?|?] ?].
  - intros Hx. split; [by right|]. by intros ->.
Qed.

Section SetupBlocks.
Context {C : Collaborators}.
Variable T : value_type.
Variable IT : index_type.

Lemma transition_vals_dom (this : SNMGpagerank) (degree : ptr) (m m' : machine) :
  transition_vals T IT this degree m = Ret m' → dom (mem m') = dom (mem m).
Proof.
  unfold transition_vals. destruct (launch_ok _ _); [|done].
  intros (h' & H & ->)%on_mem_Ret.
  by apply transition_kernel_writes_below in H as (_ & ? & _).
Qed.

(** X6. A call of [setup] that returns has released the degree vector
    it allocated: the allocated blocks are the ones from before the
    call, and the slot [degree[id]] of the shared array is left holding
    the address of the released block. *)
Theorem setup_releases_degree_vector (a : spec_float)
  (this this' : SNMGpagerank) (m m' : machine) :
  setup T IT a this m = Ret (this', m') →
  dom (mem m') = dom (mem m) ∧
  ∃ degree_loc,
    degree m' = <[Z.to_nat (id this) := degree_loc]> (degree m) ∧
    degree_loc ≠ nullptr ∧
    mem m !! degree_loc = None ∧ mem m' !! degree_loc = None.
Proof.
  unfold setup. destruct (is_setup this); [done|]. cbn [negb]. cbv zeta.
  destruct (ALLOC_TRY _ m) as [degree_loc m1] eqn:Halloc.
  apply ALLOC_TRY_spec in Halloc as (Hnull & Hfresh & Hm1 & Hd1 & Hp1).
  intros H.
  apply bind_Ret in H as (? & _ & H).
  apply bind_Ret in H as (offs & _ & H).
  apply bind_Ret in H as (inds & _ & H).
  destruct (snmg_degree _ _ _ _) as [deg|]; [|done].
  apply bind_Ret in H as (m2 & (h2 & Hst%store_cells_dom & ->)%on_mem_Ret & H).
  apply bind_Ret in H as (m3 & (h3 & Hfill%store_cells_dom & ->)%on_mem_Ret & H).
  apply bind_Ret in H
    as (m4 & (h4 & Hflag%flag_leafs_kernel_dom & ->)%flag_leafs_Ret & H).
  apply bind_Ret in H as (a' & _ & H).
  apply bind_Ret in H
    as (m5 & (h5 & Hupd%update_dangling_nodes_dom & ->)%on_mem_Ret & H).
  apply bind_Ret in H as (m6 & Htv & H).
  pose proof Htv as Hdom%transition_vals_dom.
  apply transition_vals_modifies in Htv as (h6 & -> & _).
  injection H as <- <-. simpl in *.
  split.
  - unfold ALLOC_FREE_TRY. simpl. rewrite dom_delete_L.
    rewrite Hdom, Hupd, Hflag, Hfill, Hst, Hm1, dom_insert_L.
    apply union_difference_fresh. by apply not_elem_of_dom.
  - exists degree_loc. rewrite Hd1. split_and!; try done.
    unfold ALLOC_FREE_TRY. simpl. apply lookup_delete_eq.
Qed.
End SetupBlocks.

Section SetupFailure.
Context {C : Collaborators}.
Variable T : value_type.
Variable IT : index_type.

(** X7. When the degree collective fails, [setup] throws "SNMG Degree
    failed in Pagerank" before it has written the bookmark or the
    transition values. The solver has taken the damping factor but is
    still not set up, and the degree vector allocated for the call is
    not released: it stays on the device, with its address in
    [degree[id]]. *)
Theorem failed_degree_leaves_vector_allocated (a : spec_float)
  (this : SNMGpagerank) (m : machine) (offs inds : list cell) (d0 : ptr) :
  is_setup this = false →
  index (degree m) (id this) = Some d0 →
  mem m !! off this = Some offs →
  mem m !! ind this = Some inds →
  snmg_degree (id this) (part_off this) offs inds = None →
  ∃ degree_loc m1,
    setup T IT a this m
    = Throw "SNMG Degree failed in Pagerank" (set_alpha a this, m1) ∧
    is_setup (set_alpha a this) = false ∧
    degree_loc ≠ nullptr ∧
    mem m !! degree_loc = None ∧
    mem m1 = <[degree_loc := replicate (Z.to_nat (v_glob this)) Undef]> (mem m) ∧
    degree m1 = <[Z.to_nat (id this) := degree_loc]> (degree m) ∧
    pagerank m1 = pagerank m.
Proof.
  intros Hs Hslot Hoff Hind Hdeg. unfold setup. rewrite Hs. cbn [negb]. cbv zeta.
  cbn [set_alpha id part_off off ind v_glob].
  destruct (ALLOC_TRY _ m) as [degree_loc m1] eqn:Halloc.
  apply ALLOC_TRY_spec in Halloc as (Hnull & Hfresh & Hm1 & Hd1 & Hp1).
  rewrite Hd1, Hslot. simpl. rewrite Hm1.
  rewrite !lookup_insert_ne by congruence.
  rewrite Hoff, Hind. simpl. rewrite Hdeg.
  eexists degree_loc, _. split; [done|]. simpl. by split_and!.
Qed.
End SetupFailure.

(** ** What [solve] starts from *)

Section SolveStart.
Context {C : Collaborators}.
Variable T : value_type.

Lemma fill_overwrites (this : SNMGpagerank) (m : machine) (pr : ptr)
  (buf buf' : list cell) (x : spec_float) :
  mem m !! pr = Some buf →
  length buf = Z.to_nat (v_glob this) →
  length buf' = Z.to_nat (v_glob this) →
  on_mem (St := SNMGpagerank * machine) (fill (v_glob this) pr x)
    (set_mem (<[pr := buf']> (mem m)) m)
  = on_mem (fill (v_glob this) pr x) m.
Proof.
  intros Hbuf Hlen Hlen'. unfold on_mem, fill, store_cells. simpl.
  rewrite lookup_insert_eq, Hbuf. simpl.
  rewrite !length_replicate.
  rewrite !option_guard_True by lia. simpl.
  rewrite !drop_ge by lia. by rewrite insert_insert_eq.
Qed.

(** X8. [solve] starts from the uniform vector whatever the pagerank
    vector held: on a vector of [v_glob] cells, replacing its contents
    before the call changes nothing in the outcome. *)
Theorem solve_ignores_previous_vector (max_iter : Z) (this : SNMGpagerank)
  (m : machine) (pr : ptr) (buf buf' : list cell) :
  is_setup this = true →
  index (pagerank m) (id this) = Some pr →
  mem m !! pr = Some buf →
  length buf = Z.to_nat (v_glob this) →
  length buf' = Z.to_nat (v_glob this) →
  solve T max_iter this (set_mem (<[pr := buf']> (mem m)) m)
  = solve T max_iter this m.
Proof.
  intros Hs Hpr Hbuf Hlen Hlen'. unfold solve. rewrite Hs. simpl.
  rewrite Hpr. simpl.
  unfold solve_init. by rewrite (fill_overwrites this m pr buf buf').
Qed.
End SolveStart.

Lemma store_cells_Some p cs buf (h : gmap ptr (list cell)) :
  h !! p = Some buf → (length cs ≤ length buf)%nat →
  store_cells p cs h = Some (<[p := cs ++ drop (length cs) buf]> h).
Proof.
  intros Hp Hlen. unfold store_cells. rewrite Hp. simpl.
  by rewrite option_guard_True.
Qed.

Lemma load_vals_prefix (h : gmap ptr (list cell)) n p xs rest :
  h !! p = Some ((Val <$> xs) ++ rest) → length xs = Z.to_nat n →
  load_vals h n p = Some xs.
Proof.
  intros Hp Hlen. unfold load_vals. rewrite Hp. simpl.
  rewrite option_guard_True
    by (rewrite length_app, length_fmap; lia).
  simpl. rewrite take_app_length' by (by rewrite length_fmap).
  by apply mapM_fmap_Some.
Qed.

Section SolveNoRound.
Context {C : Collaborators}.
Variable T : value_type.

(** X9. With [max_iter] zero or negative the loop of [solve] is not
    entered and the matrix product is never run: the call returns the
    uniform vector [1/v_glob] rescaled by the reciprocal of its 1-norm,
    every entry the same, and the cells of the block past [v_glob] as
    they were. *)
Theorem solve_without_rounds (max_iter : Z) (this : SNMGpagerank)
  (m : machine) (pr : ptr) (buf : list cell) (bs : list spec_float) :
  max_iter ≤ 0 →
  is_setup this = true →
  index (pagerank m) (id this) = Some pr →
  mem m !! pr = Some buf →
  (Z.to_nat (v_glob this) ≤ length buf)%nat →
  pr ≠ bookmark this →
  load_vals (mem m) (v_glob this) (bookmark this) = Some bs →
  let n := Z.to_nat (v_glob this) in
  let u := vdiv T (convert T lit_1_0) (of_Z T (v_glob this)) in
  let w := vdiv T (convert T lit_1_0) (vsum T (SFabs <$> replicate n u)) in
  solve T max_iter this m
  = Ret (this,
         set_mem (<[pr := replicate n (Val (vmul T w u)) ++ drop n buf]> (mem m)) m).
Proof.
  intros Hmax Hs Hpr Hbuf Hlen Hne Hbs n u w. unfold solve. rewrite Hs, Hpr. simpl.
  unfold solve_init. fold u.
  set (h1 := <[pr := replicate n (Val u) ++ drop n buf]> (mem m)).
  assert (on_mem (St := SNMGpagerank * machine) (fill (v_glob this) pr u) m
          = Ret (set_mem h1 m)) as ->.
  { unfold on_mem, fill. fold n.
    rewrite (store_cells_Some pr _ buf) by (by rewrite ?length_replicate).
    by rewrite length_replicate. }
  simpl.
  assert (h1 !! pr = Some ((Val <$> replicate n u) ++ drop n buf)) as Hpr1
    by (unfold h1; by rewrite lookup_insert_eq, fmap_replicate).
  assert (load_vals h1 (v_glob this) pr = Some (replicate n u)) as Hxs
    by (eapply load_vals_prefix; [done | by rewrite length_replicate]).
  unfold dot.
  rewrite (load_vals_other (mem m) h1 (v_glob this) (bookmark this))
    by (unfold h1; by rewrite lookup_insert_ne).
  rewrite Hbs, Hxs. simpl.
  rewrite (solve_loop_iter T this pr max_iter 0 0) by lia. simpl.
  unfold solve_final, nrm1. simpl. rewrite Hxs. simpl. fold w.
  unfold on_mem, scal. simpl. rewrite Hxs. simpl.
  rewrite (store_cells_Some pr _ _ h1 Hpr1)
    by (rewrite !length_fmap, length_app, length_fmap; lia).
  simpl. do 2 f_equal. unfold set_mem. simpl. f_equal.
  unfold h1. rewrite insert_insert_eq. f_equal.
  rewrite !length_fmap, length_replicate.
  rewrite drop_app_length' by (by rewrite length_fmap, length_replicate).
  by rewrite !fmap_replicate.
Qed.
End SolveNoRound.

(** ** The blocks a run of the driver leaves *)

Lemma modifies_dom ps (h h' : gmap ptr (list cell)) :
  modifies ps h h' → (∀ p, p ∈ ps → is_Some (h !! p)) → dom h' = dom h.
Proof.
  intros [Hf Hd] Hps. apply set_eq. intros x. rewrite !elem_of_dom.
  destruct (decide (x ∈ ps)) as [Hx|Hx]; [|by rewrite Hf].
  split; [intros _; by apply Hps | apply Hd].
Qed.

Lemma csr_column_dom (o : option (list Z)) (m m1 : machine) (col : gdf_column) :
  mem m !! nullptr = None →
  csr_column o m = (col, m1) →
  dom (mem m1) ∖ {[data col]} = dom (mem m) ∧
  (data col = nullptr ∨ data col ∈ dom (mem m1)).
Proof.
  intros Hnull. unfold csr_column. destruct o as [l|].
  - destruct (ALLOC_TRY _ m) as [p m0] eqn:Halloc.
    apply ALLOC_TRY_spec in Halloc as (? & Hfresh & Hm0 & ? & ?).
    intros [= <- <-]. simpl. rewrite Hm0, insert_insert_eq, dom_insert_L.
    split.
    + apply union_difference_fresh. by apply not_elem_of_dom.
    + right. apply elem_of_union_l. by apply elem_of_singleton.
  - intros [= <- <-]. simpl. split; [|by left].
    apply set_eq. intros x. rewrite elem_of_difference, elem_of_singleton.
    split; [by intros [? _]|]. intros Hx. split; [done|]. intros ->.
    apply elem_of_dom in Hx. rewrite Hnull in Hx. by destruct Hx.
Qed.

Lemma released_blocks (D0 D1 D2 : gset ptr) (p1 p2 q b v : ptr) :
  D1 ∖ {[p1]} = D0 → D2 ∖ {[p2]} = D1 →
  q ∉ D2 → b ∉ D2 → v ∉ D2 →
  ({[q]} ∪ ({[v]} ∪ ({[b]} ∪ D2))) ∖ {[p1]} ∖ {[p2]} ∖ {[q]} ∖ {[b]} ∖ {[v]} = D0.
Proof.
  intros <- <- Hq Hb Hv. apply set_eq. intros x.
  rewrite !elem_of_difference, !elem_of_union, !elem_of_singleton.
  split; [tauto|]. intros [[Hx ?] ?].
  split_and!; try tauto; intros ->; tauto.
Qed.

Lemma published_block (D0 D1 D2 : gset ptr) (p1 p2 q b v d : ptr) :
  D1 ∖ {[p1]} = D0 → D2 ∖ {[p2]} = D1 →
  q ∉ D2 → b ∉ D2 → v ∉ D2 →
  d ≠ p1 → d ≠ p2 → d ≠ q → d ≠ b → d ≠ v →
  ({[d]} ∪ ({[q]} ∪ ({[v]} ∪ ({[b]} ∪ D2))))
    ∖ {[p1]} ∖ {[p2]} ∖ {[q]} ∖ {[b]} ∖ {[v]} = {[d]} ∪ D0.
Proof.
  intros H1 H2 Hq Hb Hv ? ? ? ? ?.
  rewrite <- (released_blocks D0 D1 D2 p1 p2 q b v H1 H2 Hq Hb Hv).
  apply set_eq. intros x.
  rewrite !elem_of_union, !elem_of_difference, !elem_of_union, !elem_of_singleton.
  split; [tauto|]. intros [->|?]; tauto.
Qed.

Lemma cudaMemcpy_dom dst src n (h h' : gmap ptr (list cell)) :
  cudaMemcpy dst src n h = Some h' → dom h' = dom h.
Proof.
  unfold cudaMemcpy. intros H. destruct (h !! src); [|done]. simpl in H.
  destruct (guard _); [|done]. by eapply store_cells_dom.
Qed.

Section WorkerBlocks.
Context {C : Collaborators}.
Variable VT : value_type.
Variable IT : index_type.

(** A worker releases every block it allocated, but for the block of
    the output column that worker 0 leaves. *)
Lemma worker_blocks (srcs dests : list gdf_column) (n_gpus : Z)
  (damping_factor : spec_float) (n_iter : Z) (sh sh' : shared) (m m' : machine)
  (i : Z) :
  mem m !! nullptr = None →
  worker VT IT srcs dests n_gpus damping_factor n_iter (sh, m) i = Ret (sh', m') →
  if decide (i = 0) then
    (data (pr_col sh') ∉ dom (mem m)) ∧
    dom (mem m') = {[data (pr_col sh')]} ∪ dom (mem m)
  else pr_col sh' = pr_col sh ∧ dom (mem m') = dom (mem m).
Proof.
  intros Hnull. unfold worker. intros H.
  apply bind_Ret in H as (dest & _ & H).
  apply bind_Ret in H as (src & _ & H).
  set (r := gdf_snmg_coo2csr i (mem m) dest src) in *.
  destruct (csr_column (csr_off r) m) as [col_off m1] eqn:Hoff.
  destruct (csr_column (csr_ind r) m1) as [col_ind m2] eqn:Hind.
  pose proof Hoff as (_ & N1 & _)%csr_column_spec.
  apply csr_column_dom in Hoff as [D01 A1]; [|done].
  apply csr_column_dom in Hind as [D12 A2]; [|congruence].
  set (po := part_offset _) in *.
  apply bind_Ret in H as ([s m3] & Hnew & H).
  apply new_SNMGpagerank_spec in Hnew
    as (_ & _ & _ & _ & Hid & _ & Hvg & _ & _ & Fb & Fv & Hbv & Hm3 & _ & _
        & Hbn & Hvn).
  apply bind_Ret in H as ([s' m4] & (-> & _ & S34)%setup_modifies & H).
  apply bind_Ret in H as (n & Hn%lift_Ret & H).
  destruct (ALLOC_TRY n m4) as [q m5] eqn:Hq.
  apply ALLOC_TRY_spec in Hq as (Hqn & Fq & Hm5 & _ & _).
  apply bind_Ret in H as (? & Hslot%lift_Ret & H).
  apply bind_Ret in H as ([s'' m6] & Hsolve & H).
  apply solve_result with (pr := q) in Hsolve
    as (-> & _ & S56 & _).
  2:{ simpl. rewrite Hid. simpl. unfold index in *.
      destruct (Z.leb_spec 0 i); [|done].
      apply list_lookup_insert_eq. by eapply lookup_lt_Some. }
  simpl in S56.
  assert (dom (mem m3) = {[val s]} ∪ ({[bookmark s]} ∪ dom (mem m2))) as D3
    by (by rewrite Hm3, !dom_insert_L).
  assert (dom (mem m4) = dom (mem m3)) as D4.
  { apply (modifies_dom _ _ _ S34). intros p.
    rewrite !elem_of_cons, elem_of_nil. intros [->|[->|[]]]; rewrite Hm3.
    - by rewrite lookup_insert_ne, lookup_insert_eq.
    - by rewrite lookup_insert_eq. }
  assert (dom (mem m5) = {[q]} ∪ dom (mem m4)) as D5
    by (by rewrite Hm5, dom_insert_L).
  assert (dom (mem m6) = dom (mem m5)) as D6.
  { apply (modifies_dom _ _ _ S56). intros p.
    rewrite elem_of_cons, elem_of_nil. intros [->|[]].
    by rewrite Hm5, lookup_insert_eq. }
  assert ((q ∉ dom (mem m2)) ∧ (bookmark s ∉ dom (mem m2)) ∧ (val s ∉ dom (mem m2)))
    as (Hq2 & Hb2 & Hv2).
  { apply not_elem_of_dom in Fq. rewrite D4, D3 in Fq.
    rewrite !not_elem_of_union in Fq. destruct Fq as (_ & _ & ?).
    split_and!; [done|by apply not_elem_of_dom..]. }
  apply bind_Ret in H as ([sh1 m7] & Hmaster & H).
  injection H as <- <-.
  unfold delete_SNMGpagerank, gdf_col_delete, ALLOC_FREE_TRY. simpl.
  rewrite !dom_delete_L.
  destruct (Z.eqb_spec i 0) as [->|Hi].
  - destruct (ALLOC_TRY n m6) as [d m7'] eqn:Hd.
    apply ALLOC_TRY_spec in Hd as (Hdn & Fd & Hm7 & _ & _).
    apply bind_Ret in Hmaster
      as (m8 & (h8 & Hcopy%cudaMemcpy_dom & ->)%on_mem_Ret & Hmaster).
    injection Hmaster as <- <-. simpl.
    rewrite Hcopy, Hm7, dom_insert_L, D6, D5, D4, D3.
    apply not_elem_of_dom in Fd. rewrite D6, D5, D4, D3 in Fd.
    rewrite !not_elem_of_union, !not_elem_of_singleton in Fd.
    destruct Fd as (? & ? & ? & Fd2).
    assert (d ∉ dom (mem m)) as Fd0.
    { rewrite <- D01, <- D12. rewrite !elem_of_difference. tauto. }
    split; [done|].
    apply (published_block (dom (mem m)) (dom (mem m1)) (dom (mem m2)));
      try done.
    + destruct A1 as [->|A1]; [done|]. intros ->. apply Fd2.
      rewrite <- D12 in A1. by apply elem_of_difference in A1 as [? _].
    + destruct A2 as [->|A2]; [done|]. by intros ->.
  - injection Hmaster as <- <-. simpl. destruct (decide (i = 0)); [done|].
    split; [by destruct (decide _)|].
    rewrite D6, D5, D4, D3.
    by apply (released_blocks (dom (mem m)) (dom (mem m1)) (dom (mem m2))).
Qed.
End WorkerBlocks.

Section DriverBlocks.
Context {C : Collaborators}.
Variable VT : value_type.
Variable IT : index_type.

Lemma workers_blocks (srcs dests : list gdf_column) (n_gpus : Z)
  (damping_factor : spec_float) (n_iter : Z) (l : list Z) :
  ∀ (sh sh' : shared) (m m' : machine),
    0 ∉ l →
    mem m !! nullptr = None →
    foldl (λ acc i, st ← acc;
             worker VT IT srcs dests n_gpus damping_factor n_iter st i)
          (Ret (sh, m)) l = Ret (sh', m') →
    pr_col sh' = pr_col sh ∧ dom (mem m') = dom (mem m).
Proof.
  induction l as [|i l IH]; intros sh sh' m m' Hl Hnull H; cbn [foldl] in H.
  - by injection H as <- <-.
  - apply not_elem_of_cons in Hl as [Hi Hl].
    pose proof H as [[sh1 m1] H1]%workers_not_Ret.
    rewrite H1 in H.
    pose proof H1 as (Hnull1 & _ & _)%worker_memory; [|done].
    apply worker_blocks in H1; [|done].
    destruct (decide (i = 0)) as [->|_]; [done|]. destruct H1 as [Hcol Hdom].
    apply IH in H as [Hcol' Hdom']; [|done..].
    split; congruence.
Qed.

(** X10. A run of the driver that returns has released every block it
    allocated but one: the allocated blocks are those from before the
    call and the new data block of the output column, and the blocks
    from before the call, the edge lists among them, hold what they
    held. *)
Theorem gdf_snmg_pagerank_impl_releases_temporaries
  (srcs dests : list gdf_column) (col col' : gdf_column) (n_gpus : Z)
  (damping_factor : spec_float) (n_iter : Z) (m m' : machine) (e : gdf_error) :
  0 < n_gpus →
  mem m !! nullptr = None →
  gdf_snmg_pagerank_impl VT IT srcs dests col n_gpus damping_factor n_iter m
  = Ret (e, col', m') →
  (data col' ∉ dom (mem m)) ∧
  dom (mem m') = {[data col']} ∪ dom (mem m) ∧
  ∀ x, is_Some (mem m !! x) → mem m' !! x = mem m !! x.
Proof.
  intros Hn Hnull. unfold gdf_snmg_pagerank_impl.
  intros ([sh' m1] & H & [= <- <- <-])%bind_Ret.
  pose proof H as [_ Hkeep]%workers_memory; [|done].
  rewrite (seqZ_cons 0 n_gpus) in H by lia. cbn [foldl] in H.
  pose proof H as [[sh0 m0] H0]%workers_not_Ret.
  rewrite H0 in H.
  pose proof H0 as (Hnull0 & _ & _)%worker_memory; [|done].
  apply worker_blocks in H0; [|done]. simpl in H0. destruct H0 as [Hfresh Hdom].
  apply workers_blocks in H as [-> ->]; [|rewrite elem_of_seqZ; lia|done].
  by split_and!.
Qed.
End DriverBlocks.

(** ** The status of the driver *)

Section DriverStatus.
Context {C : Collaborators}.
Variable VT : value_type.
Variable IT : index_type.

Lemma conversion_returned_later (srcs dests : list gdf_column) (m m1 : machine)
  (i : Z) (e : gdf_error) :
  (∀ x, is_Some (mem m !! x) → mem m1 !! x = mem m !! x) →
  conversion_returned srcs dests m1 i e → conversion_returned srcs dests m i e.
Proof.
  intros Hkeep (h & dest & src & ? & ? & Hh & ?).
  exists h, dest, src. split_and!; try done.
  intros x Hx. rewrite <- (Hkeep x Hx). apply Hh. by rewrite Hkeep.
Qed.

Lemma workers_status (srcs dests : list gdf_column) (n_gpus : Z)
  (damping_factor : spec_float) (n_iter : Z) (l : list Z) :
  ∀ (sh sh' : shared) (m m' : machine),
    mem m !! nullptr = None →
    foldl (λ acc i, st ← acc;
             worker VT IT srcs dests n_gpus damping_factor n_iter st i)
          (Ret (sh, m)) l = Ret (sh', m') →
    (status sh' = status sh ∨
     ∃ i, i ∈ l ∧ status sh' ≠ GDF_SUCCESS ∧
          conversion_returned srcs dests m i (status sh')) ∧
    (status sh' = GDF_SUCCESS →
     ∀ i, i ∈ l → conversion_returned srcs dests m i GDF_SUCCESS).
Proof.
  induction l as [|i l IH]; intros sh sh' m m' Hnull H; cbn [foldl] in H.
  - injection H as <- <-. split; [by left|]. by intros _ i ?%elem_of_nil.
  - pose proof H as [[sh1 m1] H1]%workers_not_Ret.
    rewrite H1 in H.
    pose proof H as [_ Hsticky]%workers_spec.
    pose proof H1 as (Hnull1 & Hkeep & _)%worker_memory; [|done].
    apply worker_spec in H1 as (dest & src & n & Hdest & Hsrc & _ & Hst & _).
    simpl in Hst.
    assert (conversion_returned srcs dests m i
              (csr_status (gdf_snmg_coo2csr i (mem m) dest src))) as Hhere
      by (by exists (mem m), dest, src).
    apply IH in H as [Hlast Hall]; [|done]. split.
    + destruct Hlast as [Hlast|(j & Hj & Hne & Hconv)].
      * rewrite Hlast, Hst. destruct (decide _) as [Hfail|]; [|by left].
        right. exists i. split_and!; [by left|done..].
      * right. exists j. split_and!; [by right|done|].
        by eapply conversion_returned_later.
    + intros Hok j [->|Hj]%elem_of_cons.
      * destruct (decide (status sh1 = GDF_SUCCESS)) as [Hsh1|Hsh1];
          [|by destruct (Hsticky Hsh1)].
        rewrite Hst in Hsh1. destruct (decide _) as [Hfail|Hfine].
        -- by destruct Hfail.
        -- apply dec_stable in Hfine. by rewrite Hfine in Hhere.
      * eapply conversion_returned_later; [done|]. by apply Hall.
Qed.

(** X11. The status a run of the driver returns speaks of the
    conversions only: it is [GDF_SUCCESS] exactly when the conversion of
    every worker returned [GDF_SUCCESS], and otherwise it is the code
    that the conversion of one of the workers returned. *)
Theorem gdf_snmg_pagerank_impl_status (srcs dests : list gdf_column)
  (col col' : gdf_column) (n_gpus : Z) (damping_factor : spec_float)
  (n_iter : Z) (m m' : machine) (e : gdf_error) :
  mem m !! nullptr = None →
  gdf_snmg_pagerank_impl VT IT srcs dests col n_gpus damping_factor n_iter m
  = Ret (e, col', m') →
  (e = GDF_SUCCESS →
   ∀ i, 0 ≤ i < n_gpus → conversion_returned srcs dests m i GDF_SUCCESS) ∧
  (e ≠ GDF_SUCCESS →
   ∃ i, 0 ≤ i < n_gpus ∧ conversion_returned srcs dests m i e).
Proof.
  intros Hnull. unfold gdf_snmg_pagerank_impl.
  intros ([sh' m1] & H & [= <- <- <-])%bind_Ret.
  apply workers_status in H as [Hlast Hall]; [|done]. simpl in *. split.
  - intros Hok i Hi. apply Hall; [done|]. by apply elem_of_seqZ.
  - intros Hfail. destruct Hlast as [?|(i & Hi%elem_of_seqZ & _ & ?)]; [done|].
    exists i. split; [lia|done].
Qed.
End DriverStatus.

(** ** A whole life of a solver *)

Section Lifetime.
Context {C : Collaborators}.
Variable T : value_type.
Variable IT : index_type.

Lemma solve_dom (max_iter : Z) (this this' : SNMGpagerank) (m m' : machine) :
  solve T max_iter this m = Ret (this', m') → dom (mem m') = dom (mem m).
Proof.
  intros H. pose proof H as H'. unfold solve in H.
  destruct (is_setup this); [|done].
  apply bind_Ret in H as (pr & Hpr%lift_Ret & H).
  apply bind_Ret in H as (st0 & H0 & _).
  unfold solve_init in H0.
  apply bind_Ret in H0 as (m0 & (h0 & Hfill & _)%on_mem_Ret & _).
  apply store_cells_lookup in Hfill as (buf & Hbuf & _).
  apply solve_result with (pr := pr) in H' as (_ & _ & Hmod & _); [|done].
  apply (modifies_dom _ _ _ Hmod). intros p.
  rewrite elem_of_cons, elem_of_nil. intros [->|[]]. by rewrite Hbuf.
Qed.

(** X12. Constructing a solver, setting it up, solving and destroying
    it leaves the device as it was but for the pagerank vector of the
    worker: the same blocks are allocated, and every block other than
    that vector holds what it held before the constructor. *)
Theorem solver_lifetime_changes_pagerank_only (env_ : SNMGinfo)
  (part_off_ : list Z) (off_ ind_ : ptr) (a : spec_float) (max_iter : Z)
  (m m1 m2 m3 : machine) (s1 s2 s3 : SNMGpagerank) :
  new_SNMGpagerank env_ part_off_ off_ ind_ m = Ret (s1, m1) →
  setup T IT a s1 m1 = Ret (s2, m2) →
  solve T max_iter s2 m2 = Ret (s3, m3) →
  ∃ pr, index (pagerank m) (get_thread_num env_) = Some pr ∧
        pagerank (delete_SNMGpagerank s3 m3) = pagerank m ∧
        dom (mem (delete_SNMGpagerank s3 m3)) = dom (mem m) ∧
        ∀ q, q ≠ pr → mem (delete_SNMGpagerank s3 m3) !! q = mem m !! q.
Proof.
  intros Hnew Hsetup Hsolve.
  apply new_SNMGpagerank_spec in Hnew
    as (_ & _ & _ & _ & Hid & _ & _ & _ & _ & Fb & Fv & Hbv & Hm1 & _ & Hp1 & _).
  apply setup_modifies in Hsetup as (-> & Hp2 & S12).
  assert (dom (mem m2) = dom (mem m1)) as D2.
  { apply (modifies_dom _ _ _ S12). intros p.
    rewrite !elem_of_cons, elem_of_nil. intros [->|[->|[]]]; rewrite Hm1.
    - by rewrite lookup_insert_ne, lookup_insert_eq.
    - by rewrite lookup_insert_eq. }
  pose proof Hsolve as D3%solve_dom.
  pose proof Hsolve as Hsolve'. unfold solve in Hsolve'.
  destruct (is_setup _); [|done].
  apply bind_Ret in Hsolve' as (pr & Hpr%lift_Ret & _).
  apply solve_result with (pr := pr) in Hsolve as (-> & Hp3 & S23 & _); [|done].
  simpl in *. exists pr.
  unfold delete_SNMGpagerank, ALLOC_FREE_TRY. simpl. split_and!.
  - by rewrite <- Hid, <- Hp1, <- Hp2.
  - congruence.
  - rewrite !dom_delete_L, D3, D2, Hm1, !dom_insert_L.
    apply not_elem_of_dom in Fb, Fv. apply set_eq. intros x.
    rewrite !elem_of_difference, !elem_of_union, !elem_of_singleton.
    split; [tauto|]. intros Hx. split_and!; try tauto; by intros ->.
  - intros q Hq.
    destruct (decide (q = val s1)) as [->|Hqv];
      [by rewrite lookup_delete_eq|].
    rewrite lookup_delete_ne by done.
    destruct (decide (q = bookmark s1)) as [->|Hqb];
      [by rewrite lookup_delete_eq|].
    rewrite lookup_delete_ne by done.
    rewrite (modifies_lookup _ _ _ q S23) by (by apply not_elem_of_1).
    rewrite (modifies_lookup _ _ _ q S12) by (by apply not_elem_of_2).
    rewrite Hm1. by rewrite !lookup_insert_ne.
Qed.
End Lifetime.

(** ** The order of the checks of the entry point *)

Lemma check_device_pass {St} (src dest : gdf_column)
  (k : outcome St (option gdf_error)) :
  ¬ length_mismatch src dest → ¬ type_unsupported src dest →
  ¬ has_nulls src dest → check_device src dest k = k.
Proof.
  intros Hl Ht Hn.
  destruct (check_device_spec src dest k) as [[? _]|(e & _ & He)]; [done|].
  by destruct e.
Qed.

Lemma check_devices_first {St} (srcs dests : list gdf_column) (l1 l2 : list Z)
  (k : Z) (src dest : gdf_column) (e : gdf_error) :
  (∀ j, j ∈ l1 → ∃ s d, index srcs j = Some s ∧ index dests j = Some d ∧
                        ¬ length_mismatch s d ∧ ¬ type_unsupported s d ∧
                        ¬ has_nulls s d) →
  index srcs k = Some src → index dests k = Some dest →
  (∀ rest, @check_device St src dest rest = Ret (Some e)) →
  @check_devices St srcs dests (l1 ++ k :: l2) = Ret (Some e).
Proof.
  intros Hl1 Hsrc Hdest He. induction l1 as [|j l1 IH]; simpl.
  - rewrite Hsrc, Hdest. apply He.
  - destruct (Hl1 j ltac:(left)) as (s & d & -> & -> & ? & ? & ?). simpl.
    rewrite check_device_pass by done. apply IH. intros. apply Hl1. by right.
Qed.

Section CheckOrder.
Context {C : Collaborators}.

(** X13. The device loop of the entry point stops at the first device
    whose columns fail a check, and that device alone decides the
    status; the columns of later devices are not read. At that device
    different sizes are reported before anything else, different types
    before null markers, and null markers before a type that is not
    [GDF_INT32]. *)
Theorem first_failing_device_decides (srcs dests : list gdf_column)
  (col : gdf_column) (n_gpus : Z) (damping_factor : spec_float) (n_iter : Z)
  (m : machine) (k : Z) (src dest : gdf_column) :
  scalar_checks n_gpus damping_factor n_iter = true →
  0 ≤ k < n_gpus →
  (∀ j, 0 ≤ j < k →
        ∃ s d, index srcs j = Some s ∧ index dests j = Some d ∧
               ¬ length_mismatch s d ∧ ¬ type_unsupported s d ∧
               ¬ has_nulls s d) →
  index srcs k = Some src → index dests k = Some dest →
  let run := gdf_snmg_pagerank (Some srcs) (Some dests) (Some col) n_gpus
               damping_factor n_iter m in
  (size src ≠ size dest →
   run = Ret (GDF_COLUMN_SIZE_MISMATCH, Some col, m)) ∧
  (size src = size dest → dtype src ≠ dtype dest →
   run = Ret (GDF_UNSUPPORTED_DTYPE, Some col, m)) ∧
  (size src = size dest → dtype src = dtype dest →
   null_count src ≠ 0 ∨ null_count dest ≠ 0 →
   run = Ret (GDF_VALIDITY_UNSUPPORTED, Some col, m)) ∧
  (size src = size dest → dtype src = dtype dest →
   null_count src = 0 → null_count dest = 0 → dtype src ≠ GDF_INT32 →
   run = Ret (GDF_UNSUPPORTED_DTYPE, Some col, m)).
Proof.
  intros Hs Hk Hbefore Hsrc Hdest run.
  assert (∀ e, (∀ rest, @check_device (SNMGpagerank * machine) src dest rest
                        = Ret (Some e)) →
               run = Ret (e, Some col, m)) as Hrun.
  { intros e He. unfold run, gdf_snmg_pagerank. rewrite validate_eq, Hs.
    replace n_gpus with (k + (n_gpus - k)) by lia.
    rewrite seqZ_app by lia. rewrite (seqZ_cons (0 + k)) by lia.
    rewrite (check_devices_first srcs dests _ _ (0 + k) src dest e); try done.
    intros j Hj%elem_of_seqZ. apply Hbefore. lia. }
  unfold check_device, GDF_REQUIRE in Hrun.
  split_and!.
  - intros Hsize. apply Hrun. intros rest. by rewrite bool_decide_false.
  - intros Hsize Htype. apply Hrun. intros rest.
    rewrite bool_decide_true by done. by rewrite bool_decide_false.
  - intros Hsize Htype Hnulls. apply Hrun. intros rest.
    rewrite !bool_decide_true by done.
    destruct (Z.eqb_spec (null_count src) 0); [|done].
    destruct (Z.eqb_spec (null_count dest) 0); [|done]. lia.
  - intros Hsize Htype Hn1 Hn2 Hint. apply Hrun. intros rest.
    rewrite !bool_decide_true by done. rewrite Hn1, Hn2. simpl.
    by rewrite bool_decide_false.
Qed.
End CheckOrder.

(** ** The exceptions of a run *)

Lemma bind_Throw {St A B} (o : outcome St A) (k : A → outcome St B) msg st :
  o ≫= k = Throw msg st ↔
  o = Throw msg st ∨ ∃ a, o = Ret a ∧ k a = Throw msg st.
Proof.
  destruct o as [a|msg' st'|]; simpl; split.
  - intros H. right. eauto.
  - intros [?|(a' & Ha & ?)]; [done|]. by injection Ha as ->.
  - intros [= -> ->]. by left.
  - by intros [[= -> ->]|(a' & ? & ?)].
  - done.
  - by intros [?|(a' & ? & ?)].
Qed.

Lemma lift_no_Throw {St A} (o : option A) msg (st : St) : lift o ≠ Throw msg st.
Proof. by destruct o. Qed.

Lemma on_mem_no_Throw {St} f (m : machine) msg (st : St) :
  on_mem f m ≠ Throw msg st.
Proof. unfold on_mem. by destruct (f (mem m)). Qed.

Section Exceptions.
Context {C : Collaborators}.
Variable T : value_type.
Variable IT : index_type.

Lemma transition_vals_no_Throw (this : SNMGpagerank) (degree : ptr)
  (m : machine) msg st :
  transition_vals T IT this degree m ≠ Throw msg st.
Proof.
  unfold transition_vals. destruct (launch_ok _ _); [|done].
  apply on_mem_no_Throw.
Qed.

Lemma flag_leafs_no_Throw (this : SNMGpagerank) (degree : ptr)
  (m : machine) msg st :
  flag_leafs T IT this degree m ≠ Throw msg st.
Proof.
  unfold flag_leafs. destruct (launch_ok _ _); [|done].
  apply on_mem_no_Throw.
Qed.

Lemma setup_Throw (a : spec_float) (this : SNMGpagerank) (m : machine) msg st :
  setup T IT a this m = Throw msg st →
  if is_setup this then msg = "Setup can be called only once"
  else msg = "SNMG Degree failed in Pagerank".
Proof.
  unfold setup. destruct (is_setup this); cbn [negb]; [by intros [= <- _]|].
  cbv zeta. destruct (ALLOC_TRY _ m) as [degree_loc m1].
  intros H.
  apply bind_Throw in H as [H|(? & _ & H)]; [by apply lift_no_Throw in H|].
  apply bind_Throw in H as [H|(? & _ & H)]; [by apply lift_no_Throw in H|].
  apply bind_Throw in H as [H|(? & _ & H)]; [by apply lift_no_Throw in H|].
  destruct (snmg_degree _ _ _ _); [|by injection H as <- _].
  apply bind_Throw in H as [H|(? & _ & H)]; [by apply on_mem_no_Throw in H|].
  apply bind_Throw in H as [H|(? & _ & H)]; [by apply on_mem_no_Throw in H|].
  apply bind_Throw in H as [H|(? & _ & H)]; [by apply flag_leafs_no_Throw in H|].
  apply bind_Throw in H as [H|(? & _ & H)]; [by apply lift_no_Throw in H|].
  apply bind_Throw in H as [H|(? & _ & H)]; [by apply on_mem_no_Throw in H|].
  apply bind_Throw in H as [H|(? & _ & H)];
    [by apply transition_vals_no_Throw in H|].
  done.
Qed.

Lemma solve_body_no_Throw (this : SNMGpagerank) (pr : ptr)
  (st : spec_float * machine) msg s :
  solve_body T this pr st ≠ Throw msg s.
Proof.
  unfold solve_body, spmv_run. destruct st as [dot_res m]. intros H.
  apply bind_Throw in H as [H|(? & _ & H)].
  { apply bind_Throw in H as [H|(? & _ & H)]; [by apply lift_no_Throw in H|].
    apply bind_Throw in H as [H|(? & _ & H)]; [by apply lift_no_Throw in H|].
    apply bind_Throw in H as [H|(? & _ & H)]; [by apply lift_no_Throw in H|].
    apply bind_Throw in H as [H|(? & _ & H)]; [by apply lift_no_Throw in H|].
    by apply on_mem_no_Throw in H. }
  apply bind_Throw in H as [H|(? & _ & H)]; [by apply lift_no_Throw in H|].
  apply bind_Throw in H as [H|(? & _ & H)]; [by apply on_mem_no_Throw in H|].
  apply bind_Throw in H as [H|(? & _ & H)]; [by apply on_mem_no_Throw in H|].
  apply bind_Throw in H as [H|(? & _ & H)]; [by apply lift_no_Throw in H|].
  apply bind_Throw in H as [H|(? & _ & H)]; [by apply lift_no_Throw in H|].
  apply bind_Throw in H as [H|(? & _ & H)]; [by apply on_mem_no_Throw in H|].
  done.
Qed.

Lemma iter_body_no_Throw (this : SNMGpagerank) (pr : ptr) (n : nat)
  (st : spec_float * machine) msg s :
  Nat.iter n (λ acc, acc ≫= solve_body T this pr) (Ret st) ≠ Throw msg s.
Proof.
  induction n as [|n IH]; simpl; [done|]. intros H.
  apply bind_Throw in H as [H|(? & _ & H)]; [done|].
  by apply solve_body_no_Throw in H.
Qed.

Lemma solve_Throw (max_iter : Z) (this : SNMGpagerank) (m : machine) msg st :
  solve T max_iter this m = Throw msg st →
  is_setup this = false ∧ msg = "Solve was called before setup".
Proof.
  unfold solve. destruct (is_setup this); [|by intros [= <- _]].
  intros H.
  apply bind_Throw in H as [H|(pr & _ & H)]; [by apply lift_no_Throw in H|].
  apply bind_Throw in H as [H|(st0 & _ & H)].
  { unfold solve_init in H.
    apply bind_Throw in H as [H|(? & _ & H)]; [by apply on_mem_no_Throw in H|].
    apply bind_Throw in H as [H|(? & _ & H)]; [by apply lift_no_Throw in H|].
    done. }
  apply bind_Throw in H as [H|(st1 & _ & H)].
  { rewrite (solve_loop_iter T this pr max_iter _ 0 st0 eq_refl) in H.
    by apply iter_body_no_Throw in H. }
  apply bind_Throw in H as [H|(? & _ & H)]; [|done].
  unfold solve_final in H.
  apply bind_Throw in H as [H|(? & _ & H)]; [by apply lift_no_Throw in H|].
  by apply on_mem_no_Throw in H.
Qed.
End Exceptions.

Lemma new_SNMGpagerank_no_Throw (env_ : SNMGinfo) (part_off_ : list Z)
  (off_ ind_ : ptr) (m : machine) msg st :
  new_SNMGpagerank env_ part_off_ off_ ind_ m ≠ Throw msg st.
Proof.
  unfold new_SNMGpagerank.
  destruct (index part_off_ (get_num_threads env_)) as [vg|]; [|done]. simpl.
  destruct (index part_off_ (get_thread_num env_ + 1)); [|done]. simpl.
  destruct (index part_off_ (get_thread_num env_)); [|done]. simpl.
  by destruct (load_int _ _ _).
Qed.

Section DriverExceptions.
Context {C : Collaborators}.

Lemma worker_Throw (VT : value_type) (IT : index_type)
  (srcs dests : list gdf_column) (n_gpus : Z)
  (damping_factor : spec_float) (n_iter : Z) (st : shared * machine) (i : Z)
  msg s :
  worker VT IT srcs dests n_gpus damping_factor n_iter st i = Throw msg s →
  msg = "SNMG Degree failed in Pagerank".
Proof.
  unfold worker. destruct st as [sh m]. intros H.
  apply bind_Throw in H as [H|(dest & _ & H)]; [by apply lift_no_Throw in H|].
  apply bind_Throw in H as [H|(src & _ & H)]; [by apply lift_no_Throw in H|].
  destruct (csr_column _ m) as [col_off m1].
  destruct (csr_column _ m1) as [col_ind m2].
  apply bind_Throw in H as [H|([s1 m3] & Hnew & H)];
    [by apply new_SNMGpagerank_no_Throw in H|].
  apply new_SNMGpagerank_spec in Hnew as (_ & _ & _ & _ & _ & Hs & _).
  apply bind_Throw in H as [H|([s2 m4] & Hsetup & H)].
  { apply setup_Throw in H. by rewrite Hs in H. }
  apply setup_modifies in Hsetup as (-> & _ & _).
  apply bind_Throw in H as [H|(n & _ & H)]; [by apply lift_no_Throw in H|].
  destruct (ALLOC_TRY n m4) as [q m5].
  apply bind_Throw in H as [H|(? & _ & H)]; [by apply lift_no_Throw in H|].
  apply bind_Throw in H as [H|([s3 m6] & _ & H)].
  { by apply solve_Throw in H as [? _]. }
  apply bind_Throw in H as [H|([sh1 m7] & _ & H)]; [|done].
  destruct (i =? 0); [|done].
  destruct (ALLOC_TRY n m6) as [d m7'].
  apply bind_Throw in H as [H|(? & _ & H)]; [|done].
  by apply on_mem_no_Throw in H.
Qed.

Lemma workers_Throw (VT : value_type) (IT : index_type)
  (srcs dests : list gdf_column) (n_gpus : Z)
  (damping_factor : spec_float) (n_iter : Z) (l : list Z) msg s :
  ∀ o : result (shared * machine),
    (∀ msg' s', o = Throw msg' s' → msg' = "SNMG Degree failed in Pagerank") →
    foldl (λ acc i, st ← acc;
             worker VT IT srcs dests n_gpus damping_factor n_iter st i) o l
    = Throw msg s →
    msg = "SNMG Degree failed in Pagerank".
Proof.
  induction l as [|i l IH]; intros o Ho H; cbn [foldl] in H; [by eapply Ho|].
  eapply IH; [|done]. intros msg' s' H'.
  apply bind_Throw in H' as [H'|(st & _ & H')]; [by eapply Ho|].
  by eapply worker_Throw.
Qed.

Lemma gdf_snmg_pagerank_impl_Throw (VT : value_type) (IT : index_type)
  (srcs dests : list gdf_column) (col : gdf_column) (n_gpus : Z)
  (damping_factor : spec_float) (n_iter : Z) (m : machine) msg s :
  gdf_snmg_pagerank_impl VT IT srcs dests col n_gpus damping_factor n_iter m
  = Throw msg s →
  msg = "SNMG Degree failed in Pagerank".
Proof.
  unfold gdf_snmg_pagerank_impl. intros H.
  apply bind_Throw in H as [H|([sh m1] & _ & H)]; [|done].
  by eapply workers_Throw in H.
Qed.

(** X14. A run of the driver raises neither "Setup can be called only
    once" nor "Solve was called before setup", in either precision:
    each worker calls [setup] once, on the solver it has just
    constructed, and calls [solve] only after that [setup] has
    returned. *)
Theorem driver_keeps_the_solver_contract (VT : value_type) (IT : index_type)
  (srcs dests : list gdf_column) (col : gdf_column) (n_gpus : Z)
  (damping_factor : spec_float) (n_iter : Z) (m : machine) msg st :
  gdf_snmg_pagerank_impl VT IT srcs dests col n_gpus damping_factor n_iter m
  = Throw msg st →
  msg ≠ "Setup can be called only once" ∧
  msg ≠ "Solve was called before setup".
Proof. by intros ->%gdf_snmg_pagerank_impl_Throw. Qed.
End DriverExceptions.

(** ** Solving again *)

Lemma same_lengths_refl m : same_lengths m m.
Proof. by intros q. Qed.

Lemma same_lengths_trans m1 m2 m3 :
  same_lengths m1 m2 → same_lengths m2 m3 → same_lengths m1 m3.
Proof. intros H1 H2 q. by rewrite H2, H1. Qed.

Lemma store_cells_lengths {St} p cs (m m' : machine) :
  on_mem (St := St) (store_cells p cs) m = Ret m' → same_lengths m m'.
Proof.
  intros (h & (buf & Hbuf & Hlen & ->)%store_cells_lookup & ->)%on_mem_Ret q.
  simpl. destruct (decide (q = p)) as [->|Hq].
  - rewrite lookup_insert_eq, Hbuf. simpl.
    rewrite length_app, length_drop. f_equal. lia.
  - by rewrite lookup_insert_ne.
Qed.

Section SolveAgain.
Context {C : Collaborators}.
Variable T : value_type.

Lemma scal_lengths n a p m m' :
  on_mem (St := SNMGpagerank * machine) (scal T n a p) m = Ret m' →
  same_lengths m m'.
Proof.
  intros (h & H & ->)%on_mem_Ret. unfold scal in H.
  destruct (load_vals (mem m) n p) as [xs|]; [|done]. simpl in H.
  apply (store_cells_lengths (St := SNMGpagerank * machine) p (Val <$> (vmul T a <$> xs))).
  unfold on_mem. by rewrite H.
Qed.

Lemma addv_lengths n a p m m' :
  on_mem (St := SNMGpagerank * machine) (addv T n a p) m = Ret m' →
  same_lengths m m'.
Proof.
  intros (h & H & ->)%on_mem_Ret. unfold addv in H.
  destruct (load_vals (mem m) n p) as [xs|]; [|done]. simpl in H.
  apply (store_cells_lengths (St := SNMGpagerank * machine) p
           (Val <$> ((λ x, vadd T x a) <$> xs))).
  unfold on_mem. by rewrite H.
Qed.

Lemma spmv_run_lengths this pr m m' :
  spmv_run T this pr m = Ret m' → same_lengths m m'.
Proof.
  unfold spmv_run. intros H.
  apply bind_Ret in H as (offs & _ & H).
  apply bind_Ret in H as (inds & _ & H).
  apply bind_Ret in H as (vals & _ & H).
  apply bind_Ret in H as (xs & _ & H).
  by eapply store_cells_lengths.
Qed.

Lemma solve_init_lengths this pr m st :
  solve_init T this pr m = Ret st → same_lengths m st.2.
Proof.
  unfold solve_init. intros H.
  apply bind_Ret in H as (m1 & H1 & H).
  apply bind_Ret in H as (d & _ & H). injection H as <-. simpl.
  by eapply store_cells_lengths.
Qed.

Lemma solve_body_lengths this pr st st' :
  solve_body T this pr st = Ret st' → same_lengths st.2 st'.2.
Proof.
  unfold solve_body. destruct st as [dot_res m]. intros H.
  apply bind_Ret in H as (m1 & H1%spmv_run_lengths & H).
  apply bind_Ret in H as (a & _ & H).
  apply bind_Ret in H as (m2 & H2%scal_lengths & H).
  apply bind_Ret in H as (m3 & H3%addv_lengths & H).
  apply bind_Ret in H as (d & _ & H).
  apply bind_Ret in H as (nrm & _ & H).
  apply bind_Ret in H as (m4 & H4%scal_lengths & H).
  injection H as <-. simpl.
  eauto using same_lengths_trans.
Qed.

Lemma solve_final_lengths this pr st m' :
  solve_final T this pr st = Ret m' → same_lengths st.2 m'.
Proof.
  unfold solve_final. intros H.
  by apply bind_Ret in H as (nrm & _ & H%scal_lengths).
Qed.

Lemma iter_body_lengths this pr n st st' :
  Nat.iter n (λ acc, acc ≫= solve_body T this pr) (Ret st) = Ret st' →
  same_lengths st.2 st'.2.
Proof.
  revert st'. induction n as [|n IH]; simpl; intros st' H.
  - injection H as <-. apply same_lengths_refl.
  - apply bind_Ret in H as (st1 & H1 & H2%solve_body_lengths).
    eauto using same_lengths_trans.
Qed.

(** X15. Solving again gives the same result: a second call of
    [solve] on the machine the first call left, with a pagerank vector
    of [v_glob] cells, returns that machine unchanged. *)
Theorem solve_twice_is_solve_once (max_iter : Z) (this this' : SNMGpagerank)
  (m m' : machine) (pr : ptr) (buf : list cell) :
  index (pagerank m) (id this) = Some pr →
  mem m !! pr = Some buf →
  length buf = Z.to_nat (v_glob this) →
  solve T max_iter this m = Ret (this', m') →
  solve T max_iter this' m' = Ret (this', m').
Proof.
  intros Hpr Hbuf Hlen H. pose proof H as Hsolve.
  unfold solve in H. destruct (is_setup this) eqn:Hs; [|done].
  rewrite Hpr in H. simpl in H.
  apply bind_Ret in H as (st0 & H0 & H).
  apply bind_Ret in H as (st1 & H1 & H).
  apply bind_Ret in H as (m1 & H2 & H).
  injection H as <- <-.
  rewrite (solve_loop_iter T this pr max_iter _ 0 st0 eq_refl) in H1.
  assert (only_writes pr m m1) as (Hf & Hd & Hp).
  { apply solve_init_only_writes in H0. apply iter_body_only_writes in H1.
    apply solve_final_only_writes in H2. eauto using only_writes_trans. }
  assert (same_lengths m m1) as Hl.
  { apply solve_init_lengths in H0. apply iter_body_lengths in H1.
    apply solve_final_lengths in H2. eauto using same_lengths_trans. }
  specialize (Hl pr). rewrite Hbuf in Hl. simpl in Hl.
  destruct (mem m1 !! pr) as [buf1|] eqn:Hbuf1; [|done].
  injection Hl as Hl.
  assert (m1 = set_mem (<[pr := buf1]> (mem m)) m) as Hm1.
  { symmetry. apply machine_eq; simpl; [|done..].
    apply map_eq. intros q. destruct (decide (q = pr)) as [->|Hq].
    - by rewrite lookup_insert_eq.
    - rewrite lookup_insert_ne by done. by rewrite Hf. }
  unfold solve in Hsolve. rewrite Hs, Hpr in Hsolve. simpl in Hsolve.
  rewrite Hm1 at 1. unfold solve. rewrite Hs. simpl. rewrite Hpr. simpl.
  unfold solve_init in *.
  by rewrite (fill_overwrites this m pr buf buf1) by (done || lia).
Qed.
End SolveAgain.

(** ** The vector the driver publishes *)

Lemma csr_column_block (o : option (list Z)) (m m1 : machine) (col : gdf_column) :
  csr_column o m = (col, m1) →
  match o with
  | Some l => data col ≠ nullptr ∧ mem m !! data col = None ∧
              mem m1 = <[data col := Idx <$> l]> (mem m)
  | None => data col = nullptr ∧ mem m1 = mem m
  end.
Proof.
  unfold csr_column. destruct o as [l|].
  - destruct (ALLOC_TRY _ m) as [p m0] eqn:Halloc.
    apply ALLOC_TRY_spec in Halloc as (? & Hfresh & Hm0 & ? & ?).
    intros [= <- <-]. simpl. by rewrite Hm0, insert_insert_eq.
  - by intros [= <- <-].
Qed.

Section SolveLengths.
Context {C : Collaborators}.
Variable T : value_type.

Lemma solve_lengths (max_iter : Z) (this this' : SNMGpagerank) (m m' : machine) :
  solve T max_iter this m = Ret (this', m') → same_lengths m m'.
Proof.
  unfold solve. destruct (is_setup this); [|done]. intros H.
  apply bind_Ret in H as (pr & _ & H).
  apply bind_Ret in H as (st0 & H0%solve_init_lengths & H).
  apply bind_Ret in H as (st1 & H1 & H).
  apply bind_Ret in H as (m1 & H2%solve_final_lengths & H).
  injection H as <- <-.
  rewrite (solve_loop_iter T this pr max_iter _ 0 st0 eq_refl) in H1.
  apply iter_body_lengths in H1. eauto using same_lengths_trans.
Qed.
End SolveLengths.

Section WorkerVector.
Context {C : Collaborators}.
Variable VT : value_type.
Variable IT : index_type.

Lemma setup_reads_ind (a : spec_float) (this this' : SNMGpagerank)
  (m m' : machine) :
  mem m !! nullptr = None →
  setup VT IT a this m = Ret (this', m') → ind this ≠ nullptr.
Proof.
  intros Hnull. unfold setup. destruct (is_setup this); [done|].
  cbn [negb]. cbv zeta.
  destruct (ALLOC_TRY _ m) as [degree_loc m1] eqn:Halloc.
  apply ALLOC_TRY_spec in Halloc as (Hdn & _ & Hm1 & _ & _).
  intros H.
  apply bind_Ret in H as (? & _ & H).
  apply bind_Ret in H as (offs & _ & H).
  apply bind_Ret in H as (inds & Hinds%lift_Ret & _).
  simpl in Hinds. rewrite Hm1 in Hinds. intros Heq. rewrite Heq in Hinds.
  rewrite lookup_insert_ne in Hinds by done. congruence.
Qed.

(** What worker 0 publishes is the vector that [solve] left in
    [pagerank[0]]. *)
Lemma worker_publishes (srcs dests : list gdf_column) (n_gpus : Z)
  (damping_factor : spec_float) (n_iter : Z) (sh sh' : shared) (m m' : machine) :
  mem m !! nullptr = None →
  worker VT IT srcs dests n_gpus damping_factor n_iter (sh, m) 0 = Ret (sh', m') →
  ∃ scores,
    mem m' !! data (pr_col sh') = Some (Val <$> scores) ∧
    master_vector VT IT srcs dests n_gpus damping_factor n_iter m
      (size (pr_col sh')) scores.
Proof.
  intros Hnull. unfold worker. intros H.
  apply bind_Ret in H as (dest & Hdest%lift_Ret & H).
  apply bind_Ret in H as (src & Hsrc%lift_Ret & H).
  set (r := gdf_snmg_coo2csr 0 (mem m) dest src) in *.
  destruct (csr_column (csr_off r) m) as [col_off m1] eqn:Hoff.
  destruct (csr_column (csr_ind r) m1) as [col_ind m2] eqn:Hind.
  pose proof Hoff as Boff%csr_column_block.
  pose proof Hind as Bind%csr_column_block.
  apply csr_column_spec in Hoff as (S01 & N1 & F1).
  apply csr_column_spec in Hind as (S12 & N2 & F2).
  set (po := part_offset _) in *.
  assert (po = csr_part_offset r) as Hpo by (unfold po; by destruct (decide _)).
  assert (mem m2 !! nullptr = None) as Hnull2 by congruence.
  apply bind_Ret in H as ([s m3] & Hnew & H).
  pose proof Hnew
    as (_ & _ & Hoffs & Hinds & Hid & _ & Hvg & _ & Aoff & Fb & Fv & Hbv & Hm3 & _ & _
        & Hbn & Hvn)%new_SNMGpagerank_spec.
  apply bind_Ret in H as ([s' m4] & Hsetup & H).
  assert (mem m3 !! nullptr = None) as Hnull3
    by (rewrite Hm3, !lookup_insert_ne; done).
  pose proof (setup_reads_ind _ _ _ _ _ Hnull3 Hsetup) as Hindn.
  rewrite Hinds in Hindn.
  pose proof Hsetup as (Hs' & _ & S34)%setup_modifies.
  apply bind_Ret in H as (n & Hn%lift_Ret & H).
  destruct (ALLOC_TRY n m4) as [q m5] eqn:Hq.
  pose proof Hq as (_ & _ & Hm5 & _ & _)%ALLOC_TRY_spec.
  apply ALLOC_TRY_modifies in Hq as (Hqn & Fq & Hqblock & S45 & _ & _).
  apply bind_Ret in H as (? & Hslot%lift_Ret & H).
  apply bind_Ret in H as ([s'' m6] & Hsolve & H).
  assert (index (pagerank (set_pagerank (<[Z.to_nat 0 := q]> (pagerank m5)) m5))
            (id s') = Some q) as Hprq.
  { rewrite Hs'. simpl. rewrite Hid. simpl. unfold index in *. simpl in *.
    apply list_lookup_insert_eq. by eapply lookup_lt_Some. }
  pose proof Hsolve as Hlens%solve_lengths.
  pose proof Hsolve as (Hs'' & _ & S56 & ys & rest & Hys & Hlen)%(solve_result VT _ _ _ _ _ q);
    [|done].
  subst s''.
  simpl in Hys, Hlen, S56, S45, Hslot.
  assert (v_glob s' = n) as Hvn'.
  { rewrite Hs'. simpl. simpl in Hvg, Hn. congruence. }
  assert (rest = []) as ->.
  { specialize (Hlens q). simpl in Hlens. rewrite Hys, Hqblock in Hlens.
    simpl in Hlens. injection Hlens as Hlens.
    rewrite length_app, length_fmap, length_replicate in Hlens.
    apply nil_length_inv. lia. }
  rewrite app_nil_r in Hys.
  assert (mem m2 !! data col_off = Some (Idx <$> default [] (csr_off r)) ∧
          is_Some (csr_off r)) as [Hoffblock Hoffsome].
  { destruct (csr_off r) as [offs|]; simpl.
    - destruct Boff as (Hon & _ & Hm1). split; [|done].
      assert (is_Some (mem m1 !! data col_off)) as Ho1
        by (by rewrite Hm1, lookup_insert_eq).
      rewrite (modifies_lookup _ _ _ _ S12).
      + by rewrite Hm1, lookup_insert_eq.
      + apply not_elem_of_1. destruct F2 as [->|[? _]]; [done|].
        by eapply fresh_ne.
    - destruct Boff as (Hon & _). rewrite Hon, Hnull2 in Aoff.
      by destruct Aoff. }
  assert (mem m2 !! data col_ind = Some (Idx <$> default [] (csr_ind r)) ∧
          is_Some (csr_ind r)) as [Hindblock Hindsome].
  { destruct (csr_ind r) as [inds|]; simpl.
    - destruct Bind as (_ & _ & Hm2). split; [|done].
      by rewrite Hm2, lookup_insert_eq.
    - by destruct Bind as (? & _). }
  destruct Hoffsome as [offs Hcoff]. destruct Hindsome as [inds Hcind].
  rewrite Hcoff in Hoffblock. rewrite Hcind in Hindblock.
  simpl in Hoffblock, Hindblock.
  assert (∀ y, is_Some (mem m !! y) → mem m2 !! y = mem m !! y) as Hkeep2.
  { intros y Hy.
    assert (y ≠ nullptr) as Hyn by apply (fresh_ne (mem m) nullptr y Hnull Hy).
    assert (y ≠ data col_off)
      by (destruct F1 as [Hf1|[? _]]; [by rewrite Hf1|by eapply fresh_ne]).
    pose proof (modifies_is_Some _ _ _ y S01 Hy) as Hy1.
    assert (y ≠ data col_ind)
      by (destruct F2 as [Hf2|[? _]]; [by rewrite Hf2|by eapply fresh_ne]).
    rewrite (modifies_lookup _ _ _ y S12), (modifies_lookup _ _ _ y S01);
      auto using not_elem_of_1. }
  apply bind_Ret in H as ([sh1 m7] & Hmaster & H).
  injection H as <- <-.
  change (0 =? 0) with true in Hmaster. cbv iota in Hmaster.
  destruct (ALLOC_TRY n m6) as [d m7'] eqn:Hd.
  apply ALLOC_TRY_modifies in Hd as (Hdn & Fd & Hdblock & S67 & _ & _).
  apply bind_Ret in Hmaster as (m8 & (h8 & Hcopy & ->)%on_mem_Ret & Hmaster).
  injection Hmaster as <- <-. simpl in *.
  assert (d ≠ q) as Hdq.
  { intros ->. rewrite Hys in Fd. done. }
  assert (mem m7' !! q = Some ((Val <$> ys) ++ [])) as Hq7.
  { rewrite app_nil_r, (modifies_lookup _ _ _ q S67); [done|].
    apply not_elem_of_1. by apply not_eq_sym. }
  rewrite Hvn' in Hlen.
  apply (cudaMemcpy_result _ _ _ _ _ ys [] Hdq Hq7 Hlen Hdblock) in Hcopy as ->.
  exists ys. split.
  - unfold delete_SNMGpagerank, gdf_col_delete, ALLOC_FREE_TRY. simpl.
    assert (∀ p, (p = nullptr ∨ is_Some (mem m6 !! p)) → d ≠ p) as Hdne.
    { intros p [->|Hp]; [done|]. apply not_eq_sym. by eapply fresh_ne. }
    assert (is_Some (mem m3 !! bookmark s)) as Ab
      by (rewrite Hm3, lookup_insert_ne, lookup_insert_eq; done).
    assert (is_Some (mem m3 !! val s)) as Av
      by (rewrite Hm3, lookup_insert_eq; done).
    assert (modifies [bookmark s; val s] (mem m2) (mem m3)) as S23.
    { rewrite Hm3. split.
      - intros y [Hy1 [Hy2 _]%not_elem_of_cons]%not_elem_of_cons.
        by rewrite !lookup_insert_ne.
      - intros y Hy. rewrite !lookup_insert_ne; [done|..];
          intros <-; [rewrite Fb in Hy|rewrite Fv in Hy]; by destruct Hy. }
    assert (is_Some (mem m6 !! bookmark s) ∧ is_Some (mem m6 !! val s) ∧
            is_Some (mem m6 !! q) ∧ is_Some (mem m6 !! data col_off) ∧
            is_Some (mem m6 !! data col_ind))
      as (Ab6 & Av6 & Aq6 & Ao6 & Ai6).
    { split_and!.
      - eauto using modifies_is_Some.
      - eauto using modifies_is_Some.
      - by rewrite Hys.
      - assert (is_Some (mem m2 !! data col_off)) by (by rewrite Hoffblock).
        eauto 10 using modifies_is_Some.
      - assert (is_Some (mem m2 !! data col_ind)) by (by rewrite Hindblock).
        eauto 10 using modifies_is_Some. }
    rewrite Hs'. simpl.
    rewrite !lookup_delete_ne by (apply not_eq_sym, Hdne; auto).
    by rewrite lookup_insert_eq.
  - exists dest, src, offs, inds, (data col_off), (data col_ind), m2, s, m3, s', m4,
      q, (set_pagerank (<[Z.to_nat 0 := q]> (pagerank m5)) m5), m6.
    fold r. rewrite <- Hpo.
    by split_and!.
Qed.
End WorkerVector.

Section DriverVector.
Context {C : Collaborators}.
Variable VT : value_type.
Variable IT : index_type.

(** The column that a returning run of the driver publishes holds the
    pagerank vector of worker 0. *)
Lemma gdf_snmg_pagerank_impl_vector (srcs dests : list gdf_column)
  (col col' : gdf_column) (n_gpus : Z) (damping_factor : spec_float)
  (n_iter : Z) (m m' : machine) (e : gdf_error) :
  0 < n_gpus →
  mem m !! nullptr = None →
  gdf_snmg_pagerank_impl VT IT srcs dests col n_gpus damping_factor n_iter m
  = Ret (e, col', m') →
  ∃ scores,
    mem m' !! data col' = Some (Val <$> scores) ∧
    master_vector VT IT srcs dests n_gpus damping_factor n_iter m
      (size col') scores.
Proof.
  intros Hn Hnull. unfold gdf_snmg_pagerank_impl.
  intros ([sh' m1] & H & [= <- <- <-])%bind_Ret.
  rewrite (seqZ_cons 0 n_gpus) in H by lia. cbn [foldl] in H.
  pose proof H as [[sh0 m0] H0]%workers_not_Ret.
  rewrite H0 in H.
  pose proof H as [Hcol _]%workers_spec.
  pose proof H0 as (Hnull0 & _ & _)%worker_memory; [|done].
  apply worker_publishes in H0 as (scores & Hscores & Hvec); [|done].
  apply workers_memory in H as [_ Hkeep]; [|done].
  rewrite Hcol by (rewrite elem_of_seqZ; lia).
  exists scores. split; [|done]. rewrite Hkeep; [done|]. by rewrite Hscores.
Qed.
End DriverVector.

Section Published.
Context {C : Collaborators}.

(** C7. A call of the entry point that returns [GDF_SUCCESS], on a
    machine with no block at the null address, has published a column
    of [GDF_FLOAT32] whose size is [part_offset[p]], the last partition
    offset (the total vertex count) that the conversion of worker 0
    published, and whose data block holds exactly that many values:
    the pagerank vector of worker 0, that is, the contents in which
    [solve] left [pagerank[0]] for the solver constructed on the CSR of
    worker 0 and set up with the damping factor, one score for each of
    the [v_glob] global vertex ids. *)
Theorem successful_run_publishes_all_vertices s d c (n_gpus : Z)
  (damping_factor : spec_float) (n_iter : Z) (m m' : machine) c' :
  mem m !! nullptr = None →
  gdf_snmg_pagerank s d c n_gpus damping_factor n_iter m
  = Ret (GDF_SUCCESS, c', m') →
  ∃ srcs dests src dest col' total scores,
    s = Some srcs ∧ d = Some dests ∧
    index srcs 0 = Some src ∧ index dests 0 = Some dest ∧
    index (csr_part_offset (gdf_snmg_coo2csr 0 (mem m) dest src)) n_gpus
    = Some total ∧
    c' = Some col' ∧ dtype col' = GDF_FLOAT32 ∧ size col' = total ∧
    mem m' !! data col' = Some (Val <$> scores) ∧
    length scores = Z.to_nat total ∧
    master_vector Float32 Int32 srcs dests n_gpus damping_factor n_iter m
      total scores.
Proof.
  intros Hnull. unfold gdf_snmg_pagerank.
  intros (v & Hv%validate_status & H)%bind_Ret.
  destruct v as [e|]; [by injection H as -> <- <-|].
  destruct Hv as (Hn & _).
  destruct s as [srcs|], d as [dests|], c as [col|]; try done.
  apply bind_Ret in H as ([[e col'] m1] & Himpl & [= -> <- <-]).
  pose proof Himpl as (scores & Hscores & Hvec)%gdf_snmg_pagerank_impl_vector;
    [|done..].
  apply gdf_snmg_pagerank_impl_spec in Himpl
    as (dest & src & total & ? & ? & ? & ? & Hsize & _); [|done].
  exists srcs, dests, src, dest, col', total, scores.
  rewrite Hsize in Hvec. split_and!; try done.
  by destruct Hvec as (? & ? & ? & ? & ? & ? & ? & ? & ? & ? & ? & ? & ? & ?
                       & ? & ? & ? & ? & ? & ? & ? & ? & ? & ? & ? & ? & ? & ? & ?
                       & ? & ?).
Qed.
End Published.

(** ** Validation in the order of the checks *)

Lemma check_devices_clean {St} (srcs dests : list gdf_column) (l : list Z) :
  (∀ j, j ∈ l → clean_device srcs dests j) →
  @check_devices St srcs dests l = Ret None.
Proof.
  induction l as [|j l IH]; intros Hl; simpl; [done|].
  destruct (Hl j ltac:(left)) as (s & d & -> & -> & ? & ? & ?). simpl.
  rewrite check_device_pass by done. apply IH. intros. apply Hl. by right.
Qed.

Section EntryOrder.
Context {C : Collaborators}.
Hypothesis Hdev_count : 0 ≤ dev_count < 2 ^ 31 - 1.

(** C6. Validation comes before any work on the device: every status it
    returns leaves the machine and the output column untouched. A null
    pointer, a damping factor outside (0,1), [n_iter <= 0] or a device
    count outside (0, dev_count] give [GDF_INVALID_API_CALL]. Otherwise
    the devices are checked in their order and the first device whose
    columns fail a check decides the status, by the first check that
    fails there: [GDF_COLUMN_SIZE_MISMATCH] for different lengths, else
    [GDF_UNSUPPORTED_DTYPE] for different types, else
    [GDF_VALIDITY_UNSUPPORTED] for null markers, else
    [GDF_UNSUPPORTED_DTYPE] for a type that is not [GDF_INT32]. A
    violation on any device gives one of these statuses, which reports
    a violation of some device; when every device passes, the call is
    the one of the engine. *)
Theorem validation_precedes_allocation (srcs dests : list gdf_column)
  (col : gdf_column) (n_gpus : Z) (damping_factor : spec_float) (n_iter : Z)
  (m : machine) :
  let run := gdf_snmg_pagerank (Some srcs) (Some dests) (Some col) n_gpus
               damping_factor n_iter m in
  let bad := bad_arguments n_gpus damping_factor n_iter in
  (∀ s d c, s = None ∨ d = None ∨ c = None →
     gdf_snmg_pagerank s d c n_gpus damping_factor n_iter m
     = Ret (GDF_INVALID_API_CALL, c, m)) ∧
  (bad → run = Ret (GDF_INVALID_API_CALL, Some col, m)) ∧
  (¬ bad →
   ∀ k src dest,
     0 ≤ k < n_gpus →
     (∀ j, 0 ≤ j < k → clean_device srcs dests j) →
     index srcs k = Some src → index dests k = Some dest →
     (size src ≠ size dest →
      run = Ret (GDF_COLUMN_SIZE_MISMATCH, Some col, m)) ∧
     (size src = size dest → dtype src ≠ dtype dest →
      run = Ret (GDF_UNSUPPORTED_DTYPE, Some col, m)) ∧
     (size src = size dest → dtype src = dtype dest →
      null_count src ≠ 0 ∨ null_count dest ≠ 0 →
      run = Ret (GDF_VALIDITY_UNSUPPORTED, Some col, m)) ∧
     (size src = size dest → dtype src = dtype dest →
      null_count src = 0 → null_count dest = 0 → dtype src ≠ GDF_INT32 →
      run = Ret (GDF_UNSUPPORTED_DTYPE, Some col, m))) ∧
  (¬ bad →
   n_gpus ≤ Z.of_nat (length srcs) → n_gpus ≤ Z.of_nat (length dests) →
   on_some_device srcs dests n_gpus length_mismatch ∨
   on_some_device srcs dests n_gpus type_unsupported ∨
   on_some_device srcs dests n_gpus has_nulls →
   ∃ e, run = Ret (e, Some col, m) ∧
        on_some_device srcs dests n_gpus (reported e)) ∧
  (¬ bad → (∀ j, 0 ≤ j < n_gpus → clean_device srcs dests j) →
   run = ('(status, c, m') ← gdf_snmg_pagerank_impl Float32 Int32 srcs dests
                               col n_gpus damping_factor n_iter m;
          Ret (status, Some c, m'))).
Proof.
  intros run bad. split_and!.
  - intros [s|] [d|] [c|] [|[|]]; done.
  - intros Hb. unfold run, gdf_snmg_pagerank. rewrite validate_eq.
    destruct (scalar_checks _ _ _) eqn:Hs; [|done].
    by apply scalar_checks_spec in Hs.
  - intros Hs%scalar_checks_spec k src dest Hk Hbefore Hsrc Hdest; [|done].
    assert (∀ e, (∀ rest, @check_device (SNMGpagerank * machine) src dest rest
                          = Ret (Some e)) →
                 run = Ret (e, Some col, m)) as Hrun.
    { intros e He. unfold run, gdf_snmg_pagerank. rewrite validate_eq, Hs.
      replace n_gpus with (k + (n_gpus - k)) by lia.
      rewrite seqZ_app by lia. rewrite (seqZ_cons (0 + k)) by lia.
      rewrite (check_devices_first srcs dests _ _ (0 + k) src dest e); try done.
      intros j Hj%elem_of_seqZ. apply Hbefore. lia. }
    unfold check_device, GDF_REQUIRE in Hrun.
    split_and!.
    + intros Hsize. apply Hrun. intros rest. by rewrite bool_decide_false.
    + intros Hsize Htype. apply Hrun. intros rest.
      rewrite bool_decide_true by done. by rewrite bool_decide_false.
    + intros Hsize Htype Hnulls. apply Hrun. intros rest.
      rewrite !bool_decide_true by done.
      destruct (Z.eqb_spec (null_count src) 0); [|done].
      destruct (Z.eqb_spec (null_count dest) 0); [|done]. lia.
    + intros Hsize Htype Hn1 Hn2 Hint. apply Hrun. intros rest.
      rewrite !bool_decide_true by done. rewrite Hn1, Hn2. simpl.
      by rewrite bool_decide_false.
  - intros Hok Hsrcs Hdests Hsome.
    pose proof (validation_by_kind Hdev_count srcs dests col n_gpus damping_factor
                  n_iter m (λ _, conj Hsrcs Hdests)) as H.
    cbv zeta in H. destruct H as (_ & _ & H & _). by apply H.
  - intros Hs%scalar_checks_spec Hclean; [|done].
    unfold run, gdf_snmg_pagerank. rewrite validate_eq, Hs.
    rewrite check_devices_clean; [done|].
    intros j Hj%elem_of_seqZ. apply Hclean. lia.
Qed.
End EntryOrder.

(** ** The running example *)

Section RunningExample.
#[local] Existing Instance OneDevice.collaborators.

Lemma constructed_eq :
  new_SNMGpagerank Example.env0 [0; 4]
    Example.csr_off_ptr Example.csr_ind_ptr Example.csr_machine
  = Ret Example.constructed.
Proof. vm_compute. reflexivity. Qed.

Lemma ready_eq :
  setup Float32 Int32 OneDevice.damping_0_85
    Example.constructed.1 Example.constructed.2
  = Ret Example.ready.
Proof. vm_compute. reflexivity. Qed.

Lemma solved_eq :
  solve Float32 2 Example.ready.1 Example.ready.2 = Ret Example.solved.
Proof. vm_compute. reflexivity. Qed.

Lemma solve_runs_max_iter_rounds_witness :
  solve Float32 2 Example.ready.1 Example.ready.2
  = (st0 ← solve_init Float32 Example.ready.1 Example.pr_ptr Example.ready.2;
     st ← Nat.iter 2 (λ acc, acc ≫= solve_body Float32 Example.ready.1 Example.pr_ptr)
            (Ret st0);
     m' ← solve_final Float32 Example.ready.1 Example.pr_ptr st;
     Ret (Example.ready.1, m')).
Proof.
  apply (solve_runs_max_iter_rounds Float32 2
           Example.ready.1 Example.ready.2 Example.pr_ptr);
    reflexivity.
Defined.

Lemma setup_transition_and_bookmark_witness :
  ∃ deg,
    snmg_degree 0 [0; 4] (Idx <$> [0; 1; 2; 3; 4]) (Idx <$> [3; 0; 1; 2]) = Some deg ∧
    (∀ i, 0 ≤ i < 4 →
          ∃ c d, load_int (mem Example.csr_machine) Example.csr_ind_ptr i = Some c ∧
                 index deg c = Some d ∧
                 load (mem Example.ready.2) (val Example.ready.1) i
                 = Some (Val (convert Float32
                                (vdiv Float64 lit_1_0 (of_Z Float64 d))))) ∧
    (∀ v, 0 ≤ v < 4 →
          ∃ d, index deg v = Some d ∧
               load (mem Example.ready.2) (bookmark Example.ready.1) v
               = Some (Val (if d =? 0 then OneDevice.damping_0_85 else lit_0_0))).
Proof.
  assert (0 < CUDA_MAX_BLOCKS ≤ 65535) as Hblocks
    by (vm_compute; split; [reflexivity | discriminate]).
  destruct (setup_transition_and_bookmark Float32 Int32 Hblocks
              OneDevice.damping_0_85 Example.env0 [0; 4]
              Example.csr_off_ptr Example.csr_ind_ptr Example.csr_machine
              Example.constructed.2 Example.ready.2
              Example.constructed.1 Example.ready.1 (Idx <$> [3; 0; 1; 2]))
    as (offs & deg & Hoffs & Hdeg & Hval & Hbook).
  - vm_compute. reflexivity.
  - vm_compute. reflexivity.
  - vm_compute. reflexivity.
  - vm_compute. reflexivity.
  - exists deg. vm_compute in Hoffs. injection Hoffs as <-.
    split_and!; [exact Hdeg | exact Hval | exact Hbook].
Defined.

Lemma solve_before_setup_witness :
  solve Float32 10 Example.constructed.1 Example.constructed.2
  = Throw "Solve was called before setup" Example.constructed ∧
  mem Example.constructed.2 !! bookmark Example.constructed.1
  = Some (replicate 4 Undef) ∧
  mem Example.constructed.2 !! val Example.constructed.1
  = Some (replicate 4 Undef).
Proof.
  assert (new_SNMGpagerank Example.env0 [0; 4]
            Example.csr_off_ptr Example.csr_ind_ptr Example.csr_machine
          = Ret (Example.constructed.1, Example.constructed.2)) as Hnew
    by (vm_compute; reflexivity).
  destruct (solve_before_setup _ _ _ _ _ _ _ Hnew) as (Hthrow & Hs & Hb & Hv).
  split_and!.
  - apply (Hthrow Float32 10 _ _ Hs).
  - exact Hb.
  - exact Hv.
Defined.

(** C4 as the spec has it does not hold: the constructor has allocated
    both blocks before any call of [solve]. *)
Lemma solve_before_setup_leaves_no_buffers_fails :
  ¬ solve_before_setup_leaves_no_buffers.
Proof.
  intros Hclaim.
  destruct (Hclaim Float32 Example.env0 [0; 4] Example.csr_off_ptr
              Example.csr_ind_ptr Example.csr_machine
              Example.constructed.1 Example.constructed.2 10)
    as (_ & Hb & _); [vm_compute; reflexivity|].
  vm_compute in Hb. discriminate.
Qed.

Lemma setup_only_once_witness :
  is_setup Example.ready.1 = true ∧
  setup Float64 Int32 OneDevice.damping_0_85 Example.ready.1 Example.solved.2
  = Throw "Setup can be called only once" (Example.ready.1, Example.solved.2).
Proof.
  destruct (setup_only_once Float32 Float64
              Int32 Int32 OneDevice.damping_0_85 OneDevice.damping_0_85
              Example.constructed.1 Example.ready.1
              Example.constructed.2 Example.ready.2) as [Hs Honce].
  - vm_compute. reflexivity.
  - split; [exact Hs | apply Honce].
Defined.

Lemma solve_only_writes_pagerank_witness :
  Example.solved.1 = Example.ready.1 ∧
  is_setup Example.solved.1 = true ∧
  alpha Example.solved.1 = alpha Example.ready.1 ∧
  mem Example.solved.2 !! val Example.ready.1
  = mem Example.ready.2 !! val Example.ready.1 ∧
  mem Example.solved.2 !! bookmark Example.ready.1
  = mem Example.ready.2 !! bookmark Example.ready.1 ∧
  only_writes Example.pr_ptr Example.ready.2 Example.solved.2.
Proof.
  apply (solve_only_writes_pagerank Float32 2 Example.ready.1 Example.solved.1
           Example.ready.2 Example.solved.2 Example.pr_ptr).
  - reflexivity.
  - reflexivity.
  - vm_compute. discriminate.
  - vm_compute. discriminate.
  - vm_compute. reflexivity.
Defined.

Lemma transition_divisors_nonzero_witness :
  transition_value Float32 0 = S754_infinity false ∧
  ∃ m', transition_vals Float32 Int32 Example.constructed.1 Example.csr_deg_ptr
          Example.transition_input = Ret m' ∧
        ∀ i, 0 ≤ i < 4 →
             ∃ c d, load_int (mem Example.transition_input) Example.csr_ind_ptr i
                    = Some c ∧
                    load_int (mem Example.transition_input) Example.csr_deg_ptr c
                    = Some d ∧
                    d ≠ 0 ∧
                    load (mem m') (val Example.constructed.1) i
                    = Some (Val (convert Float32
                                   (vdiv Float64 lit_1_0 (of_Z Float64 d)))).
Proof.
  assert (0 < CUDA_MAX_BLOCKS ≤ 65535) as Hblocks
    by (vm_compute; split; [reflexivity | discriminate]).
  apply (transition_divisors_nonzero Float32 Int32 Hblocks
           Example.constructed.1 Example.csr_deg_ptr Example.transition_input).
  - vm_compute. split; reflexivity.
  - vm_compute. split; reflexivity.
  - vm_compute. discriminate.
  - vm_compute. discriminate.
  - exists (replicate 4 Undef). split; [reflexivity | vm_compute; discriminate].
  - intros i Hi. change (0 ≤ i < 4) in Hi.
    assert (i = 0 ∨ i = 1 ∨ i = 2 ∨ i = 3) as [-> | [-> | [-> | ->]]] by lia;
      eexists _, 1; (split_and!; [vm_compute; reflexivity..|lia]).
Defined.

Lemma successful_run_publishes_all_vertices_witness :
  ∃ srcs dests src dest col' total scores,
    Some [OneDevice.int32_column OneDevice.cycle_src 4] = Some srcs ∧
    Some [OneDevice.int32_column OneDevice.cycle_dst 4] = Some dests ∧
    index srcs 0 = Some src ∧ index dests 0 = Some dest ∧
    index (csr_part_offset
             (gdf_snmg_coo2csr 0 (mem OneDevice.cycle_machine) dest src)) 1
    = Some total ∧
    Example.published.1.2 = Some col' ∧ dtype col' = GDF_FLOAT32 ∧
    size col' = total ∧
    mem Example.published.2 !! data col' = Some (Val <$> scores) ∧
    length scores = Z.to_nat total ∧
    master_vector Float32 Int32 srcs dests 1 OneDevice.damping_0_85 1
      OneDevice.cycle_machine total scores.
Proof.
  apply (successful_run_publishes_all_vertices _ _
           (Some OneDevice.empty_column) 1 OneDevice.damping_0_85 1
           OneDevice.cycle_machine Example.published.2).
  - vm_compute. reflexivity.
  - vm_compute. reflexivity.
Defined.

Lemma entry_computes_in_single_precision_witness :
  dtype Example.published_double.1.2 = GDF_FLOAT32 ∧
  ∃ col', Example.published.1.2 = Some col' ∧ dtype col' = GDF_FLOAT32.
Proof.
  destruct entry_computes_in_single_precision as (_ & Hentry & Himpl).
  split.
  - apply (Himpl Float64 Int32 [OneDevice.int32_column OneDevice.cycle_src 4]
             [OneDevice.int32_column OneDevice.cycle_dst 4]
             OneDevice.empty_column 1 OneDevice.damping_0_85 1
             OneDevice.cycle_machine Example.published_double.1.1
             Example.published_double.1.2 Example.published_double.2).
    + reflexivity.
    + vm_compute. reflexivity.
  - destruct (Hentry (Some [OneDevice.int32_column OneDevice.cycle_src 4])
                (Some [OneDevice.int32_column OneDevice.cycle_dst 4])
                (Some OneDevice.empty_column) 1 OneDevice.damping_0_85 1
                OneDevice.cycle_machine Example.published.1.1
                Example.published.1.2 Example.published.2)
      as [(Hfail & _)|Hpub].
    + vm_compute. reflexivity.
    + vm_compute in Hfail. done.
    + exact Hpub.
Defined.

Lemma validation_precedes_allocation_witness :
  gdf_snmg_pagerank (C := Cases.two_devices)
    (Some Precedence.srcs) (Some Precedence.dests)
    (Some OneDevice.empty_column) 2 OneDevice.damping_0_85 10
    OneDevice.cycle_machine
  = Ret (GDF_VALIDITY_UNSUPPORTED, Some OneDevice.empty_column,
         OneDevice.cycle_machine).
Proof.
  assert (0 ≤ dev_count (Collaborators := Cases.two_devices) < 2 ^ 31 - 1)
    as Hdev by (vm_compute; split; [discriminate | reflexivity]).
  pose proof (validation_precedes_allocation (C := Cases.two_devices) Hdev
                Precedence.srcs Precedence.dests
                OneDevice.empty_column 2 OneDevice.damping_0_85 10
                OneDevice.cycle_machine) as H.
  cbv zeta in H.
  destruct H as (_ & _ & Hfirst & _).
  destruct (Hfirst) with (k := 0) (src := Precedence.nulls_src)
    (dest := OneDevice.int32_column OneDevice.cycle_dst 4)
    as (_ & _ & Hnulls & _).
  - intros [H|[H|H]]; apply H.
    + split; vm_compute; reflexivity.
    + reflexivity.
    + vm_compute. split; [reflexivity | discriminate].
  - lia.
  - intros j Hj. lia.
  - reflexivity.
  - reflexivity.
  - apply Hnulls; [reflexivity | reflexivity |]. left. vm_compute. discriminate.
Defined.

(** C6 as the spec has it does not hold: with null markers on device 0
    and different lengths on device 1 the lengths do differ on some
    device, and the status is [GDF_VALIDITY_UNSUPPORTED]. *)
Lemma every_violation_yields_its_status_fails :
  ¬ every_violation_yields_its_status (H := Cases.two_devices).
Proof.
  intros Hclaim.
  pose proof (Hclaim Precedence.srcs Precedence.dests OneDevice.empty_column 2
                OneDevice.damping_0_85 10 OneDevice.cycle_machine) as H.
  cbv zeta in H. destruct H as (Hmismatch & _).
  - intros [H|[H|H]]; apply H.
    + split; vm_compute; reflexivity.
    + reflexivity.
    + vm_compute. split; [reflexivity | discriminate].
  - assert (on_some_device Precedence.srcs Precedence.dests 2 length_mismatch)
      as Hsome.
    { exists 1, (OneDevice.int32_column OneDevice.cycle_src 4),
        Precedence.short_dest.
      split_and!; [lia | lia | reflexivity | reflexivity | vm_compute; discriminate]. }
    apply Hmismatch in Hsome. vm_compute in Hsome. discriminate.
Qed.

(** C3. With one device whose conversion reports a failure after it has
    filled its columns, the entry point returns the failure code and has
    written data, size and dtype of the output column; when the columns
    were not set the worker reads through the unset pointer; and a
    failure of [snmg_degree] is an exception that leaves the parallel
    region, not a returned status. *)
Theorem failed_collective_step_outcomes :
  (∃ m' d,
     Failing.run Failing.late_failure
     = Ret (GDF_CUDA_ERROR,
            Some {| data := d; size := 4; dtype := GDF_FLOAT32; null_count := 0 |},
            m') ∧
     mem m' !! d = Some (Val <$> replicate 4 Failing.quarter)) ∧
  Failing.run Failing.early_failure = Fault ∧
  (∃ st, Failing.run Failing.degree_failure
         = Throw "SNMG Degree failed in Pagerank" st).
Proof.
  split_and!.
  - eexists _, _. vm_compute. split; reflexivity.
  - vm_compute. reflexivity.
  - eexists. vm_compute. reflexivity.
Qed.

(** *** The further properties on the example *)

Lemma destructor_undoes_constructor_witness :
  delete_SNMGpagerank Example.constructed.1 Example.constructed.2
  = Example.csr_machine.
Proof.
  apply (destructor_undoes_constructor Example.env0 [0; 4]
           Example.csr_off_ptr Example.csr_ind_ptr).
  vm_compute. reflexivity.
Defined.

Lemma transition_kernel_writes_only_below_e_witness :
  dom Cases.kernel_output = dom (mem Example.transition_input) ∧
  (∀ q, q ≠ val Example.constructed.1 →
        Cases.kernel_output !! q = mem Example.transition_input !! q) ∧
  (∀ vs, mem Example.transition_input !! val Example.constructed.1 = Some vs →
         ∃ vs', Cases.kernel_output !! val Example.constructed.1 = Some vs' ∧
                length vs' = length vs) ∧
  ∀ j, 4 ≤ j →
       load Cases.kernel_output (val Example.constructed.1) j
       = load (mem Example.transition_input) (val Example.constructed.1) j.
Proof.
  apply (transition_kernel_writes_only_below_e Float32 2 2 4
           Example.csr_ind_ptr Example.csr_deg_ptr).
  vm_compute. reflexivity.
Defined.

Lemma transition_kernel_launch_independent_witness :
  ∃ h',
    transition_kernel Float32 2 2 4 Example.csr_ind_ptr Example.csr_deg_ptr
      (val Example.constructed.1) (mem Example.transition_input) = Some h' ∧
    transition_kernel Float32 1 3 4 Example.csr_ind_ptr Example.csr_deg_ptr
      (val Example.constructed.1) (mem Example.transition_input) = Some h'.
Proof.
  apply transition_kernel_launch_independent.
  - vm_compute. discriminate.
  - vm_compute. discriminate.
  - lia.
  - lia.
  - lia.
  - lia.
  - lia.
  - lia.
  - lia.
  - split.
    + intros j Hj.
      assert (j = 0 ∨ j = 1 ∨ j = 2 ∨ j = 3) as [-> | [-> | [-> | ->]]] by lia;
        eexists _, 1; (split; vm_compute; reflexivity).
    + exists (replicate 4 Undef). split; [reflexivity | vm_compute; discriminate].
Defined.

Lemma transition_kernel_index_never_reaches_large_e_witness :
  (∀ (fuel : nat) (stride i : Z) (h : gmap ptr (list cell)),
     0 ≤ i < 2 ^ 32 →
     transition_thread Float32 fuel (2 ^ 32) Example.csr_ind_ptr
       Example.csr_deg_ptr Example.pr_ptr stride i h = None) ∧
  ∀ (gridDim blockDim : Z) (h : gmap ptr (list cell)),
    0 < gridDim → 0 < blockDim →
    transition_kernel Float32 gridDim blockDim (2 ^ 32) Example.csr_ind_ptr
      Example.csr_deg_ptr Example.pr_ptr h = None.
Proof.
  apply (transition_kernel_index_never_reaches_large_e Float32 (2 ^ 32)).
  lia.
Defined.

Lemma setup_releases_degree_vector_witness :
  dom (mem Example.ready.2) = dom (mem Example.constructed.2) ∧
  ∃ degree_loc,
    degree Example.ready.2
    = <[Z.to_nat (id Example.constructed.1) := degree_loc]>
        (degree Example.constructed.2) ∧
    degree_loc ≠ nullptr ∧
    mem Example.constructed.2 !! degree_loc = None ∧
    mem Example.ready.2 !! degree_loc = None.
Proof.
  apply (setup_releases_degree_vector Float32 Int32 OneDevice.damping_0_85
           Example.constructed.1 Example.ready.1).
  vm_compute. reflexivity.
Defined.

Lemma failed_degree_leaves_vector_allocated_witness :
  ∃ degree_loc m1,
    setup (C := Failing.degree_failure) Float32 Int32 OneDevice.damping_0_85
      Example.constructed.1 Example.constructed.2
    = Throw "SNMG Degree failed in Pagerank"
        (set_alpha OneDevice.damping_0_85 Example.constructed.1, m1) ∧
    is_setup (set_alpha OneDevice.damping_0_85 Example.constructed.1) = false ∧
    degree_loc ≠ nullptr ∧
    mem Example.constructed.2 !! degree_loc = None ∧
    mem m1 = <[degree_loc := replicate (Z.to_nat (v_glob Example.constructed.1)) Undef]>
               (mem Example.constructed.2) ∧
    degree m1 = <[Z.to_nat (id Example.constructed.1) := degree_loc]>
                  (degree Example.constructed.2) ∧
    pagerank m1 = pagerank Example.constructed.2.
Proof.
  apply (failed_degree_leaves_vector_allocated (C := Failing.degree_failure)
           Float32 Int32 OneDevice.damping_0_85 Example.constructed.1
           Example.constructed.2 (Idx <$> [0; 1; 2; 3; 4]) (Idx <$> [3; 0; 1; 2])
           nullptr).
  - reflexivity.
  - reflexivity.
  - vm_compute. reflexivity.
  - vm_compute. reflexivity.
  - reflexivity.
Defined.

Lemma solve_ignores_previous_vector_witness :
  solve Float32 2 Example.ready.1
    (set_mem (<[Example.pr_ptr := Cases.zeros]> (mem Example.ready.2))
       Example.ready.2)
  = solve Float32 2 Example.ready.1 Example.ready.2.
Proof.
  apply (solve_ignores_previous_vector Float32 2 Example.ready.1 Example.ready.2
           Example.pr_ptr (replicate 4 Undef) Cases.zeros).
  - reflexivity.
  - reflexivity.
  - vm_compute. reflexivity.
  - reflexivity.
  - reflexivity.
Defined.

Lemma solve_without_rounds_witness :
  solve Float32 0 Example.ready.1 Example.ready.2 = Ret Cases.unsolved ∧
  mem Cases.unsolved.2 !! Example.pr_ptr
  = Some (Val <$> replicate 4 Failing.quarter).
Proof.
  assert (load_vals (mem Example.ready.2) (v_glob Example.ready.1)
            (bookmark Example.ready.1) = Some (replicate 4 lit_0_0)) as Hbs
    by (vm_compute; reflexivity).
  assert (mem Example.ready.2 !! Example.pr_ptr = Some (replicate 4 Undef))
    as Hbuf by (vm_compute; reflexivity).
  assert (Example.pr_ptr ≠ bookmark Example.ready.1) as Hne
    by (vm_compute; discriminate).
  assert (Z.to_nat (v_glob Example.ready.1) ≤ length (replicate 4 Undef))%nat
    as Hlen by (vm_compute; lia).
  pose proof (solve_without_rounds Float32 0 Example.ready.1 Example.ready.2
                Example.pr_ptr (replicate 4 Undef) (replicate 4 lit_0_0)
                ltac:(lia) eq_refl eq_refl Hbuf Hlen Hne Hbs) as H.
  cbv zeta in H. rewrite H. split; vm_compute; reflexivity.
Defined.

Lemma gdf_snmg_pagerank_impl_releases_temporaries_witness :
  (data Example.published_double.1.2 ∉ dom (mem OneDevice.cycle_machine)) ∧
  dom (mem Example.published_double.2)
  = {[data Example.published_double.1.2]} ∪ dom (mem OneDevice.cycle_machine) ∧
  ∀ x, is_Some (mem OneDevice.cycle_machine !! x) →
       mem Example.published_double.2 !! x = mem OneDevice.cycle_machine !! x.
Proof.
  apply (gdf_snmg_pagerank_impl_releases_temporaries Float64 Int32
           [OneDevice.int32_column OneDevice.cycle_src 4]
           [OneDevice.int32_column OneDevice.cycle_dst 4]
           OneDevice.empty_column Example.published_double.1.2 1
           OneDevice.damping_0_85 1 OneDevice.cycle_machine
           Example.published_double.2 Example.published_double.1.1).
  - lia.
  - vm_compute. reflexivity.
  - vm_compute. reflexivity.
Defined.

Lemma gdf_snmg_pagerank_impl_status_witness :
  (Example.published_double.1.1 = GDF_SUCCESS →
   ∀ i, 0 ≤ i < 1 →
        conversion_returned [OneDevice.int32_column OneDevice.cycle_src 4]
          [OneDevice.int32_column OneDevice.cycle_dst 4]
          OneDevice.cycle_machine i GDF_SUCCESS) ∧
  (Example.published_double.1.1 ≠ GDF_SUCCESS →
   ∃ i, 0 ≤ i < 1 ∧
        conversion_returned [OneDevice.int32_column OneDevice.cycle_src 4]
          [OneDevice.int32_column OneDevice.cycle_dst 4]
          OneDevice.cycle_machine i Example.published_double.1.1).
Proof.
  apply (gdf_snmg_pagerank_impl_status Float64 Int32
           [OneDevice.int32_column OneDevice.cycle_src 4]
           [OneDevice.int32_column OneDevice.cycle_dst 4]
           OneDevice.empty_column Example.published_double.1.2 1
           OneDevice.damping_0_85 1 OneDevice.cycle_machine
           Example.published_double.2 Example.published_double.1.1).
  - vm_compute. reflexivity.
  - vm_compute. reflexivity.
Defined.

Lemma solver_lifetime_changes_pagerank_only_witness :
  ∃ pr, index (pagerank Example.csr_machine) (get_thread_num Example.env0)
        = Some pr ∧
        pagerank (delete_SNMGpagerank Example.solved.1 Example.solved.2)
        = pagerank Example.csr_machine ∧
        dom (mem (delete_SNMGpagerank Example.solved.1 Example.solved.2))
        = dom (mem Example.csr_machine) ∧
        ∀ q, q ≠ pr →
             mem (delete_SNMGpagerank Example.solved.1 Example.solved.2) !! q
             = mem Example.csr_machine !! q.
Proof.
  apply (solver_lifetime_changes_pagerank_only Float32 Int32 Example.env0 [0; 4]
           Example.csr_off_ptr Example.csr_ind_ptr OneDevice.damping_0_85 2
           Example.csr_machine Example.constructed.2 Example.ready.2
           Example.solved.2 Example.constructed.1 Example.ready.1
           Example.solved.1).
  - vm_compute. reflexivity.
  - vm_compute. reflexivity.
  - vm_compute. reflexivity.
Defined.

Lemma first_failing_device_decides_witness :
  gdf_snmg_pagerank (C := Cases.two_devices)
    (Some [OneDevice.int32_column OneDevice.cycle_src 4; Cases.bad_src])
    (Some [OneDevice.int32_column OneDevice.cycle_dst 4; Cases.bad_dest])
    (Some OneDevice.empty_column) 2 OneDevice.damping_0_85 10
    OneDevice.cycle_machine
  = Ret (GDF_COLUMN_SIZE_MISMATCH, Some OneDevice.empty_column,
         OneDevice.cycle_machine).
Proof.
  assert (scalar_checks (H := Cases.two_devices) 2 OneDevice.damping_0_85 10
          = true) as Hs by (vm_compute; reflexivity).
  pose proof (first_failing_device_decides (C := Cases.two_devices)
                [OneDevice.int32_column OneDevice.cycle_src 4; Cases.bad_src]
                [OneDevice.int32_column OneDevice.cycle_dst 4; Cases.bad_dest]
                OneDevice.empty_column 2 OneDevice.damping_0_85 10
                OneDevice.cycle_machine 1 Cases.bad_src Cases.bad_dest Hs) as H.
  cbv zeta in H.
  destruct H as (Hsize & _).
  - lia.
  - intros j Hj. assert (j = 0) as -> by lia.
    exists (OneDevice.int32_column OneDevice.cycle_src 4),
      (OneDevice.int32_column OneDevice.cycle_dst 4).
    split_and!; [reflexivity | reflexivity | | | ].
    + intros H. apply H. reflexivity.
    + intros [H|[H|H]]; apply H; reflexivity.
    + intros [H|H]; apply H; reflexivity.
  - reflexivity.
  - reflexivity.
  - apply Hsize. vm_compute. discriminate.
Defined.

Lemma solve_twice_is_solve_once_witness :
  solve Float32 2 Example.solved.1 Example.solved.2
  = Ret (Example.solved.1, Example.solved.2).
Proof.
  apply (solve_twice_is_solve_once Float32 2 Example.ready.1 Example.solved.1
           Example.ready.2 Example.solved.2 Example.pr_ptr (replicate 4 Undef)).
  - reflexivity.
  - vm_compute. reflexivity.
  - reflexivity.
  - vm_compute. reflexivity.
Defined.

Lemma constructor_allocates_two_fresh_blocks_witness :
  is_setup Example.constructed.1 = false ∧
  alpha Example.constructed.1 = None ∧
  stream Example.constructed.1 = nullptr ∧
  index [0; 4] (get_num_threads Example.env0)
  = Some (v_glob Example.constructed.1) ∧
  (∃ hi lo, index [0; 4] (get_thread_num Example.env0 + 1) = Some hi ∧
            index [0; 4] (get_thread_num Example.env0) = Some lo ∧
            v_loc Example.constructed.1 = to_size_t (hi - lo)) ∧
  (∃ tmp_e, load_int (mem Example.csr_machine) Example.csr_off_ptr
              (v_loc Example.constructed.1) = Some tmp_e ∧
            e_loc Example.constructed.1 = to_size_t tmp_e) ∧
  bookmark Example.constructed.1 ≠ val Example.constructed.1 ∧
  bookmark Example.constructed.1 ≠ nullptr ∧
  val Example.constructed.1 ≠ nullptr ∧
  mem Example.csr_machine !! bookmark Example.constructed.1 = None ∧
  mem Example.csr_machine !! val Example.constructed.1 = None ∧
  mem Example.constructed.2 !! bookmark Example.constructed.1
  = Some (replicate (Z.to_nat (v_glob Example.constructed.1)) Undef) ∧
  mem Example.constructed.2 !! val Example.constructed.1
  = Some (replicate (Z.to_nat (e_loc Example.constructed.1)) Undef) ∧
  ∀ q, is_Some (mem Example.csr_machine !! q) →
       mem Example.constructed.2 !! q = mem Example.csr_machine !! q.
Proof.
  apply (constructor_allocates_two_fresh_blocks Example.env0 [0; 4]
           Example.csr_off_ptr Example.csr_ind_ptr Example.csr_machine).
  vm_compute. reflexivity.
Defined.

Lemma driver_keeps_the_solver_contract_witness :
  "SNMG Degree failed in Pagerank" ≠ "Setup can be called only once" ∧
  "SNMG Degree failed in Pagerank" ≠ "Solve was called before setup".
Proof.
  apply (driver_keeps_the_solver_contract (C := Failing.degree_failure)
           Float32 Int32 [OneDevice.int32_column OneDevice.cycle_src 4]
           [OneDevice.int32_column OneDevice.cycle_dst 4]
           OneDevice.empty_column 1 OneDevice.damping_0_85 1
           OneDevice.cycle_machine "SNMG Degree failed in Pagerank"
           DegreeFailure.thrown).
  vm_compute. reflexivity.
Defined.
End RunningExample.
